(** * Reindex job submission script and database seeding (medplum server)

    A shallow embedding of
    - the reindex submission script (its [main] and the promise chain that
      runs it), and
    - [seedDatabase] of [packages/server/src/seed.ts],
    with the properties of the window partitioning, of the submission gate,
    of the error paths and of the seeding entry check. *)

From Stdlib Require Import ZArith List String Ascii Bool Lia Sorted.
Import ListNotations.
Local Open Scope string_scope.
Local Open Scope list_scope.
Local Open Scope Z_scope.

(** String concatenation, as [+] on strings and template literals. *)
Infix "+++" := String.append (at level 60, right associativity).

Set Implicit Arguments.

(* ================================================================= *)
(** ** JavaScript values used by the script *)

(** A [Date] is modelled by its time value: milliseconds since the epoch,
    as an integer, and the numbers of the script by integers.  The
    arithmetic is that of the integers, which is the arithmetic of the
    engine as long as the time values are [valid] (within [maxTime] of
    the epoch) and the numbers computed on the way are below 2^53.
    Outside that range the engine differs: [TimeClip] turns a time value
    beyond [maxTime] into [NaN], an Invalid Date on which [toISOString]
    throws a [RangeError], and a [Number] above 2^53 is rounded.
    [Reindex.date_range] states that range for a run, and what is proved
    below of the dates of the windows, and of a run coming to its end
    through them, assumes it. *)
Module JsDate.

Definition msPerSecond : Z := 1000.
Definition msPerMinute : Z := 60000.
Definition msPerHour : Z := 3600000.
Definition msPerDay : Z := 86400000.

(** The largest time value of a [Date]: 100,000,000 days from the epoch,
    either way. *)
Definition maxTime : Z := 8640000000000000.

(** A time value [TimeClip] lets through. *)
Definition valid (t : Z) : Prop := - maxTime <= t <= maxTime.

Definition Day (t : Z) : Z := t / msPerDay.
Definition HourFromTime (t : Z) : Z := (t / msPerHour) mod 24.
Definition MinFromTime (t : Z) : Z := (t / msPerMinute) mod 60.
Definition SecFromTime (t : Z) : Z := (t / msPerSecond) mod 60.
Definition msFromTime (t : Z) : Z := t mod msPerSecond.

Definition MakeTime (hour min sec ms : Z) : Z :=
  hour * msPerHour + min * msPerMinute + sec * msPerSecond + ms.
Definition MakeDate (day time : Z) : Z := day * msPerDay + time.

(** [d.getUTCMinutes()] *)
Definition getUTCMinutes (t : Z) : Z := MinFromTime t.

(** [d.setUTCMinutes(min)]: the new time value (also the returned
    number), for a [valid] one that is [valid] again, computed below
    2^53. *)
Definition setUTCMinutes (t min : Z) : Z :=
  MakeDate (Day t) (MakeTime (HourFromTime t) min (SecFromTime t) (msFromTime t)).

(** Calendar date of a day number (days since 1970-01-01), proleptic
    Gregorian calendar: (year, month 1..12, day of month 1..31). *)
Definition civil_from_days (days : Z) : Z * Z * Z :=
  let z := days + 719468 in
  let era := z / 146097 in
  let doe := z - era * 146097 in
  let yoe := (doe - doe / 1460 + doe / 36524 - doe / 146096) / 365 in
  let doy := doe - (365 * yoe + yoe / 4 - yoe / 100) in
  let mp := (5 * doy + 2) / 153 in
  let d := doy - (153 * mp + 2) / 5 + 1 in
  let m := if mp <? 10 then mp + 3 else mp - 9 in
  let y := yoe + era * 400 + (if m <=? 2 then 1 else 0) in
  (y, m, d).

Definition digit (n : Z) : ascii := ascii_of_nat (48 + Z.to_nat (n mod 10)).

(** The [w] low decimal digits of [n], most significant first. *)
Fixpoint pad (w : nat) (n : Z) : string :=
  match w with
  | O => ""
  | S w' => pad w' (n / 10) +++ String (digit n) ""
  end.

Fixpoint digits_fuel (fuel : nat) (n : Z) : string :=
  match fuel with
  | O => ""
  | S f => if n <? 10 then String (digit n) ""
           else digits_fuel f (n / 10) +++ String (digit n) ""
  end.

(** Decimal numeral of a non-negative integer (a template literal
    [`${n}`] on such a number). *)
Definition decimal (n : Z) : string := digits_fuel (S (Z.to_nat (Z.log2 n))) n.

Definition year_string (y : Z) : string :=
  if (0 <=? y) && (y <=? 9999) then pad 4 y
  else if y <? 0 then "-" +++ pad 6 (- y)
  else "+" +++ pad 6 y.

(** [d.toISOString()] on a [valid] time value:
    [YYYY-MM-DDTHH:mm:ss.sssZ]. *)
Definition toISOString (t : Z) : string :=
  let '(y, m, d) := civil_from_days (Day t) in
  year_string y +++ "-" +++ pad 2 m +++ "-" +++ pad 2 d +++ "T"
    +++ pad 2 (HourFromTime t) +++ ":" +++ pad 2 (MinFromTime t) +++ ":"
    +++ pad 2 (SecFromTime t) +++ "." +++ pad 3 (msFromTime t) +++ "Z".

End JsDate.

(** [s.split(sep)] for a one-character separator: never the empty array. *)
Fixpoint split (sep : ascii) (s : string) : list string :=
  match s with
  | EmptyString => [""]
  | String c s' =>
      if Ascii.eqb c sep then "" :: split sep s'
      else match split sep s' with
           | [] => [String c ""]
           | x :: xs => String c x :: xs
           end
  end.

(** [l.join(sep)] *)
Definition join (sep : string) (l : list string) : string := String.concat sep l.

(** What [JSON.stringify(v, null, 2)] does on a value: it returns a
    text, or [undefined] (on [undefined], a function or a symbol), or it
    throws (a circular structure, a [BigInt], a [toJSON] or a getter that
    throws), here with the name and the message of what it throws. *)
Inductive Json : Type :=
| JsonText (s : string)
| JsonUndefined
| JsonThrows (name message : string).

(** A value a promise is rejected with: its name, its message, and what
    [JSON.stringify] does on it. *)
Record JsError : Type :=
  { err_name : string; err_message : string; err_json : Json }.

(** [new Error(message)] and the errors the engine throws: [name],
    [message] and [stack] are not enumerable own properties, so the
    JSON text is that of the empty object. *)
Definition js_error (name message : string) : JsError :=
  {| err_name := name; err_message := message; err_json := JsonText "{}" |}.

(** [JSON.stringify(err, null, 2)] *)
Definition JSON_stringify_error (e : JsError) : Json := err_json e.

(* ================================================================= *)
(** ** The reindex submission script *)

Module Reindex.

(** *** Data *)

(** [Operator] of [@medplum/core], the two members the script uses. *)
Inductive Operator : Type := GREATER_THAN_OR_EQUALS | LESS_THAN.

Record Filter : Type := { code : string; operator : Operator; value : string }.

(** [SearchRequest & { filters: Filter[] }]; [resourceType] holds
    [resourceTypes[0]], which is [undefined] ([None]) on an empty array. *)
Record SearchRequest : Type :=
  { resourceType : option string; filters : list Filter }.

Inductive AsyncJobStatus : Type :=
  ACCEPTED | IN_PROGRESS | COMPLETED | FAILED | CANCELLED.

Record AsyncJob : Type :=
  { id : nat; status : AsyncJobStatus; request : string; error : option JsError }.

(** What [addReindexJob] is called with, and the id of the queue job. *)
Record ReindexJob : Type :=
  { job_id : nat;
    job_resourceTypes : list string;
    job_asyncJob : nat;
    job_searchRequest : SearchRequest;
    job_maxResourceVersion : Z }.

(** Calls on the queue object found in the registry. *)
Inductive QueueCall : Type :=
| clean (grace limit : Z) (type : string)
| drain (delayed : bool)
| obliterate
| resume.

(** One [console.log] or [console.error] call, by its argument. *)
Inductive LogEntry : Type :=
| LogText (s : string)
| LogArray (l : list string)
| LogError (e : JsError)
| LogUndefined.

(** The world the script acts on.  [windows] is a history variable, not
    a variable of the program: the pair ([startDate], [endDate]) each
    iteration of the loop builds its filters from. *)
Record World : Type :=
  { stdout : list LogEntry;
    stderr : list LogEntry;
    queueCalls : list QueueCall;
    asyncJobs : list AsyncJob;
    queueEntries : list ReindexJob;
    windows : list (option Z * option Z) }.

Definition empty_world : World :=
  {| stdout := []; stderr := []; queueCalls := []; asyncJobs := [];
     queueEntries := []; windows := [] |}.

(** What the script does not decide: its command line and the outcome of
    the calls into the server. *)
Record Env : Type :=
  { argv2 : option string;
    loadConfig_error : option JsError;
    initAppServices_error : option JsError;
    registry_has_ReindexQueue : bool;
    (** does enqueueing the job of the Async Job with this id fail *)
    enqueue_error : nat -> option JsError }.

(** The constants of the script, as parameters. *)
Record Config : Type :=
  { DO_OBLITERATE : bool;
    DO_ADD_JOBS : bool;
    maxResourceVersion : Z;
    beforeDate : Z;
    startDate0 : option Z;
    intervalMinutes : Z }.

(** The constants as the source has them. *)
Definition source_config : Config :=
  {| DO_OBLITERATE := false;
     DO_ADD_JOBS := false;
     maxResourceVersion := 5;
     beforeDate := 1748736000000;       (* 2025-06-01T00:00:00Z *)
     startDate0 := Some 1744675200000;  (* 2025-04-15T00:00:00Z *)
     intervalMinutes := 24 * 60 * 30 |}.

(** *** The monad of the script: world passing, exceptions, fuel *)

Inductive Res (A : Type) : Type :=
| Ok (a : A)
| Throw (e : JsError)
| OutOfFuel.
Arguments Ok {A} a.
Arguments Throw {A} e.
Arguments OutOfFuel {A}.

Definition M (A : Type) : Type := World -> Res A * World.

Definition ret {A} (a : A) : M A := fun w => (Ok a, w).

Definition bind {A B} (c : M A) (k : A -> M B) : M B :=
  fun w => match c w with
           | (Ok a, w') => k a w'
           | (Throw e, w') => (Throw e, w')
           | (OutOfFuel, w') => (OutOfFuel, w')
           end.

Definition throw {A} (e : JsError) : M A := fun w => (Throw e, w).

Definition out_of_fuel {A} : M A := fun w => (OutOfFuel, w).

(** [try { c } catch (e) { h e }], and [p.catch(h)] on a promise. *)
Definition catch {A} (c : M A) (h : JsError -> M A) : M A :=
  fun w => match c w with
           | (Throw e, w') => h e w'
           | r => r
           end.

Notation "x <- c ;; k" := (bind c (fun x => k))
  (at level 61, c at next level, right associativity).
Notation "c ;; k" := (bind c (fun _ => k))
  (at level 61, right associativity).

Definition set_stdout (w : World) (x : list LogEntry) : World :=
  {| stdout := x; stderr := stderr w; queueCalls := queueCalls w;
     asyncJobs := asyncJobs w; queueEntries := queueEntries w;
     windows := windows w |}.

Definition set_stderr (w : World) (x : list LogEntry) : World :=
  {| stdout := stdout w; stderr := x; queueCalls := queueCalls w;
     asyncJobs := asyncJobs w; queueEntries := queueEntries w;
     windows := windows w |}.

Definition set_queueCalls (w : World) (x : list QueueCall) : World :=
  {| stdout := stdout w; stderr := stderr w; queueCalls := x;
     asyncJobs := asyncJobs w; queueEntries := queueEntries w;
     windows := windows w |}.

Definition set_asyncJobs (w : World) (x : list AsyncJob) : World :=
  {| stdout := stdout w; stderr := stderr w; queueCalls := queueCalls w;
     asyncJobs := x; queueEntries := queueEntries w;
     windows := windows w |}.

Definition set_queueEntries (w : World) (x : list ReindexJob) : World :=
  {| stdout := stdout w; stderr := stderr w; queueCalls := queueCalls w;
     asyncJobs := asyncJobs w; queueEntries := x;
     windows := windows w |}.

Definition set_windows (w : World) (x : list (option Z * option Z)) : World :=
  {| stdout := stdout w; stderr := stderr w; queueCalls := queueCalls w;
     asyncJobs := asyncJobs w; queueEntries := queueEntries w;
     windows := x |}.

Definition console_log (l : LogEntry) : M unit :=
  fun w => (Ok tt, set_stdout w (stdout w ++ [l])).

Definition console_error (l : LogEntry) : M unit :=
  fun w => (Ok tt, set_stderr w (stderr w ++ [l])).

Definition queue_call (c : QueueCall) : M unit :=
  fun w => (Ok tt, set_queueCalls w (queueCalls w ++ [c])).

Definition note_window (sd ed : option Z) : M unit :=
  fun w => (Ok tt, set_windows w (windows w ++ [(sd, ed)])).

Section Script.

Variable env : Env.
Variable cfg : Config.

(** *** Calls into the server *)

(** [process.argv[2].split(',')]: a [TypeError] when there is no
    argument. *)
Definition argv_resourceTypes : M (list string) :=
  match argv2 env with
  | Some s => ret (split "," s)
  | None => throw (js_error "TypeError" "Cannot read properties of undefined (reading 'split')")
  end.

(** [loadConfig] and [initAppServices]: the environment decides whether
    they reject. *)
Definition loadConfig : M unit :=
  match loadConfig_error env with Some e => throw e | None => ret tt end.

Definition initAppServices : M unit :=
  match initAppServices_error env with Some e => throw e | None => ret tt end.

(** [queueRegistry.get('ReindexQueue')]: is there such a queue. *)
Definition queueRegistry_get : M bool :=
  ret (registry_has_ReindexQueue env).

Definition terminal (s : AsyncJobStatus) : bool :=
  match s with
  | COMPLETED | FAILED | CANCELLED => true
  | ACCEPTED | IN_PROGRESS => false
  end.

(** Modelled from the spec: [AsyncJobExecutor.init] (the module
    fhir/operations/utils/asyncjobexecutor is not among the sources) is
    the tracker's [create]: it persists one Async Job in state
    [ACCEPTED] whose request is the url it is given.  The store is the
    list of the jobs in the order of their creation, and [id] is the
    place of a job in it: it stands for the identity of the resource,
    by which [markFailed] and the queue entries refer to it, and says
    nothing of the text of the id the server gives it. *)
Definition exec_init (url : string) : M AsyncJob :=
  fun w =>
    let j := {| id := List.length (asyncJobs w); status := ACCEPTED;
                request := url; error := None |} in
    (Ok j, set_asyncJobs w (asyncJobs w ++ [j])).

Definition fail_job (i : nat) (e : JsError) (j : AsyncJob) : AsyncJob :=
  if Nat.eqb (id j) i
  then {| id := id j; status := FAILED; request := request j; error := Some e |}
  else j.

(** Modelled from the spec: the tracker's [markFailed(id, error)]
    records the error; it fails with [NotFound] when there is no such
    job and with [InvalidTransition] when the job is in a terminal
    state. *)
Definition markFailed (i : nat) (e : JsError) : M unit :=
  fun w =>
    match find (fun j => Nat.eqb (id j) i) (asyncJobs w) with
    | None => (Throw (js_error "NotFound" ""), w)
    | Some j =>
        if terminal (status j)
        then (Throw (js_error "InvalidTransition" ""), w)
        else (Ok tt, set_asyncJobs w (map (fail_job i e) (asyncJobs w)))
    end.

(** Modelled from the spec: [AsyncJobExecutor.run] (same missing
    module) runs the callback on the Async Job; when the callback
    fails the job is marked [FAILED], as a compensating action, and the
    failure is not passed on. *)
Definition exec_run (asyncJob : AsyncJob) (callback : AsyncJob -> M unit) : M unit :=
  catch (callback asyncJob) (fun e => markFailed (id asyncJob) e).

(** Modelled from the spec: [addReindexJob] (the module workers/reindex
    is not among the sources) is the queue's [enqueue]: one Job
    Descriptor with the arguments of the call and the id of the Async
    Job is appended to the queue, or the call fails and the queue is as
    before. *)
Definition addReindexJob (resourceTypes : list string) (asyncJob : AsyncJob)
    (searchRequest : SearchRequest) (maxVersion : Z) : M ReindexJob :=
  fun w =>
    match enqueue_error env (id asyncJob) with
    | Some e => (Throw e, w)
    | None =>
        let job := {| job_id := S (List.length (queueEntries w));
                      job_resourceTypes := resourceTypes;
                      job_asyncJob := id asyncJob;
                      job_searchRequest := searchRequest;
                      job_maxResourceVersion := maxVersion |} in
        (Ok job, set_queueEntries w (queueEntries w ++ [job]))
    end.

(** *** The body of the loop *)

(** Lines 46-49: the end of the window that starts at [startDate]. *)
Definition next_endDate (startDate endDate : option Z) : option Z :=
  match startDate with
  | Some sd =>
      let endDate := JsDate.setUTCMinutes sd (JsDate.getUTCMinutes sd + intervalMinutes cfg) in
      Some (Z.min endDate (beforeDate cfg))
  | None => endDate
  end.

(** Lines 51-63, the [urlQueryParts] array. *)
Definition urlQueryParts (startDate endDate : option Z) : list string :=
  match startDate with
  | Some sd => ["_lastUpdated=ge" +++ JsDate.toISOString sd]
  | None => []
  end ++
  match endDate with
  | Some ed => ["_lastUpdated=lt" +++ JsDate.toISOString ed]
  | None => []
  end.

(** Lines 45 and 51-63, the [searchRequest] object once its filters
    are pushed. *)
Definition make_searchRequest (resourceTypes : list string)
    (startDate endDate : option Z) : SearchRequest :=
  {| resourceType := nth_error resourceTypes 0;
     filters :=
       match startDate with
       | Some sd => [{| code := "_lastUpdated"; operator := GREATER_THAN_OR_EQUALS;
                        value := JsDate.toISOString sd |}]
       | None => []
       end ++
       match endDate with
       | Some ed => [{| code := "_lastUpdated"; operator := LESS_THAN;
                        value := JsDate.toISOString ed |}]
       | None => []
       end |}.

(** Line 64. *)
Definition make_url (resourceTypes : list string) (startDate endDate : option Z) : string :=
  join "," resourceTypes +++ "?" +++ join "&" (urlQueryParts startDate endDate).

(** Lines 67-76, inside [if (DO_ADD_JOBS)]; [requestContextStore.run]
    calls its callback. *)
Definition submit (resourceTypes : list string) (url : string)
    (searchRequest : SearchRequest) : M unit :=
  asyncJob <- exec_init url ;;
  exec_run asyncJob (fun asyncJob =>
    job <- addReindexJob resourceTypes asyncJob searchRequest (maxResourceVersion cfg) ;;
    console_log (LogText ("Added job " +++ JsDate.decimal (Z.of_nat (job_id job))))).

(** [startDate && startDate < beforeDate] *)
Definition loop_condition (startDate : option Z) : bool :=
  match startDate with
  | Some sd => sd <? beforeDate cfg
  | None => false
  end.

(** Lines 51-76: what an iteration does once its window is known. *)
Definition iteration (resourceTypes : list string)
    (startDate endDate : option Z) : M unit :=
  let searchRequest := make_searchRequest resourceTypes startDate endDate in
  let url := make_url resourceTypes startDate endDate in
  note_window startDate endDate ;;
  console_log (LogText url) ;;
  if DO_ADD_JOBS cfg then submit resourceTypes url searchRequest else ret tt.

(** Lines 44-79: the [do ... while] loop, one iteration per unit of
    fuel. *)
Fixpoint loop (fuel : nat) (resourceTypes : list string)
    (startDate endDate : option Z) : M unit :=
  match fuel with
  | O => out_of_fuel
  | S fuel' =>
      let endDate := next_endDate startDate endDate in
      iteration resourceTypes startDate endDate ;;
      let startDate := endDate in
      if loop_condition startDate
      then loop fuel' resourceTypes startDate endDate
      else ret tt
  end.

(** Lines 27-34. *)
Definition prepare_queue : M unit :=
  if DO_OBLITERATE cfg then
    console_log (LogText "obliterating queue...") ;;
    queue_call (clean 0 0 "active") ;;
    queue_call (drain true) ;;
    queue_call obliterate
  else
    queue_call resume.

(** [main], lines 15-80. *)
Definition main (fuel : nat) : M unit :=
  resourceTypes <- argv_resourceTypes ;;
  console_log (LogArray resourceTypes) ;;
  loadConfig ;;
  initAppServices ;;
  queue <- queueRegistry_get ;;
  (if negb queue
   then throw (js_error "Error" "Could not find queue")
   else ret tt) ;;
  prepare_queue ;;
  loop fuel resourceTypes (startDate0 cfg) None.

(** Lines 84-87, the handler given to [catch]: when [JSON.stringify]
    throws, the handler throws after its first line. *)
Definition on_rejected (err : JsError) : M unit :=
  console_error (LogError err) ;;
  match JSON_stringify_error err with
  | JsonText s => console_error (LogText s)
  | JsonUndefined => console_error LogUndefined
  | JsonThrows name message => throw (js_error name message)
  end.

(** Lines 82-87: [main().then(...).catch(...)]. *)
Definition script (fuel : nat) : M unit :=
  catch (main fuel ;; console_log (LogText "Done")) on_rejected.

(** The exit status of the process once the promise of [script] is
    settled: nothing in the script sets [process.exitCode] or calls
    [process.exit], so it is 0 unless a rejection is left unhandled,
    as it is when the handler of [catch] throws. *)
Definition exit_status (r : Res unit) : option Z :=
  match r with
  | Ok _ => Some 0
  | Throw _ => Some 1
  | OutOfFuel => None
  end.

End Script.

(** The Async Job store hands out fresh ids: the jobs it holds have ids
    below the next one. *)
Definition store_fresh (w : World) : Prop :=
  forall j, In j (asyncJobs w) -> (id j < List.length (asyncJobs w))%nat.

(** A window with both ends, as the loop notes it. *)
Definition window (ab : Z * Z) : option Z * option Z :=
  (Some (fst ab), Some (snd ab)).

(** The setup of [main] goes through: there is an argument, the
    configuration and the services load, the queue is registered. *)
Definition setup_ok (env : Env) : Prop :=
  argv2 env <> None /\ loadConfig_error env = None /\
  initAppServices_error env = None /\ registry_has_ReindexQueue env = true.

(** The queue calls of lines 27-34. *)
Definition prepare_calls (cfg : Config) : list QueueCall :=
  if DO_OBLITERATE cfg then [clean 0 0 "active"; drain true; obliterate]
  else [resume].

(** The store is as the submission needs it: with the gate on, its ids
    are fresh. *)
Definition world_ok (cfg : Config) (w : World) : Prop :=
  DO_ADD_JOBS cfg = true -> store_fresh w.

(** The step of the partition in milliseconds. *)
Definition stepMs (cfg : Config) : Z := intervalMinutes cfg * JsDate.msPerMinute.

(** The dates of a run from [s] stay where the arithmetic of the model
    is that of the engine: the start and the horizon are valid time
    values, the step is not negative, a step past the later of the two
    is still a valid time value (so that [setUTCMinutes] never gives
    [NaN]), and the milliseconds [MakeTime] adds up (less than a day,
    and the step) stay below 2^53 (so that nothing is rounded). *)
Definition date_range (cfg : Config) (s : Z) : Prop :=
  JsDate.valid s /\ JsDate.valid (beforeDate cfg) /\
  (0 <= intervalMinutes cfg) /\
  (Z.max s (beforeDate cfg) + stepMs cfg <= JsDate.maxTime) /\
  (stepMs cfg + JsDate.msPerDay <= 2 ^ 53).

(** Vocabulary for lists of half-open windows [(start, end)]. *)
Definition ascending (ws : list (Z * Z)) : Prop :=
  StronglySorted Z.lt (map fst ws).

Definition contiguous (ws : list (Z * Z)) : Prop :=
  forall i a b, nth_error ws i = Some a -> nth_error ws (S i) = Some b ->
                snd a = fst b.

Definition non_overlapping (ws : list (Z * Z)) : Prop :=
  forall i j a b, (i < j)%nat -> nth_error ws i = Some a -> nth_error ws j = Some b ->
                  snd a <= fst b.

Definition covers (ws : list (Z * Z)) (lo hi : Z) : Prop :=
  forall t, lo <= t < hi <-> exists ab, In ab ws /\ fst ab <= t < snd ab.

(** The windows the loop goes through from a start below the horizon:
    full steps, then a last window cut at [beforeDate]. *)
Inductive chain (cfg : Config) : Z -> list (Z * Z) -> Prop :=
| chain_last (s : Z) :
    beforeDate cfg <= s + stepMs cfg ->
    chain cfg s [(s, beforeDate cfg)]
| chain_step (s : Z) (ws : list (Z * Z)) :
    s + stepMs cfg < beforeDate cfg ->
    chain cfg (s + stepMs cfg) ws ->
    chain cfg s ((s, s + stepMs cfg) :: ws).

(** The Async Job and the queue entry an iteration adds in world [w]. *)
Definition new_job (rts : list string) (sd ed : option Z) (w : World)
    (st : AsyncJobStatus) (e : option JsError) : AsyncJob :=
  {| id := List.length (asyncJobs w); status := st;
     request := make_url rts sd ed; error := e |}.

Definition new_entry (cfg : Config) (rts : list string) (sd ed : option Z)
    (w : World) : ReindexJob :=
  {| job_id := S (List.length (queueEntries w));
     job_resourceTypes := rts;
     job_asyncJob := List.length (asyncJobs w);
     job_searchRequest := make_searchRequest rts sd ed;
     job_maxResourceVersion := maxResourceVersion cfg |}.

(** How many queue entries refer to the Async Job with id [i]. *)
Definition references (i : nat) (l : list ReindexJob) : nat :=
  List.length (filter (fun e => Nat.eqb (job_asyncJob e) i) l).

(** The windows, of those a run went through with the gate on, whose
    enqueue went through; [k] is the id of the Async Job of the first. *)
Fixpoint submitted (env : Env) (k : nat) (ws : list (Z * Z)) : list (Z * Z) :=
  match ws with
  | [] => []
  | ab :: rest =>
      match enqueue_error env k with
      | None => ab :: submitted env (S k) rest
      | Some _ => submitted env (S k) rest
      end
  end.

(** The world once the [catch] handler of lines 84-87 has run on [e],
    the lines it writes after the error itself, and how it ends. *)
Definition reported (e : JsError) (w : World) : World :=
  snd (on_rejected e w).

Definition stringified (e : JsError) : list LogEntry :=
  match JSON_stringify_error e with
  | JsonText s => [LogText s]
  | JsonUndefined => [LogUndefined]
  | JsonThrows _ _ => []
  end.

Definition handled (e : JsError) : Res unit :=
  match JSON_stringify_error e with
  | JsonThrows name message => Throw (js_error name message)
  | _ => Ok tt
  end.

(** The error the setup of [main] ends with, if it does: lines 16-25. *)
Definition setup_error (env : Env) : option JsError :=
  match argv2 env with
  | None => Some (js_error "TypeError" "Cannot read properties of undefined (reading 'split')")
  | Some _ =>
      match loadConfig_error env with
      | Some e => Some e
      | None =>
          match initAppServices_error env with
          | Some e => Some e
          | None =>
              if registry_has_ReindexQueue env then None
              else Some (js_error "Error" "Could not find queue")
          end
      end
  end.

(** The world once lines 27-34 have run. *)
Definition prepared (cfg : Config) (w : World) : World :=
  snd (prepare_queue cfg w).

(** The window an iteration builds its filters from, by whether the
    script has a start date. *)
Definition window_shape (cfg : Config) (rts : list string) (sd ed : option Z) : Prop :=
  match startDate0 cfg with
  | Some _ =>
      exists a b,
        sd = Some a /\ ed = Some b /\
        b = Z.min (a + stepMs cfg) (beforeDate cfg) /\
        filters (make_searchRequest rts sd ed) =
          [{| code := "_lastUpdated"; operator := GREATER_THAN_OR_EQUALS;
              value := JsDate.toISOString a |};
           {| code := "_lastUpdated"; operator := LESS_THAN;
              value := JsDate.toISOString b |}]
  | None =>
      sd = None /\ ed = None /\ filters (make_searchRequest rts sd ed) = []
  end.

(** The dates of a window are valid time values, and so is the date
    [setUTCMinutes] computes from its start. *)
Definition valid_window (cfg : Config) (ab : Z * Z) : Prop :=
  JsDate.valid (fst ab) /\ JsDate.valid (fst ab + stepMs cfg) /\
  JsDate.valid (snd ab).

(** The Async Job [j] is that of the window [win]: its request is the
    url of the window, and the queue entries that refer to it carry the
    search request built from the window. *)
Definition job_of_window (rts : list string) (entries : list ReindexJob)
    (win : option Z * option Z) (j : AsyncJob) : Prop :=
  request j = make_url rts (fst win) (snd win) /\
  forall e, In e entries -> job_asyncJob e = id j ->
            job_searchRequest e = make_searchRequest rts (fst win) (snd win).

(** The search request of the job of a window with both ends. *)
Definition window_request (rts : list string) (ab : Z * Z) : SearchRequest :=
  make_searchRequest rts (Some (fst ab)) (Some (snd ab)).

(** What holds of a queue entry of a run over the resource types [rts]:
    its search request is for the first of them only, the job is for all
    of them, and its Async Job records a url of all of them. *)
Definition entry_types (rts : list string) (jobs : list AsyncJob) (e : ReindexJob) : Prop :=
  resourceType (job_searchRequest e) = nth_error rts 0 /\
  job_resourceTypes e = rts /\
  exists j q, In j jobs /\ id j = job_asyncJob e /\
              request j = join "," rts +++ "?" +++ q.

(** An Async Job of the run and the queue: [FAILED], with the error and
    no entry, when its enqueue failed; [ACCEPTED] with exactly one entry
    when it went through. *)
Definition paired (env : Env) (entries : list ReindexJob) (j : AsyncJob) : Prop :=
  match enqueue_error env (id j) with
  | Some e => status j = FAILED /\ error j = Some e /\ references (id j) entries = 0%nat
  | None => status j = ACCEPTED /\ references (id j) entries = 1%nat
  end.

(** The line an iteration logs for its window. *)
Definition url_line (rts : list string) (ab : option Z * option Z) : LogEntry :=
  LogText (make_url rts (fst ab) (snd ab)).

(** *** Environments and settings of the constants used as examples *)

(** Everything goes through; the command line names [types]. *)
Definition plain_env (types : string) : Env :=
  {| argv2 := Some types; loadConfig_error := None;
     initAppServices_error := None; registry_has_ReindexQueue := true;
     enqueue_error := fun _ => None |}.

(** The registry has no [ReindexQueue]. *)
Definition no_queue_env : Env :=
  {| argv2 := Some "Patient"; loadConfig_error := None;
     initAppServices_error := None; registry_has_ReindexQueue := false;
     enqueue_error := fun _ => None |}.

(** [loadConfig] rejects with an error that refers to itself, on which
    [JSON.stringify] throws. *)
Definition circular_env : Env :=
  {| argv2 := Some "Patient";
     loadConfig_error :=
       Some {| err_name := "Error"; err_message := "config";
               err_json := JsonThrows "TypeError" "Converting circular structure to JSON" |};
     initAppServices_error := None; registry_has_ReindexQueue := true;
     enqueue_error := fun _ => None |}.

(** The enqueue of the second job (Async Job 1) fails. *)
Definition flaky_env : Env :=
  {| argv2 := Some "Patient,Observation"; loadConfig_error := None;
     initAppServices_error := None; registry_has_ReindexQueue := true;
     enqueue_error := fun k =>
       if Nat.eqb k 1
       then Some (js_error "Error" "Connection is closed.")
       else None |}.

(** The source with [DO_ADD_JOBS] set. *)
Definition submit_config : Config :=
  {| DO_OBLITERATE := false; DO_ADD_JOBS := true; maxResourceVersion := 5;
     beforeDate := 1748736000000; startDate0 := Some 1744675200000;
     intervalMinutes := 24 * 60 * 30 |}.

(** The source with [DO_OBLITERATE] set, the submission gate off. *)
Definition obliterate_config : Config :=
  {| DO_OBLITERATE := true; DO_ADD_JOBS := false; maxResourceVersion := 5;
     beforeDate := 1748736000000; startDate0 := Some 1744675200000;
     intervalMinutes := 24 * 60 * 30 |}.

(** A step of zero minutes, [DO_ADD_JOBS] set. *)
Definition zero_step_config : Config :=
  {| DO_OBLITERATE := false; DO_ADD_JOBS := true; maxResourceVersion := 5;
     beforeDate := 1748736000000; startDate0 := Some 1744675200000;
     intervalMinutes := 0 |}.

(** [startDate] left [undefined], [DO_ADD_JOBS] set. *)
Definition no_start_config : Config :=
  {| DO_OBLITERATE := false; DO_ADD_JOBS := true; maxResourceVersion := 5;
     beforeDate := 1748736000000; startDate0 := None;
     intervalMinutes := 24 * 60 * 30 |}.

(** The run of the script from a world. *)
Definition run (env : Env) (cfg : Config) (fuel : nat) (w : World) : Res unit * World :=
  script env cfg fuel w.

End Reindex.

(* ================================================================= *)
(** ** Seeding of a database ([packages/server/src/seed.ts]) *)

Module Seed.

(** The resources [seedDatabase] writes, and the definitions the rebuild
    functions write ([Definitional], by resource type). *)
Inductive Content : Type :=
| User (firstName lastName email passwordHash : string)
| Project (name : string) (owner : option string) (superAdmin strictMode : option bool)
| Practitioner (meta_project given family telecom_email : string)
| ProjectMembership (project user profile : string) (admin : bool)
| Definitional (resourceType : string).

Record Resource : Type := { id : string; content : Content }.

Definition resourceType (r : Resource) : string :=
  match content r with
  | User _ _ _ _ => "User"
  | Project _ _ _ _ => "Project"
  | Practitioner _ _ _ _ => "Practitioner"
  | ProjectMembership _ _ _ _ => "ProjectMembership"
  | Definitional t => t
  end.

(** The database behind a pool, with what the repository and the logger
    did: [writes] counts the create and update calls, [acquired] the
    connections taken from the pool. *)
Record Database : Type :=
  { resources : list Resource;
    writes : nat;
    next_id : nat;
    acquired : nat;
    log : list string }.

Section Seeding.

(** Not in the sources: the id a new resource gets, the password hash,
    the id of the R4 project and the three rebuild functions. *)
Variable generateId : nat -> string.
Variable bcryptHashPassword : string -> string.
Variable r4ProjectId : string.
Variable rebuildR4StructureDefinitions : Database -> Database.
Variable rebuildR4ValueSets : Database -> Database.
Variable rebuildR4SearchParameters : Database -> Database.

(** [pool.connect()] *)
Definition connect (d : Database) : Database :=
  {| resources := resources d; writes := writes d; next_id := next_id d;
     acquired := S (acquired d); log := log d |}.

(** [globalLogger.info(msg)]; the durations some calls attach are not
    kept. *)
Definition info (msg : string) (d : Database) : Database :=
  {| resources := resources d; writes := writes d; next_id := next_id d;
     acquired := acquired d; log := log d ++ [msg] |}.

(** [systemRepo.createResource(c)]: the resource with its new id, and
    the database that holds it. *)
Definition createResource (c : Content) (d : Database) : Resource * Database :=
  let r := {| id := generateId (next_id d); content := c |} in
  (r, {| resources := resources d ++ [r]; writes := S (writes d);
         next_id := S (next_id d); acquired := acquired d; log := log d |}).

Definition same_resource (r r' : Resource) : bool :=
  String.eqb (resourceType r) (resourceType r') && String.eqb (id r) (id r').

(** [systemRepo.updateResource(r)]: replaces the resource of that type
    and id, or stores it when there is none. *)
Definition updateResource (r : Resource) (d : Database) : Database :=
  {| resources :=
       if existsb (same_resource r) (resources d)
       then map (fun r' => if same_resource r r' then r else r') (resources d)
       else resources d ++ [r];
     writes := S (writes d); next_id := next_id d;
     acquired := acquired d; log := log d |}.

(** [systemRepo.searchOne({ resourceType })] *)
Definition searchOne (type : string) (d : Database) : option Resource :=
  find (fun r => String.eqb (resourceType r) type) (resources d).

(** [createReference(r).reference] *)
Definition createReference (r : Resource) : string :=
  resourceType r +++ "/" +++ id r.

Definition isSeeded (d : Database) : option Resource := searchOne "User" d.

Definition createSuperAdmin (d : Database) : Database :=
  let firstName := "Medplum" in
  let lastName := "Admin" in
  let email := "admin@example.com" in
  let passwordHash := bcryptHashPassword "medplum_admin" in
  let '(superAdmin, d) := createResource (User firstName lastName email passwordHash) d in
  let '(superAdminProject, d) :=
    createResource (Project "Super Admin" (Some (createReference superAdmin))
                      (Some true) (Some true)) d in
  let d := updateResource {| id := r4ProjectId;
                             content := Project "FHIR R4" None None None |} d in
  let '(practitioner, d) :=
    createResource (Practitioner (id superAdminProject) firstName lastName email) d in
  let '(_, d) :=
    createResource (ProjectMembership (createReference superAdminProject)
                      (createReference superAdmin)
                      (createReference practitioner) true) d in
  d.

Definition seedDatabase (d : Database) : Database :=
  let d := connect d in
  match isSeeded d with
  | Some _ => info "Already seeded" d
  | None =>
      let d := createSuperAdmin d in
      let d := info "Building structure definitions..." d in
      let d := rebuildR4StructureDefinitions d in
      let d := info "Finished building structure definitions" d in
      let d := info "Building value sets..." d in
      let d := rebuildR4ValueSets d in
      let d := info "Finished building value sets" d in
      let d := info "Building search parameters..." d in
      let d := rebuildR4SearchParameters d in
      info "Finished building search parameters" d
  end.

End Seeding.

(** The database holds at least one [User]. *)
Definition has_user (d : Database) : Prop :=
  exists r, In r (resources d) /\ resourceType r = "User".

(** Rebuild functions and a seeded database used as an example: each
    rebuild writes one definition of its kind. *)
Definition example_id (n : nat) : string := "id-" +++ JsDate.decimal (Z.of_nat n).

Definition rebuild_one (type : string) (d : Database) : Database :=
  snd (createResource example_id (Definitional type) d).

Definition example_seed : Database -> Database :=
  seedDatabase example_id (fun _ => "hash") "r4-project"
    (rebuild_one "StructureDefinition") (rebuild_one "ValueSet")
    (rebuild_one "SearchParameter").

Definition empty_database : Database :=
  {| resources := []; writes := 0; next_id := 0; acquired := 0; log := [] |}.

Definition seeded_database : Database := example_seed empty_database.

End Seed.

(* ================================================================= *)
(** ** Seeding of all the shards ([seedDatabases] of seed.ts) *)

Module Shards.

Import Seed.

(** A reference resolves in a database: a resource of that type has it. *)
Definition resolves (ref type : string) (d : Database) : Prop :=
  exists r, In r (resources d) /\ resourceType r = type /\ createReference r = ref.

(** The databases of the server, by the name of their shard. *)
Definition Pools : Type := string -> Database.

(** [getDatabasePool(DatabaseMode.WRITER, shardName)], which is not
    among the sources: the shard whose pool it gives.  By lines 15-23
    of seed.ts the pool it gives when no shard is named is that of the
    [global] shard, which is why the loop over the shards passes over
    that name. *)
Definition shard_of (shardName : option string) : string :=
  match shardName with
  | Some name => name
  | None => "global"
  end.

Definition getDatabasePool (p : Pools) (shardName : option string) : Database :=
  p (shard_of shardName).

Definition set_pool (p : Pools) (k : string) (d : Database) : Pools :=
  fun k' => if String.eqb k k' then d else p k'.

Section Seeding.

Variable generateId : nat -> string.
Variable bcryptHashPassword : string -> string.
Variable r4ProjectId : string.
Variable rebuildR4StructureDefinitions : Database -> Database.
Variable rebuildR4ValueSets : Database -> Database.
Variable rebuildR4SearchParameters : Database -> Database.

(** The rebuild functions do not remove the last [User]. *)
Definition rebuilds_keep_users : Prop :=
  (forall x, has_user x -> has_user (rebuildR4StructureDefinitions x)) /\
  (forall x, has_user x -> has_user (rebuildR4ValueSets x)) /\
  (forall x, has_user x -> has_user (rebuildR4SearchParameters x)).

(** [await seedDatabase(getDatabasePool(DatabaseMode.WRITER, shardName))] *)
Definition seed_pool (p : Pools) (shardName : option string) : Pools :=
  set_pool p (shard_of shardName)
    (seedDatabase generateId bcryptHashPassword r4ProjectId
       rebuildR4StructureDefinitions rebuildR4ValueSets rebuildR4SearchParameters
       (getDatabasePool p shardName)).

(** Lines 20-26: the loop over [Object.keys(getConfig().shards)]. *)
Fixpoint seed_shards (shardNames : list string) (p : Pools) : Pools :=
  match shardNames with
  | [] => p
  | shardName :: rest =>
      if String.eqb shardName "global" then seed_shards rest p
      else seed_shards rest (seed_pool p (Some shardName))
  end.

(** [seedDatabases], lines 14-27, over the keys of the [shards] object
    of the configuration. *)
Definition seedDatabases (shardNames : list string) (p : Pools) : Pools :=
  seed_shards shardNames (seed_pool p None).

End Seeding.

(** Pools used as an example: every database empty. *)
Definition empty_pools : Pools := fun _ => empty_database.

Definition example_seedDatabases : list string -> Pools -> Pools :=
  seedDatabases example_id (fun _ => "hash") "r4-project"
    (rebuild_one "StructureDefinition") (rebuild_one "ValueSet")
    (rebuild_one "SearchParameter").

End Shards.

(* ================================================================= *)
(** ** The active link of the navigation bar ([getActiveLink], [getLinkScore]) *)

Module Navbar.

(** What [new URL(href, 'https://example.com')] gives of a link: its
    pathname and the entries of its [searchParams], in order. *)
Record Url : Type := { pathname : string; searchParams : list (string * string) }.

(** [NavbarLink] without its icon, and [NavbarMenu]. *)
Record NavbarLink : Type := { label : option string; href : string }.

Record NavbarMenu : Type := { title : option string; links : option (list NavbarLink) }.

(** A call that returns or throws. *)
Inductive Outcome (A : Type) : Type :=
| Returns (a : A)
| Throws.
Arguments Returns {A} a.
Arguments Throws {A}.

(** [params.get(key)]: the first value under the key, or [null]. *)
Fixpoint get (key : string) (params : list (string * string)) : option string :=
  match params with
  | [] => None
  | (k, v) :: rest => if String.eqb k key then Some v else get key rest
  end.

Definition ignoredParams : list string := ["_count"; "_offset"].

(** [ignoredParams.includes(key)] *)
Definition ignored (key : string) : bool := existsb (String.eqb key) ignoredParams.

(** [params.get(key) === value] *)
Definition has_value (params : list (string * string)) (key value : string) : bool :=
  match get key params with
  | Some v => String.eqb v value
  | None => false
  end.

(** The first loop of [getLinkScore]: [false] when it returns 0. *)
Fixpoint link_params_match (currentSearchParams linkParams : list (string * string)) : bool :=
  match linkParams with
  | [] => true
  | (key, value) :: rest =>
      if ignored key then link_params_match currentSearchParams rest
      else if negb (has_value currentSearchParams key value) then false
      else link_params_match currentSearchParams rest
  end.

(** The second loop of [getLinkScore], over the entries that are left of
    the current parameters. *)
Fixpoint count_matches (linkParams : list (string * string)) (count : nat)
    (entries : list (string * string)) : nat :=
  match entries with
  | [] => count
  | (key, value) :: rest =>
      if ignored key then count_matches linkParams count rest
      else if has_value linkParams key value then count_matches linkParams (S count) rest
      else count_matches linkParams count rest
  end.

Section Links.

(** [new URL(linkHref, 'https://example.com')]: [None] when the
    constructor throws. *)
Variable parseUrl : string -> option Url.

Definition getLinkScore (currentPathname : string)
    (currentSearchParams : list (string * string)) (linkHref : string) : Outcome nat :=
  match parseUrl linkHref with
  | None => Throws
  | Some linkUrl =>
      if negb (String.eqb currentPathname (pathname linkUrl)) then Returns 0%nat
      else if negb (link_params_match currentSearchParams (searchParams linkUrl))
      then Returns 0%nat
      else Returns (count_matches (searchParams linkUrl) 1 currentSearchParams)
  end.

(** The inner loop of [getActiveLink], from ([bestLink], [bestScore]). *)
Fixpoint scan_links (currentPathname : string)
    (currentSearchParams : list (string * string)) (ls : list NavbarLink)
    (best : option NavbarLink * nat) : Outcome (option NavbarLink * nat) :=
  match ls with
  | [] => Returns best
  | link :: rest =>
      match getLinkScore currentPathname currentSearchParams (href link) with
      | Throws => Throws
      | Returns score =>
          scan_links currentPathname currentSearchParams rest
            (if Nat.ltb (snd best) score then (Some link, score) else best)
      end
  end.

(** The outer loop. *)
Fixpoint scan_menus (currentPathname : string)
    (currentSearchParams : list (string * string)) (menus : list NavbarMenu)
    (best : option NavbarLink * nat) : Outcome (option NavbarLink * nat) :=
  match menus with
  | [] => Returns best
  | menu :: rest =>
      match links menu with
      | None => scan_menus currentPathname currentSearchParams rest best
      | Some ls =>
          match scan_links currentPathname currentSearchParams ls best with
          | Throws => Throws
          | Returns best' => scan_menus currentPathname currentSearchParams rest best'
          end
      end
  end.

Definition getActiveLink (currentPathname : option string)
    (currentSearchParams : option (list (string * string)))
    (menus : option (list NavbarMenu)) : Outcome (option NavbarLink) :=
  match currentPathname, currentSearchParams, menus with
  | Some path, Some params, Some ms =>
      if String.eqb path "" then Returns None
      else match scan_menus path params ms (None, 0%nat) with
           | Throws => Throws
           | Returns best => Returns (fst best)
           end
  | _, _, _ => Returns None
  end.

End Links.

(** The links of the menus, in the order the loops go through them. *)
Definition all_links (menus : list NavbarMenu) : list NavbarLink :=
  flat_map (fun menu => match links menu with Some ls => ls | None => [] end) menus.

(** The entries the score looks at. *)
Definition counted (params : list (string * string)) : list (string * string) :=
  filter (fun kv => negb (ignored (fst kv))) params.

(** A parser used as an example: two links with parameters; a link that
    starts with [!] does not parse; any other is its pathname. *)
Definition example_parse (h : string) : option Url :=
  if String.eqb h "/Patient?name=a&_count=20"
  then Some {| pathname := "/Patient"; searchParams := [("name", "a"); ("_count", "20")] |}
  else if String.eqb h "/Patient?name=a"
  then Some {| pathname := "/Patient"; searchParams := [("name", "a")] |}
  else match h with
       | String "!" _ => None
       | _ => Some {| pathname := h; searchParams := [] |}
       end.

Definition example_menus : list NavbarMenu :=
  [{| title := Some "Favorites";
      links := Some [{| label := Some "Patients"; href := "/Patient" |};
                     {| label := Some "Named a"; href := "/Patient?name=a" |};
                     {| label := None; href := "/Patient?name=a&_count=20" |}] |};
   {| title := None; links := None |};
   {| title := Some "Admin";
      links := Some [{| label := Some "Project"; href := "/admin/project" |}] |}].

End Navbar.

(* ================================================================= *)
(** ** The appointment agent: mock intents and the filter of the slots *)

Module Agent.

(** [s.includes(needle)] *)
Fixpoint includes (needle s : string) : bool :=
  if String.prefix needle s then true
  else match s with
       | EmptyString => false
       | String _ rest => includes needle rest
       end.

Inductive Action : Type := book | reschedule | cancel | inquire | unclear.

(** [AppointmentIntent], the fields the mock extraction sets;
    [confidence] is in tenths (8 for [0.8]). *)
Record AppointmentIntent : Type :=
  { action : Action;
    appointmentType : option string;
    preferredDate : option string;
    preferredTime : option string;
    confidence : Z;
    missingInfo : list string;
    originalMessage : string }.

(** A slot as [findAvailableSlots] returns them. *)
Record Slot : Type := { slot_id : string; start : string; slot_end : string }.

(** [lo <= hour && hour < hi]; [None] is [NaN], the hour of a date that
    does not parse. *)
Definition between (lo hi : Z) (hour : option Z) : bool :=
  match hour with
  | Some h => (lo <=? h) && (h <? hi)
  | None => false
  end.

Section Agent.

(** [s.toLowerCase()] *)
Variable toLowerCase : string -> string.

(** [new Date(start).getHours()], in the time zone of the process. *)
Variable getHours : string -> option Z.

(** [AIService.mockIntentExtraction], ai.service.ts lines 86-130: the
    intent returned; the line the function logs first is left out. *)
Definition mockIntentExtraction (message : string) : AppointmentIntent :=
  let lowerMessage := toLowerCase message in
  if includes "book" lowerMessage || includes "schedule" lowerMessage
     || includes "appointment" lowerMessage
  then
    {| action := book;
       appointmentType :=
         Some (if includes "checkup" lowerMessage then "checkup" else "consultation");
       preferredDate :=
         if includes "tomorrow" lowerMessage then Some "tomorrow"
         else if includes "next week" lowerMessage then Some "next week"
         else None;
       preferredTime :=
         if includes "morning" lowerMessage then Some "morning"
         else if includes "afternoon" lowerMessage then Some "afternoon"
         else if includes "evening" lowerMessage then Some "evening"
         else None;
       confidence := 8;
       missingInfo := [];
       originalMessage := message |}
  else if includes "reschedule" lowerMessage || includes "change" lowerMessage
  then
    {| action := reschedule; appointmentType := None; preferredDate := None;
       preferredTime := None; confidence := 8;
       missingInfo := ["current appointment details"; "new preferred time"];
       originalMessage := message |}
  else if includes "cancel" lowerMessage
  then
    {| action := cancel; appointmentType := None; preferredDate := None;
       preferredTime := None; confidence := 8;
       missingInfo := ["appointment details to cancel"];
       originalMessage := message |}
  else
    {| action := unclear; appointmentType := None; preferredDate := None;
       preferredTime := None; confidence := 5;
       missingInfo := ["Could not understand the request"];
       originalMessage := message |}.

(** The test of the [filter] callback of [filterSlotsByTime]. *)
Definition slot_fits (timePreference : string) (slot : Slot) : bool :=
  let hour := getHours (start slot) in
  let p := toLowerCase timePreference in
  if String.eqb p "morning" then between 8 12 hour
  else if String.eqb p "afternoon" then between 12 17 hour
  else if String.eqb p "evening" then between 17 20 hour
  else true.

(** [AppointmentService.filterSlotsByTime]; [!timePreference] holds of
    [undefined] and of the empty string. *)
Definition filterSlotsByTime (slots : list Slot) (timePreference : option string)
    : list Slot :=
  match timePreference with
  | None => slots
  | Some p => if String.eqb p "" then slots else filter (slot_fits p) slots
  end.

End Agent.

(** Lower case of the letters A to Z, and the hour read off an ISO date,
    used as examples. *)
Definition lower_ascii (c : ascii) : ascii :=
  let n := nat_of_ascii c in
  if (Nat.leb 65 n && Nat.leb n 90)%bool then ascii_of_nat (n + 32) else c.

Fixpoint lower (s : string) : string :=
  match s with
  | EmptyString => EmptyString
  | String c rest => String (lower_ascii c) (lower rest)
  end.

Definition example_hours (start : string) : option Z :=
  if String.eqb start "2025-06-02T09:00:00Z" then Some 9
  else if String.eqb start "2025-06-02T14:00:00Z" then Some 14
  else if String.eqb start "2025-06-02T21:00:00Z" then Some 21
  else None.

Definition example_slots : list Slot :=
  [{| slot_id := "slot-1"; start := "2025-06-02T09:00:00Z"; slot_end := "2025-06-02T09:30:00Z" |};
   {| slot_id := "slot-2"; start := "2025-06-02T14:00:00Z"; slot_end := "2025-06-02T14:30:00Z" |};
   {| slot_id := "slot-3"; start := "2025-06-02T21:00:00Z"; slot_end := "2025-06-02T21:30:00Z" |}].

End Agent.

(* ================================================================= *)
(** ** Facts about dates and strings *)

Module JsFacts.

Import JsDate.

(** Adding [k] to the minutes field moves the time value by [k]
    minutes: the other fields are kept and [MakeTime] carries the
    overflow of the minutes into the hours and days. *)
Lemma setUTCMinutes_add (t k : Z) :
  setUTCMinutes t (getUTCMinutes t + k) = t + k * msPerMinute.
Proof.
  unfold setUTCMinutes, getUTCMinutes, MakeDate, MakeTime, Day,
    HourFromTime, MinFromTime, SecFromTime, msFromTime,
    msPerDay, msPerHour, msPerMinute, msPerSecond.
  Z.div_mod_to_equations. lia.
Qed.

Example iso_2025_04_15 : toISOString 1744675200000 = "2025-04-15T00:00:00.000Z".
Proof. reflexivity. Qed.

Example iso_2025_06_01 : toISOString 1748736000000 = "2025-06-01T00:00:00.000Z".
Proof. reflexivity. Qed.

Example iso_leap_day : toISOString 1709251199999 = "2024-02-29T23:59:59.999Z".
Proof. reflexivity. Qed.

Example iso_before_epoch : toISOString (-1) = "1969-12-31T23:59:59.999Z".
Proof. reflexivity. Qed.

Example split_example : split "," "Patient,,Observation," = ["Patient"; ""; "Observation"; ""].
Proof. reflexivity. Qed.

Lemma split_nonempty (sep : ascii) (s : string) : split sep s <> [].
Proof.
  destruct s as [|c s]; simpl; [discriminate|].
  destruct (Ascii.eqb c sep); [discriminate|].
  destruct (split sep s); discriminate.
Qed.

Lemma split_first (sep : ascii) (s : string) :
  exists x, nth_error (split sep s) 0 = Some x.
Proof.
  destruct (split sep s) as [|x l] eqn:E.
  - now apply split_nonempty in E.
  - now exists x.
Qed.

(** Joining the pieces with the separator gives the string back. *)
Lemma join_split (c : ascii) (s : string) :
  join (String c "") (split c s) = s.
Proof.
  unfold join. induction s as [|a s IH]; simpl; [reflexivity|].
  destruct (Ascii.eqb a c) eqn:E.
  - apply Ascii.eqb_eq in E. subst a.
    destruct (split c s) as [|x l] eqn:Es; [now apply split_nonempty in Es|].
    simpl in *. now rewrite IH.
  - destruct (split c s) as [|x l] eqn:Es; [now apply split_nonempty in Es|].
    destruct l as [|y l]; simpl in *; now rewrite <- IH.
Qed.

End JsFacts.

(* ================================================================= *)
(** ** Facts about the reindex submission script *)

Module ReindexFacts.

Import Reindex.

Section Loop.

Variable env : Env.
Variable cfg : Config.
Variable rts : list string.

(** *** One iteration *)

(** With the gate off an iteration notes its window and logs its url. *)
Lemma iteration_dry (sd ed : option Z) (w : World) :
  DO_ADD_JOBS cfg = false ->
  iteration env cfg rts sd ed w =
  (Ok tt, {| stdout := stdout w ++ [LogText (make_url rts sd ed)];
             stderr := stderr w; queueCalls := queueCalls w;
             asyncJobs := asyncJobs w; queueEntries := queueEntries w;
             windows := windows w ++ [(sd, ed)] |}).
Proof.
  intros H. unfold iteration. rewrite H. reflexivity.
Qed.

(** With the gate on and an enqueue that succeeds: one Async Job, left
    [ACCEPTED], and one queue entry. *)
Lemma iteration_enqueued (sd ed : option Z) (w : World) :
  DO_ADD_JOBS cfg = true ->
  enqueue_error env (List.length (asyncJobs w)) = None ->
  iteration env cfg rts sd ed w =
  (Ok tt, {| stdout := stdout w ++ [LogText (make_url rts sd ed)]
                         ++ [LogText ("Added job " +++
                               JsDate.decimal (Z.of_nat (S (List.length (queueEntries w)))))];
             stderr := stderr w; queueCalls := queueCalls w;
             asyncJobs := asyncJobs w ++ [new_job rts sd ed w ACCEPTED None];
             queueEntries := queueEntries w ++ [new_entry cfg rts sd ed w];
             windows := windows w ++ [(sd, ed)] |}).
Proof.
  intros H E. unfold iteration. rewrite H.
  unfold bind, note_window, console_log, submit, bind, exec_init, exec_run,
    catch, bind, addReindexJob. simpl. rewrite E. simpl.
  unfold set_stdout, set_queueEntries, new_job, new_entry. simpl.
  now rewrite <- app_assoc.
Qed.

Lemma find_fresh (l : list AsyncJob) (j : AsyncJob) :
  (forall x, In x l -> (id x < id j)%nat) ->
  find (fun x => Nat.eqb (id x) (id j)) (l ++ [j]) = Some j.
Proof.
  induction l as [|x l IH]; simpl; intros H.
  - now rewrite Nat.eqb_refl.
  - destruct (Nat.eqb (id x) (id j)) eqn:E.
    + apply Nat.eqb_eq in E. specialize (H x (or_introl eq_refl)). lia.
    + apply IH. intros y Hy. apply H. now right.
Qed.

Lemma map_fail_fresh (l : list AsyncJob) (i : nat) (e : JsError) :
  (forall x, In x l -> (id x < i)%nat) ->
  map (fail_job i e) l = l.
Proof.
  induction l as [|x l IH]; simpl; intros H; [reflexivity|].
  rewrite IH by (intros y Hy; apply H; now right).
  unfold fail_job. destruct (Nat.eqb (id x) i) eqn:E; [|reflexivity].
  apply Nat.eqb_eq in E. specialize (H x (or_introl eq_refl)). lia.
Qed.

(** With the gate on and an enqueue that fails: one Async Job, marked
    [FAILED] with the error, no queue entry, and no error passed on. *)
Lemma iteration_compensated (sd ed : option Z) (w : World) (e : JsError) :
  DO_ADD_JOBS cfg = true ->
  store_fresh w ->
  enqueue_error env (List.length (asyncJobs w)) = Some e ->
  iteration env cfg rts sd ed w =
  (Ok tt, {| stdout := stdout w ++ [LogText (make_url rts sd ed)];
             stderr := stderr w; queueCalls := queueCalls w;
             asyncJobs := asyncJobs w ++ [new_job rts sd ed w FAILED (Some e)];
             queueEntries := queueEntries w;
             windows := windows w ++ [(sd, ed)] |}).
Proof.
  intros H F E. unfold iteration. rewrite H.
  unfold bind, note_window, console_log, submit, bind, exec_init, exec_run,
    catch, bind, addReindexJob. simpl. rewrite E.
  unfold markFailed. simpl.
  pose (j := new_job rts sd ed w ACCEPTED None).
  change (List.length (asyncJobs w)) with (id j) at 1.
  fold j. rewrite find_fresh by (intros x Hx; apply F, Hx). simpl.
  unfold set_asyncJobs. simpl. rewrite map_app. simpl.
  rewrite map_fail_fresh by (intros x Hx; apply F, Hx).
  unfold fail_job. simpl. rewrite Nat.eqb_refl. reflexivity.
Qed.

Lemma store_fresh_snoc (w w' : World) (j : AsyncJob) :
  store_fresh w -> asyncJobs w' = asyncJobs w ++ [j] ->
  id j = List.length (asyncJobs w) -> store_fresh w'.
Proof.
  intros F E I x Hx. rewrite E in *. rewrite length_app. simpl.
  apply in_app_or in Hx. destruct Hx as [Hx|[<-|[]]].
  - apply F in Hx. lia.
  - lia.
Qed.

(** An iteration on a world that is as the submission needs it ends
    normally, in such a world, and touches neither the error stream
    nor the queue object. *)
Lemma iteration_ok (sd ed : option Z) (w : World) :
  world_ok cfg w ->
  exists w', iteration env cfg rts sd ed w = (Ok tt, w') /\
             world_ok cfg w' /\
             windows w' = windows w ++ [(sd, ed)] /\
             stderr w' = stderr w /\ queueCalls w' = queueCalls w.
Proof.
  intros F. destruct (DO_ADD_JOBS cfg) eqn:G.
  - specialize (F G).
    destruct (enqueue_error env (List.length (asyncJobs w))) as [e|] eqn:E.
    + eexists. split; [apply iteration_compensated; eassumption|].
      repeat split; simpl; trivial. intros _.
      eapply store_fresh_snoc; [exact F| |]; reflexivity.
    + eexists. split; [apply iteration_enqueued; assumption|].
      repeat split; simpl; trivial. intros _.
      eapply store_fresh_snoc; [exact F| |]; reflexivity.
  - eexists. split; [apply iteration_dry; assumption|].
    repeat split; simpl; trivial.
Qed.


(** The three ways an iteration can go. *)
Lemma iteration_cases (sd ed : option Z) (w : World) :
  world_ok cfg w ->
  exists w', iteration env cfg rts sd ed w = (Ok tt, w') /\
    world_ok cfg w' /\
    windows w' = windows w ++ [(sd, ed)] /\
    stderr w' = stderr w /\ queueCalls w' = queueCalls w /\
    ((DO_ADD_JOBS cfg = false /\
      asyncJobs w' = asyncJobs w /\ queueEntries w' = queueEntries w /\
      stdout w' = stdout w ++ [LogText (make_url rts sd ed)])
     \/
     (DO_ADD_JOBS cfg = true /\
      enqueue_error env (List.length (asyncJobs w)) = None /\
      asyncJobs w' = asyncJobs w ++ [new_job rts sd ed w ACCEPTED None] /\
      queueEntries w' = queueEntries w ++ [new_entry cfg rts sd ed w])
     \/
     (DO_ADD_JOBS cfg = true /\
      exists e, enqueue_error env (List.length (asyncJobs w)) = Some e /\
        asyncJobs w' = asyncJobs w ++ [new_job rts sd ed w FAILED (Some e)] /\
        queueEntries w' = queueEntries w)).
Proof.
  intros F. destruct (DO_ADD_JOBS cfg) eqn:G.
  - pose proof (F G) as F'.
    destruct (enqueue_error env (List.length (asyncJobs w))) as [e|] eqn:E.
    + eexists. split; [apply iteration_compensated; eassumption|].
      repeat split; simpl; trivial.
      * intros _. eapply store_fresh_snoc; [exact F'| |]; reflexivity.
      * right. right. split; [reflexivity|]. exists e. auto.
    + eexists. split; [apply iteration_enqueued; assumption|].
      repeat split; simpl; trivial.
      * intros _. eapply store_fresh_snoc; [exact F'| |]; reflexivity.
      * right. left. auto.
  - eexists. split; [apply iteration_dry; assumption|].
    repeat split; simpl; trivial. left. auto.
Qed.

(** *** The loop *)

Lemma loop_unfold (fuel : nat) (sd ed : option Z) (w : World) :
  loop env cfg (S fuel) rts sd ed w =
  match iteration env cfg rts sd (next_endDate cfg sd ed) w with
  | (Ok _, w') =>
      if loop_condition cfg (next_endDate cfg sd ed)
      then loop env cfg fuel rts (next_endDate cfg sd ed) (next_endDate cfg sd ed) w'
      else (Ok tt, w')
  | (Throw e, w') => (Throw e, w')
  | (OutOfFuel, w') => (OutOfFuel, w')
  end.
Proof.
  simpl. unfold bind at 1.
  destruct (iteration env cfg rts sd (next_endDate cfg sd ed) w) as [[[]|e|] w'];
    try reflexivity.
  destruct (loop_condition cfg (next_endDate cfg sd ed)); reflexivity.
Qed.

(** Invariant rule for the loop: [I] holds of the dates and the world
    at the head of the loop, [Post] of the world whenever the loop is
    left (or out of fuel). *)
Lemma loop_inv (I : option Z -> option Z -> World -> Prop) (Post : World -> Prop) :
  (forall sd ed w, I sd ed w -> Post w) ->
  (forall sd ed w w',
      world_ok cfg w -> I sd ed w ->
      iteration env cfg rts sd (next_endDate cfg sd ed) w = (Ok tt, w') ->
      Post w' /\
      (loop_condition cfg (next_endDate cfg sd ed) = true ->
       I (next_endDate cfg sd ed) (next_endDate cfg sd ed) w')) ->
  forall fuel sd ed w r w',
    world_ok cfg w -> I sd ed w ->
    loop env cfg fuel rts sd ed w = (r, w') ->
    (r = Ok tt \/ r = OutOfFuel) /\ world_ok cfg w' /\ Post w'.
Proof.
  intros Hpost Hstep. induction fuel as [|fuel IH]; intros sd ed w r w' F HI E.
  - inversion E; subst. eauto.
  - rewrite loop_unfold in E.
    destruct (iteration_cases sd (next_endDate cfg sd ed) F)
      as (w1 & E1 & F1 & _).
    rewrite E1 in E.
    destruct (Hstep _ _ _ _ F HI E1) as [P1 I1].
    destruct (loop_condition cfg (next_endDate cfg sd ed)).
    + eapply IH; eauto.
    + inversion E; subst. auto.
Qed.

(** More fuel does not change a run that ended. *)
Lemma loop_fuel_mono (fuel : nat) :
  forall sd ed w w', loop env cfg fuel rts sd ed w = (Ok tt, w') ->
  forall fuel', (fuel <= fuel')%nat -> loop env cfg fuel' rts sd ed w = (Ok tt, w').
Proof.
  induction fuel as [|fuel IH]; intros sd ed w w' E fuel' L.
  - discriminate.
  - destruct fuel' as [|fuel']; [lia|].
    rewrite loop_unfold in *.
    destruct (iteration env cfg rts sd (next_endDate cfg sd ed) w) as [[[]|e|] w1];
      try discriminate.
    destruct (loop_condition cfg (next_endDate cfg sd ed)); [|exact E].
    apply IH with (fuel' := fuel') in E; [exact E|lia].
Qed.

(** *** The windows of a run *)

Lemma next_endDate_some (s : Z) (ed : option Z) :
  next_endDate cfg (Some s) ed = Some (Z.min (s + stepMs cfg) (beforeDate cfg)).
Proof.
  unfold next_endDate, stepMs. now rewrite JsFacts.setUTCMinutes_add.
Qed.

Lemma chain_exists (n : nat) :
  0 < intervalMinutes cfg ->
  forall s, s < beforeDate cfg -> beforeDate cfg - s <= Z.of_nat n ->
            exists ws, chain cfg s ws.
Proof.
  intros Hpos. assert (0 < stepMs cfg) by (unfold stepMs, JsDate.msPerMinute; lia).
  induction n as [|n IH]; intros s Hs Hn; [lia|].
  destruct (Z_lt_le_dec (s + stepMs cfg) (beforeDate cfg)) as [L|L].
  - destruct (IH (s + stepMs cfg)) as [ws C]; [lia|lia|].
    exists ((s, s + stepMs cfg) :: ws). now constructor.
  - exists [(s, beforeDate cfg)]. now constructor.
Qed.

(** The loop goes through the windows of the chain, one per unit of
    fuel, and ends after the last one. *)
Lemma loop_follows_chain (s : Z) (ws : list (Z * Z)) :
  chain cfg s ws ->
  forall ed w, world_ok cfg w ->
  exists w', loop env cfg (List.length ws) rts (Some s) ed w = (Ok tt, w') /\
             world_ok cfg w' /\
             windows w' = windows w ++ map window ws /\
             stderr w' = stderr w /\ queueCalls w' = queueCalls w.
Proof.
  induction 1 as [s L|s ws L C IH]; intros ed w F.
  - destruct (iteration_cases (Some s) (next_endDate cfg (Some s) ed) F)
      as (w1 & E1 & F1 & W1 & S1 & Q1 & _).
    exists w1. change (List.length [(s, beforeDate cfg)]) with 1%nat.
    rewrite loop_unfold, E1. rewrite next_endDate_some in *.
    rewrite Z.min_r in * by lia.
    unfold loop_condition. rewrite Z.ltb_irrefl. auto.
  - destruct (iteration_cases (Some s) (next_endDate cfg (Some s) ed) F)
      as (w1 & E1 & F1 & W1 & S1 & Q1 & _).
    destruct (IH (Some (s + stepMs cfg)) w1 F1) as (w2 & E2 & F2 & W2 & S2 & Q2).
    exists w2. change (List.length ((s, s + stepMs cfg) :: ws)) with (S (List.length ws)).
    rewrite loop_unfold, E1. rewrite next_endDate_some in *.
    rewrite Z.min_l in * by lia.
    unfold loop_condition. replace (s + stepMs cfg <? beforeDate cfg) with true
      by (symmetry; apply Z.ltb_lt; lia).
    rewrite E2. repeat split; trivial; try congruence.
    rewrite W2, W1. simpl. now rewrite <- app_assoc.
Qed.

(** With less fuel than windows the loop is still running. *)
Lemma loop_short (s : Z) (ws : list (Z * Z)) :
  chain cfg s ws ->
  forall fuel ed w, world_ok cfg w -> (fuel < List.length ws)%nat ->
  fst (loop env cfg fuel rts (Some s) ed w) = OutOfFuel.
Proof.
  induction 1 as [s L|s ws L C IH]; intros fuel ed w F Hf; simpl in Hf.
  - assert (fuel = 0%nat) by lia. subst. reflexivity.
  - destruct fuel as [|fuel]; [reflexivity|].
    destruct (iteration_cases (Some s) (next_endDate cfg (Some s) ed) F)
      as (w1 & E1 & F1 & _).
    rewrite loop_unfold, E1. rewrite next_endDate_some in *.
    rewrite Z.min_l in * by lia.
    unfold loop_condition. replace (s + stepMs cfg <? beforeDate cfg) with true
      by (symmetry; apply Z.ltb_lt; lia).
    apply IH; [exact F1|lia].
Qed.


(** *** What a chain of windows is like *)

Lemma chain_head (s : Z) (ws : list (Z * Z)) :
  chain cfg s ws -> exists e rest, ws = (s, e) :: rest.
Proof. destruct 1; eauto. Qed.

Lemma chain_ends (s : Z) (ws : list (Z * Z)) :
  chain cfg s ws ->
  Forall (fun ab => snd ab = Z.min (fst ab + stepMs cfg) (beforeDate cfg)) ws.
Proof.
  induction 1 as [s L|s ws L C IH]; constructor; simpl; trivial; lia.
Qed.

Lemma chain_bounds (s : Z) (ws : list (Z * Z)) :
  0 < stepMs cfg -> chain cfg s ws -> s < beforeDate cfg ->
  Forall (fun ab => s <= fst ab /\ fst ab < snd ab /\ snd ab <= beforeDate cfg) ws.
Proof.
  intros P. induction 1 as [s L|s ws L C IH]; intros B.
  - repeat constructor; simpl; lia.
  - constructor; [simpl; lia|].
    eapply Forall_impl; [|apply IH; lia]. simpl. intros ab. lia.
Qed.

Lemma chain_ascending (s : Z) (ws : list (Z * Z)) :
  0 < stepMs cfg -> chain cfg s ws -> ascending ws.
Proof.
  intros P. unfold ascending. induction 1 as [s L|s ws L C IH]; simpl.
  - repeat constructor.
  - constructor; [exact IH|]. apply Forall_map.
    eapply Forall_impl; [|apply (chain_bounds P C); lia]. simpl. intros ab. lia.
Qed.

Lemma chain_contiguous (s : Z) (ws : list (Z * Z)) :
  chain cfg s ws -> contiguous ws.
Proof.
  unfold contiguous. induction 1 as [s L|s ws L C IH]; intros i a b Ha Hb.
  - destruct i as [|[|i]]; discriminate.
  - destruct i as [|i]; simpl in *.
    + inversion Ha; subst. destruct (chain_head C) as (e & rest & ->).
      inversion Hb; subst. reflexivity.
    + eapply IH; eassumption.
Qed.

Lemma chain_non_overlapping (s : Z) (ws : list (Z * Z)) :
  0 < stepMs cfg -> chain cfg s ws -> non_overlapping ws.
Proof.
  intros P. unfold non_overlapping.
  induction 1 as [s L|s ws L C IH]; intros i j a b Hij Ha Hb.
  - destruct j as [|[|j]]; try discriminate. lia.
  - destruct j as [|j]; [lia|]. simpl in Hb. destruct i as [|i]; simpl in Ha.
    + inversion Ha; subst. simpl.
      pose proof (chain_bounds P C) as Bd.
      rewrite Forall_forall in Bd. apply nth_error_In in Hb.
      apply Bd in Hb; lia.
    + eapply IH; [|eassumption|eassumption]. lia.
Qed.

Lemma chain_covers (s : Z) (ws : list (Z * Z)) :
  0 < stepMs cfg -> chain cfg s ws -> s < beforeDate cfg ->
  covers ws s (beforeDate cfg).
Proof.
  intros P. unfold covers. induction 1 as [s L|s ws L C IH]; intros B t.
  - split.
    + intros Ht. exists (s, beforeDate cfg). simpl. auto.
    + intros (ab & [<-|[]] & Ht). exact Ht.
  - specialize (IH L t). split.
    + intros Ht. destruct (Z_lt_le_dec t (s + stepMs cfg)) as [Lt|Le].
      * exists (s, s + stepMs cfg). simpl. split; [auto|lia].
      * destruct (proj1 IH) as (ab & Hin & Hab); [lia|].
        exists ab. split; [now right|exact Hab].
    + intros (ab & [<-|Hin] & Ht).
      * simpl in Ht. lia.
      * assert (s + stepMs cfg <= t < beforeDate cfg) by (apply IH; eauto). lia.
Qed.

Lemma chain_last_end (s : Z) (ws : list (Z * Z)) (d : Z * Z) :
  chain cfg s ws -> snd (last ws d) = beforeDate cfg.
Proof.
  induction 1 as [s L|s ws L C IH]; [reflexivity|].
  destruct (chain_head C) as (e & rest & ->). exact IH.
Qed.

Lemma chain_early_ends (s : Z) (ws : list (Z * Z)) :
  chain cfg s ws -> Forall (fun ab => snd ab < beforeDate cfg) (removelast ws).
Proof.
  induction 1 as [s L|s ws L C IH]; [constructor|].
  destruct (chain_head C) as (e & rest & ->).
  change (removelast ((s, s + stepMs cfg) :: (s + stepMs cfg, e) :: rest))
    with ((s, s + stepMs cfg) :: removelast ((s + stepMs cfg, e) :: rest)).
  constructor; [exact L|exact IH].
Qed.

(** The run of the loop from a start below the horizon, with a
    positive step: the windows it goes through form a chain, and any
    fuel that covers them gives the same end. *)
Lemma loop_partition (s : Z) (ed : option Z) (w : World) :
  s < beforeDate cfg -> 0 < intervalMinutes cfg -> world_ok cfg w ->
  exists ws w',
    chain cfg s ws /\
    (forall fuel, (List.length ws <= fuel)%nat ->
                  loop env cfg fuel rts (Some s) ed w = (Ok tt, w')) /\
    world_ok cfg w' /\
    windows w' = windows w ++ map window ws /\
    stderr w' = stderr w /\ queueCalls w' = queueCalls w.
Proof.
  intros B P F.
  destruct (@chain_exists (Z.to_nat (beforeDate cfg - s)) P s B) as [ws C]; [lia|].
  destruct (loop_follows_chain C ed F) as (w' & E & F' & W & S' & Q).
  exists ws, w'. repeat split; trivial.
  intros fuel L. eapply loop_fuel_mono; eassumption.
Qed.

End Loop.

Lemma stepMs_pos (cfg : Config) : 0 < intervalMinutes cfg -> 0 < stepMs cfg.
Proof. unfold stepMs, JsDate.msPerMinute. lia. Qed.

(** Within the range of the dates, every date of a chain of windows is
    a valid time value, and so is each start moved by a step. *)
Lemma chain_valid (cfg : Config) (s : Z) (ws : list (Z * Z)) :
  0 < intervalMinutes cfg -> s < beforeDate cfg -> date_range cfg s ->
  chain cfg s ws -> Forall (valid_window cfg) ws.
Proof.
  intros P B (Vs & Vb & _ & M & _) C. pose proof (stepMs_pos cfg P) as P'.
  eapply Forall_impl; [|eapply chain_bounds; eassumption].
  intros [a b]. unfold valid_window, JsDate.valid, JsDate.maxTime in *.
  cbn [fst snd]. lia.
Qed.

(** C1. From a start below the horizon and with a positive step, the
    dates staying within the range of [Date], the loop ends and the
    windows it went through are in ascending order from the start, each
    ending at the smaller of its start plus the step and the horizon;
    they are contiguous, do not overlap, cover exactly the instants from
    the start to the horizon, and the last one ends at the horizon.  All
    their dates are valid time values. *)
Theorem partition_windows (env : Env) (cfg : Config) (rts : list string)
    (s : Z) (ed : option Z) (w : World) :
  s < beforeDate cfg -> 0 < intervalMinutes cfg -> date_range cfg s ->
  world_ok cfg w ->
  exists ws w',
    (forall fuel, (List.length ws <= fuel)%nat ->
                  loop env cfg fuel rts (Some s) ed w = (Ok tt, w')) /\
    windows w' = windows w ++ map window ws /\
    (exists e rest, ws = (s, e) :: rest) /\
    ascending ws /\
    Forall (fun ab => snd ab = Z.min (fst ab + stepMs cfg) (beforeDate cfg)) ws /\
    contiguous ws /\
    non_overlapping ws /\
    Forall (fun ab => fst ab < snd ab) ws /\
    covers ws s (beforeDate cfg) /\
    snd (last ws (s, s)) = beforeDate cfg /\
    Forall (valid_window cfg) ws.
Proof.
  intros B P D F. pose proof (stepMs_pos cfg P) as P'.
  destruct (loop_partition env rts ed B P F) as (ws & w' & C & E & _ & W & _).
  exists ws, w'. split; [exact E|]. split; [exact W|].
  split; [eapply chain_head; eassumption|].
  split; [eapply chain_ascending; eassumption|].
  split; [eapply chain_ends; eassumption|].
  split; [eapply chain_contiguous; eassumption|].
  split; [eapply chain_non_overlapping; eassumption|].
  split.
  { eapply Forall_impl; [|eapply chain_bounds; eassumption]. simpl. tauto. }
  split; [eapply chain_covers; eassumption|].
  split; [eapply chain_last_end; eassumption|].
  eapply chain_valid; eassumption.
Qed.

Lemma chain_length (cfg : Config) (s : Z) (ws : list (Z * Z)) :
  0 < stepMs cfg -> chain cfg s ws -> s < beforeDate cfg ->
  Z.of_nat (List.length ws) = (beforeDate cfg - s - 1) / stepMs cfg + 1.
Proof.
  intros P. induction 1 as [s L|s ws L C IH]; intros B.
  - rewrite Z.div_small by lia. reflexivity.
  - change (List.length ((s, s + stepMs cfg) :: ws)) with (S (List.length ws)).
    rewrite Nat2Z.inj_succ, IH by lia.
    replace (beforeDate cfg - s - 1)
      with (beforeDate cfg - (s + stepMs cfg) - 1 + 1 * stepMs cfg) by lia.
    rewrite Z.div_add by lia. lia.
Qed.

(** C6. From a start below the horizon and with a positive step, the
    dates staying within the range of [Date], the loop ends: after as
    many iterations as there are steps from the start to the horizon
    (counting a last partial one) and no fewer, with one window per
    iteration; only the last window ends at the horizon, and no date on
    the way leaves the range. *)
Theorem loop_terminates (env : Env) (cfg : Config) (rts : list string)
    (s : Z) (ed : option Z) (w : World) :
  s < beforeDate cfg -> 0 < intervalMinutes cfg -> date_range cfg s ->
  world_ok cfg w ->
  exists ws w',
    Z.of_nat (List.length ws) = (beforeDate cfg - s - 1) / stepMs cfg + 1 /\
    (forall fuel, (List.length ws <= fuel)%nat ->
                  loop env cfg fuel rts (Some s) ed w = (Ok tt, w')) /\
    (forall fuel, (fuel < List.length ws)%nat ->
                  fst (loop env cfg fuel rts (Some s) ed w) = OutOfFuel) /\
    windows w' = windows w ++ map window ws /\
    Forall (fun ab => snd ab < beforeDate cfg) (removelast ws) /\
    snd (last ws (s, s)) = beforeDate cfg /\
    Forall (valid_window cfg) ws.
Proof.
  intros B P D F. pose proof (stepMs_pos cfg P) as P'.
  destruct (loop_partition env rts ed B P F) as (ws & w' & C & E & _ & W & _).
  exists ws, w'. split; [apply chain_length; assumption|].
  split; [exact E|].
  split; [intros fuel L; eapply loop_short; eassumption|].
  split; [exact W|].
  split; [eapply chain_early_ends; eassumption|].
  split; [eapply chain_last_end; eassumption|].
  eapply chain_valid; eassumption.
Qed.

(** *** The whole script *)

Lemma prepared_spec (cfg : Config) (w : World) :
  prepare_queue cfg w = (Ok tt, prepared cfg w) /\
  stdout (prepared cfg w) =
    stdout w ++ (if DO_OBLITERATE cfg then [LogText "obliterating queue..."] else []) /\
  stderr (prepared cfg w) = stderr w /\
  queueCalls (prepared cfg w) = queueCalls w ++ prepare_calls cfg /\
  asyncJobs (prepared cfg w) = asyncJobs w /\
  queueEntries (prepared cfg w) = queueEntries w /\
  windows (prepared cfg w) = windows w.
Proof.
  unfold prepared, prepare_queue, prepare_calls.
  destruct (DO_OBLITERATE cfg); simpl; repeat split; trivial;
    rewrite <- ?app_assoc, ?app_nil_r; reflexivity.
Qed.

Lemma reported_spec (e : JsError) (w : World) :
  on_rejected e w = (handled e, reported e w) /\
  stdout (reported e w) = stdout w /\
  stderr (reported e w) = stderr w ++ LogError e :: stringified e /\
  queueCalls (reported e w) = queueCalls w /\
  asyncJobs (reported e w) = asyncJobs w /\
  queueEntries (reported e w) = queueEntries w /\
  windows (reported e w) = windows w.
Proof.
  unfold reported, on_rejected, handled, stringified, bind, console_error, throw.
  destruct (JSON_stringify_error e); simpl; repeat split; trivial;
    now rewrite <- app_assoc.
Qed.

(** An error the script or the engine makes is reported and the
    rejection handled. *)
Lemma handled_js_error (name message : string) :
  handled (js_error name message) = Ok tt.
Proof. reflexivity. Qed.

(** The script, path by path. *)
Lemma run_unfold (env : Env) (cfg : Config) (fuel : nat) (w : World) :
  run env cfg fuel w =
  match argv2 env with
  | None =>
      (Ok tt, reported (js_error "TypeError" "Cannot read properties of undefined (reading 'split')") w)
  | Some a =>
      let w1 := set_stdout w (stdout w ++ [LogArray (split "," a)]) in
      match loadConfig_error env with
      | Some e => (handled e, reported e w1)
      | None =>
          match initAppServices_error env with
          | Some e => (handled e, reported e w1)
          | None =>
              if registry_has_ReindexQueue env then
                match loop env cfg fuel (split "," a) (startDate0 cfg) None (prepared cfg w1) with
                | (Ok _, w3) => (Ok tt, set_stdout w3 (stdout w3 ++ [LogText "Done"]))
                | (Throw e, w3) => (handled e, reported e w3)
                | (OutOfFuel, w3) => (OutOfFuel, w3)
                end
              else
                (Ok tt, reported (js_error "Error" "Could not find queue") w1)
          end
      end
  end.
Proof.
  unfold run, script, main, catch, argv_resourceTypes, loadConfig,
    initAppServices, queueRegistry_get.
  destruct (argv2 env) as [a|].
  2:{ unfold bind, throw. now rewrite (proj1 (reported_spec _ _)). }
  destruct (loadConfig_error env) as [e|].
  { unfold bind, ret, throw, console_log. now rewrite (proj1 (reported_spec _ _)). }
  destruct (initAppServices_error env) as [e|].
  { unfold bind, ret, throw, console_log. now rewrite (proj1 (reported_spec _ _)). }
  destruct (registry_has_ReindexQueue env).
  2:{ unfold bind, ret, throw, console_log. cbv beta iota delta [negb].
      now rewrite (proj1 (reported_spec _ _)). }
  unfold bind, ret. unfold console_log at 1. cbv beta iota delta [negb].
  rewrite (proj1 (prepared_spec cfg _)).
  destruct (loop env cfg fuel (split "," a) (startDate0 cfg) None
              (prepared cfg (set_stdout w (stdout w ++ [LogArray (split "," a)]))))
    as [[[]|e|] w3]; try reflexivity.
  now rewrite (proj1 (reported_spec _ _)).
Qed.

(** With the gate off the loop only notes windows and logs their urls. *)
Lemma loop_dry (env : Env) (cfg : Config) (rts : list string) :
  DO_ADD_JOBS cfg = false ->
  forall fuel sd ed w r w',
    loop env cfg fuel rts sd ed w = (r, w') ->
    asyncJobs w' = asyncJobs w /\ queueEntries w' = queueEntries w /\
    stderr w' = stderr w /\ queueCalls w' = queueCalls w /\
    (r = Ok tt \/ r = OutOfFuel) /\
    exists ws, windows w' = windows w ++ ws /\
               stdout w' = stdout w ++ map (url_line rts) ws.
Proof.
  intros G. induction fuel as [|fuel IH]; intros sd ed w r w' E.
  - inversion E; subst. repeat split; auto. exists []. simpl.
    now rewrite !app_nil_r.
  - rewrite loop_unfold, (@iteration_dry env cfg rts _ _ _ G) in E.
    destruct (loop_condition cfg (next_endDate cfg sd ed)).
    + apply IH in E. simpl in E.
      destruct E as (A & Q & S' & C & R & ws & W & O).
      repeat split; trivial.
      exists ((sd, next_endDate cfg sd ed) :: ws).
      rewrite W, O, <- !app_assoc. auto.
    + inversion E; subst. simpl. repeat split; auto.
      exists [(sd, next_endDate cfg sd ed)]. auto.
Qed.

(** C3, amended. With the gate off a run creates no Async Job and
    enqueues nothing, and when the setup goes through it logs the
    resource types, then one url per window; the calls on the queue
    object of lines 27-34 are made all the same.  A run that did create
    a job or enqueue one had the gate on. *)
Theorem dry_run_submits_nothing (env : Env) (cfg : Config) (fuel : nat)
    (w : World) (r : Res unit) (w' : World) :
  run env cfg fuel w = (r, w') ->
  (DO_ADD_JOBS cfg = false ->
   asyncJobs w' = asyncJobs w /\ queueEntries w' = queueEntries w /\
   (setup_ok env ->
    exists a ws,
      argv2 env = Some a /\
      windows w' = windows w ++ ws /\
      stdout w' = stdout w ++ [LogArray (split "," a)]
                    ++ (if DO_OBLITERATE cfg then [LogText "obliterating queue..."] else [])
                    ++ map (url_line (split "," a)) ws
                    ++ (match r with Ok _ => [LogText "Done"] | _ => [] end) /\
      queueCalls w' = queueCalls w ++ prepare_calls cfg)) /\
  (asyncJobs w' <> asyncJobs w \/ queueEntries w' <> queueEntries w ->
   DO_ADD_JOBS cfg = true).
Proof.
  intros E.
  assert (D : DO_ADD_JOBS cfg = false ->
   asyncJobs w' = asyncJobs w /\ queueEntries w' = queueEntries w /\
   (setup_ok env ->
    exists a ws,
      argv2 env = Some a /\
      windows w' = windows w ++ ws /\
      stdout w' = stdout w ++ [LogArray (split "," a)]
                    ++ (if DO_OBLITERATE cfg then [LogText "obliterating queue..."] else [])
                    ++ map (url_line (split "," a)) ws
                    ++ (match r with Ok _ => [LogText "Done"] | _ => [] end) /\
      queueCalls w' = queueCalls w ++ prepare_calls cfg)).
  { intros G. rewrite run_unfold in E. unfold setup_ok.
    destruct (argv2 env) as [a|].
    2:{ inversion E; subst.
        destruct (reported_spec (js_error "TypeError" "Cannot read properties of undefined (reading 'split')") w)
          as (_ & _ & _ & _ & A & Q & _).
        repeat split; trivial. intros (H & _). now destruct H. }
    cbv zeta in E.
    destruct (loadConfig_error env) as [e|].
    { inversion E; subst. destruct (reported_spec e (set_stdout w (stdout w ++ [LogArray (split "," a)])))
        as (_ & _ & _ & _ & A & Q & _).
      repeat split; trivial. intros (_ & H & _). discriminate. }
    destruct (initAppServices_error env) as [e|].
    { inversion E; subst. destruct (reported_spec e (set_stdout w (stdout w ++ [LogArray (split "," a)])))
        as (_ & _ & _ & _ & A & Q & _).
      repeat split; trivial. intros (_ & _ & H & _). discriminate. }
    destruct (registry_has_ReindexQueue env).
    2:{ inversion E; subst.
        destruct (reported_spec (js_error "Error" "Could not find queue")
                    (set_stdout w (stdout w ++ [LogArray (split "," a)])))
          as (_ & _ & _ & _ & A & Q & _).
        repeat split; trivial. intros (_ & _ & _ & H). discriminate. }
    destruct (prepared_spec cfg (set_stdout w (stdout w ++ [LogArray (split "," a)])))
      as (_ & PO & PS & PC & PA & PQ & PW).
    destruct (loop env cfg fuel (split "," a) (startDate0 cfg) None
                (prepared cfg (set_stdout w (stdout w ++ [LogArray (split "," a)]))))
      as [r3 w3] eqn:L.
    destruct (@loop_dry env cfg (split "," a) G _ _ _ _ _ _ L)
      as (A & Q & S' & C & R & ws & W & O).
    simpl in PO, PC, PA, PQ, PW.
    destruct R as [-> | ->]; inversion E; subst; simpl.
    - split; [congruence|]. split; [congruence|]. intros _.
      exists a, ws. split; [reflexivity|]. split; [congruence|].
      split; [|congruence]. rewrite O, PO, <- !app_assoc. reflexivity.
    - split; [congruence|]. split; [congruence|]. intros _.
      exists a, ws. split; [reflexivity|]. split; [congruence|].
      split; [|congruence]. rewrite O, PO, <- !app_assoc, app_nil_r. reflexivity. }
  split; [exact D|].
  intros H. destruct (DO_ADD_JOBS cfg); [reflexivity|].
  destruct (D eq_refl) as (A & Q & _). destruct H as [H|H]; contradiction.
Qed.

(** C3, as stated, fails: with the submission gate off the queue object
    is still called, [resume] in the source as it is and [clean],
    [drain], [obliterate] when [DO_OBLITERATE] is set. *)
Lemma dry_run_calls_queue :
  DO_ADD_JOBS source_config = false /\
  queueCalls (snd (run (plain_env "Patient") source_config 2 empty_world)) = [resume] /\
  DO_ADD_JOBS obliterate_config = false /\
  queueCalls (snd (run (plain_env "Patient") obliterate_config 2 empty_world))
    = [clean 0 0 "active"; drain true; obliterate] /\
  queueCalls (snd (run (plain_env "Patient") obliterate_config 2 empty_world))
    <> queueCalls empty_world.
Proof.
  repeat split; try reflexivity. vm_compute. discriminate.
Qed.

Lemma dry_run_submits_nothing_witness :
  run (plain_env "Patient") source_config 2 empty_world
    = (Ok tt, snd (run (plain_env "Patient") source_config 2 empty_world)) /\
  DO_ADD_JOBS source_config = false /\
  setup_ok (plain_env "Patient") /\
  asyncJobs (snd (run (plain_env "Patient") source_config 2 empty_world)) = [] /\
  exists a ws,
    argv2 (plain_env "Patient") = Some a /\
    windows (snd (run (plain_env "Patient") source_config 2 empty_world)) = [] ++ ws /\
    stdout (snd (run (plain_env "Patient") source_config 2 empty_world))
      = [] ++ [LogArray (split "," a)] ++ [] ++ map (url_line (split "," a)) ws
           ++ [LogText "Done"] /\
    queueCalls (snd (run (plain_env "Patient") source_config 2 empty_world))
      = [] ++ prepare_calls source_config.
Proof.
  assert (E : run (plain_env "Patient") source_config 2 empty_world
    = (Ok tt, snd (run (plain_env "Patient") source_config 2 empty_world)))
    by (vm_compute; reflexivity).
  assert (G : DO_ADD_JOBS source_config = false) by reflexivity.
  assert (S : setup_ok (plain_env "Patient"))
    by (unfold setup_ok; simpl; repeat split; discriminate).
  split; [exact E|]. split; [exact G|]. split; [exact S|].
  destruct (dry_run_submits_nothing _ _ _ _ E) as [D _].
  destruct (D G) as (A & _ & O).
  split; [exact A|]. exact (O S).
Defined.

(** *** Setup errors *)

(** What the handler of [catch] leaves, by what [JSON.stringify] does on
    the error. *)
Lemma report_cases (e : JsError) (w : World) :
  match JSON_stringify_error e with
  | JsonText s =>
      handled e = Ok tt /\
      stderr (reported e w) = stderr w ++ [LogError e; LogText s]
  | JsonUndefined =>
      handled e = Ok tt /\
      stderr (reported e w) = stderr w ++ [LogError e; LogUndefined]
  | JsonThrows name message =>
      handled e = Throw (js_error name message) /\
      stderr (reported e w) = stderr w ++ [LogError e]
  end.
Proof.
  destruct (reported_spec e w) as (_ & _ & S & _).
  unfold handled, stringified in *.
  destruct (JSON_stringify_error e); auto.
Qed.

(** The run when the setup does not go through. *)
Lemma run_setup_error (env : Env) (cfg : Config) (fuel : nat) (w : World) (e : JsError) :
  setup_error env = Some e ->
  run env cfg fuel w =
  (handled e,
   reported e (set_stdout w (stdout w ++ match argv2 env with
                                         | Some a => [LogArray (split "," a)]
                                         | None => []
                                         end))).
Proof.
  unfold setup_error. rewrite run_unfold.
  destruct (argv2 env) as [a|].
  - cbv zeta. destruct (loadConfig_error env) as [e1|]; [now intros [= ->]|].
    destruct (initAppServices_error env) as [e1|]; [now intros [= ->]|].
    destruct (registry_has_ReindexQueue env); [discriminate|now intros [= <-]].
  - intros [= <-]. rewrite handled_js_error. unfold set_stdout.
    rewrite app_nil_r. now destruct w.
Qed.

Lemma setup_error_spec (env : Env) :
  (setup_ok env <-> setup_error env = None) /\
  (argv2 env <> None -> loadConfig_error env = None ->
   initAppServices_error env = None -> registry_has_ReindexQueue env = false ->
   setup_error env = Some (js_error "Error" "Could not find queue")).
Proof.
  unfold setup_ok, setup_error. split.
  - destruct (argv2 env) as [a|].
    + destruct (loadConfig_error env) as [e1|];
        [split; [intros (_ & H & _)|]; discriminate|].
      destruct (initAppServices_error env) as [e1|];
        [split; [intros (_ & _ & H & _)|]; discriminate|].
      destruct (registry_has_ReindexQueue env);
        [split; [reflexivity|repeat split; discriminate]|].
      split; [intros (_ & _ & _ & H)|]; discriminate.
    + split; [intros (H & _); now destruct H|discriminate].
  - intros A -> -> ->. destruct (argv2 env); [reflexivity|now destruct A].
Qed.

(** C5, amended. When the setup does not go through (no argument, the
    configuration or the services fail to load, or no [ReindexQueue] in
    the registry, then with the error [Could not find queue]) the run
    makes no call on the queue object, creates no job, enqueues nothing
    and goes through no window; the error is written to the error stream
    and [Done] is not logged.  The handler of the promise chain takes the
    rejection: when [JSON.stringify] gives a text (or [undefined]) for the
    error, as it does for the queue that is not found, the error stream
    gets that second line, the run ends normally and the exit status is
    0.  Only when [JSON.stringify] throws on the error does the handler
    itself fail, after its first line, and the exit status is 1. *)
Theorem setup_error_reported (env : Env) (cfg : Config) (fuel : nat) (w : World) :
  ~ setup_ok env ->
  exists e w',
    setup_error env = Some e /\
    snd (run env cfg fuel w) = w' /\
    stdout w' = stdout w ++ match argv2 env with
                            | Some a => [LogArray (split "," a)]
                            | None => []
                            end /\
    queueCalls w' = queueCalls w /\
    asyncJobs w' = asyncJobs w /\
    queueEntries w' = queueEntries w /\
    windows w' = windows w /\
    match JSON_stringify_error e with
    | JsonText s =>
        fst (run env cfg fuel w) = Ok tt /\
        exit_status (fst (run env cfg fuel w)) = Some 0 /\
        stderr w' = stderr w ++ [LogError e; LogText s]
    | JsonUndefined =>
        fst (run env cfg fuel w) = Ok tt /\
        exit_status (fst (run env cfg fuel w)) = Some 0 /\
        stderr w' = stderr w ++ [LogError e; LogUndefined]
    | JsonThrows name message =>
        fst (run env cfg fuel w) = Throw (js_error name message) /\
        exit_status (fst (run env cfg fuel w)) = Some 1 /\
        stderr w' = stderr w ++ [LogError e]
    end /\
    (argv2 env <> None -> loadConfig_error env = None ->
     initAppServices_error env = None ->
     e = js_error "Error" "Could not find queue" /\
     exit_status (fst (run env cfg fuel w)) = Some 0).
Proof.
  intros N.
  destruct (setup_error_spec env) as [Ok_iff Queue].
  destruct (setup_error env) as [e|] eqn:Se; [|now destruct N; apply Ok_iff].
  rewrite (run_setup_error env cfg fuel w Se). cbn [fst snd].
  set (w1 := set_stdout w _).
  destruct (reported_spec e w1) as (_ & O & _ & C & A & Q & W).
  pose proof (report_cases e w1) as R.
  exists e, (reported e w1). split; [reflexivity|]. split; [reflexivity|].
  split; [exact O|]. split; [exact C|]. split; [exact A|].
  split; [exact Q|]. split; [exact W|]. split.
  - destruct (JSON_stringify_error e); destruct R as [-> S]; auto.
  - intros Ha Hl Hi.
    assert (Hq : registry_has_ReindexQueue env = false).
    { destruct (registry_has_ReindexQueue env) eqn:Hq; [|reflexivity].
      destruct N. repeat split; assumption. }
    pose proof (Queue Ha Hl Hi Hq) as X. injection X as ->. auto.
Qed.

Lemma setup_error_reported_witness :
  ~ setup_ok no_queue_env /\
  exists e w',
    setup_error no_queue_env = Some e /\
    snd (run no_queue_env submit_config 5 empty_world) = w' /\
    stdout w' = [] ++ [LogArray (split "," "Patient")] /\
    queueCalls w' = [] /\
    asyncJobs w' = [] /\
    queueEntries w' = [] /\
    windows w' = [] /\
    match JSON_stringify_error e with
    | JsonText s =>
        fst (run no_queue_env submit_config 5 empty_world) = Ok tt /\
        exit_status (fst (run no_queue_env submit_config 5 empty_world)) = Some 0 /\
        stderr w' = [] ++ [LogError e; LogText s]
    | JsonUndefined =>
        fst (run no_queue_env submit_config 5 empty_world) = Ok tt /\
        exit_status (fst (run no_queue_env submit_config 5 empty_world)) = Some 0 /\
        stderr w' = [] ++ [LogError e; LogUndefined]
    | JsonThrows name message =>
        fst (run no_queue_env submit_config 5 empty_world) = Throw (js_error name message) /\
        exit_status (fst (run no_queue_env submit_config 5 empty_world)) = Some 1 /\
        stderr w' = [] ++ [LogError e]
    end /\
    (argv2 no_queue_env <> None -> loadConfig_error no_queue_env = None ->
     initAppServices_error no_queue_env = None ->
     e = js_error "Error" "Could not find queue" /\
     exit_status (fst (run no_queue_env submit_config 5 empty_world)) = Some 0).
Proof.
  assert (N : ~ setup_ok no_queue_env)
    by (unfold setup_ok; simpl; intros (_ & _ & _ & H); discriminate).
  split; [exact N|].
  exact (setup_error_reported submit_config 5 empty_world N).
Defined.

(** C5, as stated, fails: with no [ReindexQueue] in the registry the
    error is caught by the promise chain and the exit status is 0. *)
Lemma queue_not_found_exit_zero :
  registry_has_ReindexQueue no_queue_env = false /\
  stderr (snd (run no_queue_env source_config 5 empty_world))
    = [LogError (js_error "Error" "Could not find queue");
       LogText "{}"] /\
  exit_status (fst (run no_queue_env source_config 5 empty_world)) = Some 0.
Proof. repeat split. Qed.

(** An error of [loadConfig] that refers to itself: the handler writes
    the error, [JSON.stringify] throws, and the rejection of the handler
    is left unhandled. *)
Example circular_error_exit_one :
  stderr (snd (run circular_env source_config 5 empty_world))
    = [LogError {| err_name := "Error"; err_message := "config";
                   err_json := JsonThrows "TypeError" "Converting circular structure to JSON" |}] /\
  fst (run circular_env source_config 5 empty_world)
    = Throw (js_error "TypeError" "Converting circular structure to JSON") /\
  exit_status (fst (run circular_env source_config 5 empty_world)) = Some 1.
Proof. repeat split. Qed.

(** *** A step of zero *)

(** From a start below the horizon a step of zero never brings the loop
    to the horizon: whatever the fuel, it is still running, an iteration
    per unit of fuel on the same empty window, and nothing was thrown. *)
Lemma loop_zero_step (env : Env) (cfg : Config) (rts : list string) :
  intervalMinutes cfg = 0 ->
  forall fuel s ed w,
    s < beforeDate cfg -> world_ok cfg w ->
    exists w',
      loop env cfg fuel rts (Some s) ed w = (OutOfFuel, w') /\
      stderr w' = stderr w /\ queueCalls w' = queueCalls w /\
      windows w' = windows w ++ repeat (Some s, Some s) fuel /\
      (DO_ADD_JOBS cfg = true ->
       List.length (asyncJobs w') = (List.length (asyncJobs w) + fuel)%nat).
Proof.
  intros P. assert (P' : stepMs cfg = 0) by (unfold stepMs; now rewrite P).
  induction fuel as [|fuel IH]; intros s ed w B F.
  - exists w. simpl. rewrite app_nil_r. repeat split; auto.
  - destruct (@iteration_cases env cfg rts (Some s) (next_endDate cfg (Some s) ed) w F)
      as (w1 & E1 & F1 & W1 & S1 & Q1 & J1).
    rewrite loop_unfold, E1. rewrite next_endDate_some in *.
    rewrite P', Z.add_0_r, Z.min_l in * by lia.
    unfold loop_condition. replace (s <? beforeDate cfg) with true
      by (symmetry; apply Z.ltb_lt; lia).
    destruct (IH s (Some s) w1 B F1) as (w2 & E2 & S2 & Q2 & W2 & J2).
    exists w2. split; [exact E2|]. split; [congruence|]. split; [congruence|].
    split.
    + rewrite W2, W1, <- app_assoc. reflexivity.
    + intros G. rewrite (J2 G).
      destruct J1 as [(G' & _)|[(_ & _ & A & _)|(_ & e & _ & A & _)]];
        [congruence| |]; rewrite A, length_app; simpl; lia.
Qed.

(** C4, amended. The script validates no step: the one it has is the
    constant 43200.  With that constant set to zero the step is not
    rejected: when the setup goes through and the start is below the
    horizon, the calls on the queue object are made, nothing is reported
    on the error stream, and the loop does not end, each iteration going
    through the same empty window, from the start to the start, and, with
    the gate on, creating an Async Job. *)
Theorem zero_step_not_rejected (env : Env) (cfg : Config) (fuel : nat)
    (w : World) (s : Z) :
  setup_ok env -> startDate0 cfg = Some s -> s < beforeDate cfg ->
  intervalMinutes cfg = 0 -> date_range cfg s -> world_ok cfg w ->
  intervalMinutes source_config = 43200 /\
  exists w',
    run env cfg fuel w = (OutOfFuel, w') /\
    stderr w' = stderr w /\
    queueCalls w' = queueCalls w ++ prepare_calls cfg /\
    windows w' = windows w ++ repeat (Some s, Some s) fuel /\
    (DO_ADD_JOBS cfg = true ->
     List.length (asyncJobs w') = (List.length (asyncJobs w) + fuel)%nat).
Proof.
  intros (A & LC & IA & RQ) S0 B P _ F. split; [reflexivity|].
  rewrite run_unfold.
  destruct (argv2 env) as [a|]; [|now destruct A].
  cbv zeta. rewrite LC, IA, RQ, S0.
  destruct (prepared_spec cfg (set_stdout w (stdout w ++ [LogArray (split "," a)])))
    as (_ & PO & PS & PC & PA & PQ & PW).
  simpl in PO, PS, PC, PA, PQ, PW.
  destruct (@loop_zero_step env cfg (split "," a) P fuel s None
              (prepared cfg (set_stdout w (stdout w ++ [LogArray (split "," a)]))) B)
    as (w' & E & S' & Q & W & J).
  { intros G x Hx. rewrite PA in *. exact (F G x Hx). }
  rewrite E. exists w'. split; [reflexivity|].
  split; [congruence|]. split; [congruence|]. split; [congruence|].
  intros G. rewrite (J G). congruence.
Qed.

Lemma zero_step_not_rejected_witness :
  setup_ok (plain_env "Patient") /\
  startDate0 zero_step_config = Some 1744675200000 /\
  1744675200000 < beforeDate zero_step_config /\
  intervalMinutes zero_step_config = 0 /\
  date_range zero_step_config 1744675200000 /\
  world_ok zero_step_config empty_world /\
  intervalMinutes source_config = 43200 /\
  exists w',
    run (plain_env "Patient") zero_step_config 7 empty_world = (OutOfFuel, w') /\
    stderr w' = stderr empty_world /\
    queueCalls w' = queueCalls empty_world ++ prepare_calls zero_step_config /\
    windows w' = windows empty_world
                   ++ repeat (Some 1744675200000, Some 1744675200000) 7 /\
    (DO_ADD_JOBS zero_step_config = true ->
     List.length (asyncJobs w') = (List.length (asyncJobs empty_world) + 7)%nat).
Proof.
  assert (S : setup_ok (plain_env "Patient"))
    by (unfold setup_ok; simpl; repeat split; discriminate).
  assert (F : world_ok zero_step_config empty_world) by (intros _ j []).
  assert (B : 1744675200000 < beforeDate zero_step_config) by reflexivity.
  assert (P : intervalMinutes zero_step_config = 0) by reflexivity.
  assert (D : date_range zero_step_config 1744675200000)
    by (repeat split; vm_compute; discriminate).
  split; [exact S|]. split; [reflexivity|]. split; [exact B|].
  split; [exact P|]. split; [exact D|]. split; [exact F|].
  exact (@zero_step_not_rejected (plain_env "Patient") zero_step_config 7
           empty_world 1744675200000 S eq_refl B P D F).
Defined.

(** C4, as stated, fails: with a step of zero minutes nothing is
    rejected; after three iterations the run is still going, the queue
    was resumed, three Async Jobs were created and three entries
    enqueued, and the error stream is empty. *)
Lemma zero_step_accepted :
  intervalMinutes zero_step_config = 0 /\
  fst (run (plain_env "Patient") zero_step_config 3 empty_world) = OutOfFuel /\
  stderr (snd (run (plain_env "Patient") zero_step_config 3 empty_world)) = [] /\
  queueCalls (snd (run (plain_env "Patient") zero_step_config 3 empty_world)) = [resume] /\
  List.length (asyncJobs (snd (run (plain_env "Patient") zero_step_config 3 empty_world))) = 3%nat /\
  List.length (queueEntries (snd (run (plain_env "Patient") zero_step_config 3 empty_world))) = 3%nat.
Proof. repeat split. Qed.

(** *** The constants of the source *)

Lemma partition_windows_witness :
  1744675200000 < beforeDate source_config /\
  0 < intervalMinutes source_config /\
  date_range source_config 1744675200000 /\
  world_ok source_config empty_world /\
  exists ws w',
    (forall fuel, (List.length ws <= fuel)%nat ->
                  loop (plain_env "Patient") source_config fuel ["Patient"]
                    (Some 1744675200000) None empty_world = (Ok tt, w')) /\
    windows w' = windows empty_world ++ map window ws /\
    (exists e rest, ws = (1744675200000, e) :: rest) /\
    ascending ws /\
    Forall (fun ab => snd ab = Z.min (fst ab + stepMs source_config)
                                     (beforeDate source_config)) ws /\
    contiguous ws /\
    non_overlapping ws /\
    Forall (fun ab => fst ab < snd ab) ws /\
    covers ws 1744675200000 (beforeDate source_config) /\
    snd (last ws (1744675200000, 1744675200000)) = beforeDate source_config /\
    Forall (valid_window source_config) ws.
Proof.
  assert (B : 1744675200000 < beforeDate source_config) by reflexivity.
  assert (P : 0 < intervalMinutes source_config) by reflexivity.
  assert (D : date_range source_config 1744675200000)
    by (repeat split; vm_compute; discriminate).
  assert (F : world_ok source_config empty_world) by (intros _ j []).
  split; [exact B|]. split; [exact P|]. split; [exact D|]. split; [exact F|].
  exact (@partition_windows (plain_env "Patient") source_config ["Patient"]
           1744675200000 None empty_world B P D F).
Defined.

Lemma loop_terminates_witness :
  1744675200000 < beforeDate source_config /\
  0 < intervalMinutes source_config /\
  date_range source_config 1744675200000 /\
  world_ok source_config empty_world /\
  exists ws w',
    Z.of_nat (List.length ws)
      = (beforeDate source_config - 1744675200000 - 1) / stepMs source_config + 1 /\
    (forall fuel, (List.length ws <= fuel)%nat ->
                  loop (plain_env "Patient") source_config fuel ["Patient"]
                    (Some 1744675200000) None empty_world = (Ok tt, w')) /\
    (forall fuel, (fuel < List.length ws)%nat ->
                  fst (loop (plain_env "Patient") source_config fuel ["Patient"]
                         (Some 1744675200000) None empty_world) = OutOfFuel) /\
    windows w' = windows empty_world ++ map window ws /\
    Forall (fun ab => snd ab < beforeDate source_config) (removelast ws) /\
    snd (last ws (1744675200000, 1744675200000)) = beforeDate source_config /\
    Forall (valid_window source_config) ws.
Proof.
  assert (B : 1744675200000 < beforeDate source_config) by reflexivity.
  assert (P : 0 < intervalMinutes source_config) by reflexivity.
  assert (D : date_range source_config 1744675200000)
    by (repeat split; vm_compute; discriminate).
  assert (F : world_ok source_config empty_world) by (intros _ j []).
  split; [exact B|]. split; [exact P|]. split; [exact D|]. split; [exact F|].
  exact (@loop_terminates (plain_env "Patient") source_config ["Patient"]
           1744675200000 None empty_world B P D F).
Defined.

(** The run of the source as it is, on the example of the
    specification: two windows, 04-15 to 05-15 and 05-15 to 06-01. *)
Example source_run :
  run (plain_env "Patient") source_config 2 empty_world =
  (Ok tt,
   {| stdout :=
        [LogArray ["Patient"];
         LogText "Patient?_lastUpdated=ge2025-04-15T00:00:00.000Z&_lastUpdated=lt2025-05-15T00:00:00.000Z";
         LogText "Patient?_lastUpdated=ge2025-05-15T00:00:00.000Z&_lastUpdated=lt2025-06-01T00:00:00.000Z";
         LogText "Done"];
      stderr := [];
      queueCalls := [resume];
      asyncJobs := [];
      queueEntries := [];
      windows := [(Some 1744675200000, Some 1747267200000);
                  (Some 1747267200000, Some 1748736000000)] |}).
Proof. reflexivity. Qed.

(** *** The filters of the jobs *)

(** What an iteration that ended normally did. *)
Lemma iteration_result (env : Env) (cfg : Config) (rts : list string)
    (sd ed : option Z) (w w' : World) :
  world_ok cfg w ->
  iteration env cfg rts sd ed w = (Ok tt, w') ->
  windows w' = windows w ++ [(sd, ed)] /\
  stderr w' = stderr w /\ queueCalls w' = queueCalls w /\
  ((DO_ADD_JOBS cfg = false /\
    asyncJobs w' = asyncJobs w /\ queueEntries w' = queueEntries w)
   \/
   (DO_ADD_JOBS cfg = true /\
    enqueue_error env (List.length (asyncJobs w)) = None /\
    asyncJobs w' = asyncJobs w ++ [new_job rts sd ed w ACCEPTED None] /\
    queueEntries w' = queueEntries w ++ [new_entry cfg rts sd ed w])
   \/
   (DO_ADD_JOBS cfg = true /\
    exists e, enqueue_error env (List.length (asyncJobs w)) = Some e /\
      asyncJobs w' = asyncJobs w ++ [new_job rts sd ed w FAILED (Some e)] /\
      queueEntries w' = queueEntries w)).
Proof.
  intros F E.
  destruct (@iteration_cases env cfg rts sd ed w F) as (w1 & E1 & _ & W & S & Q & J).
  rewrite E in E1. inversion E1; subst w1.
  repeat split; trivial.
  destruct J as [(G & A & B & _)|[J|J]]; auto.
Qed.

Lemma Forall2_impl_in (A B : Type) (R1 R2 : A -> B -> Prop)
    (l1 : list A) (l2 : list B) :
  (forall a b, In b l2 -> R1 a b -> R2 a b) ->
  Forall2 R1 l1 l2 -> Forall2 R2 l1 l2.
Proof.
  intros H F. induction F as [|a b l1 l2 Hab F IH]; constructor.
  - apply H; [now left|exact Hab].
  - apply IH. intros a' b' Hb. apply H. now right.
Qed.

(** The windows of a run with the gate on, each with its Async Job and
    the entries that refer to it; [lo] and [hi] bound the starts. *)
Lemma loop_jobs_of_windows (env : Env) (cfg : Config) (rts : list string)
    (fuel : nat) (w : World) (r : Res unit) (w' : World) :
  DO_ADD_JOBS cfg = true -> store_fresh w ->
  (forall s, startDate0 cfg = Some s -> date_range cfg s) ->
  loop env cfg fuel rts (startDate0 cfg) None w = (r, w') ->
  exists ws js es,
    windows w' = windows w ++ ws /\
    asyncJobs w' = asyncJobs w ++ js /\
    queueEntries w' = queueEntries w ++ es /\
    Forall2 (job_of_window rts es) ws js /\
    (forall e, In e es -> exists j, In j js /\ job_asyncJob e = id j) /\
    (forall sd ed, In (sd, ed) ws -> window_shape cfg rts sd ed) /\
    (forall a b, In (Some a, Some b) ws -> valid_window cfg (a, b)).
Proof.
  intros G F D E.
  pose (Post := fun w1 : World =>
    exists ws js es,
      windows w1 = windows w ++ ws /\
      asyncJobs w1 = asyncJobs w ++ js /\
      queueEntries w1 = queueEntries w ++ es /\
      Forall2 (job_of_window rts es) ws js /\
      (forall j, In j js -> (id j < List.length (asyncJobs w1))%nat) /\
      (forall e, In e es -> exists j, In j js /\ job_asyncJob e = id j) /\
      (forall sd ed, In (sd, ed) ws -> window_shape cfg rts sd ed) /\
      (forall a b, In (Some a, Some b) ws -> valid_window cfg (a, b))).
  pose (I := fun (sd ed : option Z) (w1 : World) =>
    match startDate0 cfg with
    | Some s0 => exists a, sd = Some a /\
                           Z.min s0 (beforeDate cfg) <= a <= Z.max s0 (beforeDate cfg)
    | None => sd = None /\ ed = None
    end /\ Post w1).
  assert (R : (r = Ok tt \/ r = OutOfFuel) /\ world_ok cfg w' /\ Post w').
  { apply (@loop_inv env cfg rts I Post) with (fuel := fuel) (sd := startDate0 cfg)
      (ed := @None Z) (w := w); trivial.
    - intros sd ed w1 [_ P]. exact P.
    - intros sd ed w1 w2 F1
        [Sh (ws & js & es & W & A & Q & F2 & Ids & Refs & Hws & Hv)] E1.
      apply iteration_result in E1; [|exact F1].
      destruct E1 as (W1 & _ & _ & J).
      set (ed' := next_endDate cfg sd ed) in *.
      assert (Shape : window_shape cfg rts sd ed' /\
                      (forall a b, sd = Some a -> ed' = Some b -> valid_window cfg (a, b)) /\
                      match startDate0 cfg with
                      | Some s0 => exists b, ed' = Some b /\
                          Z.min s0 (beforeDate cfg) <= b <= Z.max s0 (beforeDate cfg)
                      | None => ed' = None
                      end).
      { unfold window_shape, ed'. destruct (startDate0 cfg) as [s0|] eqn:S0.
        - destruct Sh as (a & -> & La). rewrite next_endDate_some.
          destruct (D s0 eq_refl) as (Vs & Vb & Pi & M & _).
          assert (P' : 0 <= stepMs cfg) by (unfold stepMs, JsDate.msPerMinute; lia).
          split; [eexists; eexists; repeat split|].
          split.
          + intros a' b' [= <-] [= <-].
            unfold valid_window, JsDate.valid, JsDate.maxTime in *. cbn [fst snd]. lia.
          + eexists. split; [reflexivity|lia].
        - destruct Sh as [-> ->]. simpl. repeat split; discriminate. }
      destruct Shape as (Shape & Valid & Next).
      assert (Hws' : forall sd' ed'', In (sd', ed'') (ws ++ [(sd, ed')]) ->
                                     window_shape cfg rts sd' ed'').
      { intros sd' ed'' Hin. apply in_app_or in Hin.
        destruct Hin as [Hin|[Heq|[]]]; [now apply Hws|].
        inversion Heq; subst. exact Shape. }
      assert (Hv' : forall a b, In (Some a, Some b) (ws ++ [(sd, ed')]) ->
                                valid_window cfg (a, b)).
      { intros a b Hin. apply in_app_or in Hin.
        destruct Hin as [Hin|[Heq|[]]]; [now apply Hv|].
        inversion Heq; subst. now apply Valid. }
      assert (Bound : forall e, In e es ->
                (job_asyncJob e < List.length (asyncJobs w1))%nat).
      { intros e He. destruct (Refs e He) as (j & Hj & ->). now apply Ids. }
      assert (P2 : Post w2).
      { destruct J as [(G' & _)|[(_ & En & A1 & Q1)|(_ & e1 & En & A1 & Q1)]];
          [congruence| |].
        - set (nj := new_job rts sd ed' w1 ACCEPTED None) in *.
          set (ne := new_entry cfg rts sd ed' w1) in *.
          exists (ws ++ [(sd, ed')]), (js ++ [nj]), (es ++ [ne]).
          split; [rewrite W1, W, <- app_assoc; reflexivity|].
          split; [rewrite A1, A, <- app_assoc; reflexivity|].
          split; [rewrite Q1, Q, <- app_assoc; reflexivity|].
          split.
          { apply Forall2_app.
            - eapply Forall2_impl_in; [|exact F2].
              intros win j Hj [Rq He]. split; [exact Rq|].
              intros e Hin Hid. apply in_app_or in Hin.
              destruct Hin as [Hin|[<-|[]]]; [now apply He|].
              apply Ids in Hj. simpl in Hid. lia.
            - constructor; [|constructor]. split; [reflexivity|].
              intros e Hin Hid. apply in_app_or in Hin.
              destruct Hin as [Hin|[<-|[]]]; [|reflexivity].
              apply Bound in Hin. simpl in Hid. lia. }
          split.
          { intros j Hj. rewrite A1, length_app. simpl.
            apply in_app_or in Hj. destruct Hj as [Hj|[<-|[]]].
            - apply Ids in Hj. lia.
            - simpl. lia. }
          split; [|split; [exact Hws'|exact Hv']].
          intros e Hin. apply in_app_or in Hin. destruct Hin as [Hin|[<-|[]]].
          + destruct (Refs e Hin) as (j & Hj & Hid).
            exists j. split; [apply in_or_app; now left|exact Hid].
          + exists nj. split; [apply in_or_app; right; now left|reflexivity].
        - set (nj := new_job rts sd ed' w1 FAILED (Some e1)) in *.
          exists (ws ++ [(sd, ed')]), (js ++ [nj]), es.
          split; [rewrite W1, W, <- app_assoc; reflexivity|].
          split; [rewrite A1, A, <- app_assoc; reflexivity|].
          split; [rewrite Q1, Q; reflexivity|].
          split.
          { apply Forall2_app; [exact F2|].
            constructor; [|constructor]. split; [reflexivity|].
            intros e Hin Hid. apply Bound in Hin. simpl in Hid. lia. }
          split.
          { intros j Hj. rewrite A1, length_app. simpl.
            apply in_app_or in Hj. destruct Hj as [Hj|[<-|[]]].
            - apply Ids in Hj. lia.
            - simpl. lia. }
          split; [|split; [exact Hws'|exact Hv']].
          intros e Hin. destruct (Refs e Hin) as (j & Hj & Hid).
          exists j. split; [apply in_or_app; now left|exact Hid]. }
      split; [exact P2|]. intros C. split; [|exact P2].
      destruct (startDate0 cfg) as [s0|]; [exact Next|].
      unfold ed' in *. rewrite Next in C. discriminate.
    - intros _. exact F.
    - split.
      + destruct (startDate0 cfg) as [s0|]; [|auto].
        exists s0. split; [reflexivity|lia].
      + exists [], [], []. rewrite !app_nil_r.
        split; [reflexivity|]. split; [reflexivity|]. split; [reflexivity|].
        split; [constructor|]. split; [intros ? []|]. split; [intros ? []|].
        split; intros ? ? []. }
  destruct R as (_ & _ & ws & js & es & W & A & Q & F2 & _ & Refs & Hws & Hv).
  exists ws, js, es. auto 10.
Qed.

(** C7, amended. In a run with the gate on, the Async Jobs created are
    one per window, in order; the request of each is the url of its
    window, and every queue entry refers to one of them and carries the
    search request built from the window of that one.  When the script
    has a start date, the dates staying within the range of [Date],
    every window has a start and an end, the end being the smaller of
    the start plus the step and the horizon, and its filters are
    [_lastUpdated ge start] and [_lastUpdated lt end]: the upper bound is
    never left out.  When it has none, the run has one window, with
    neither start nor end, one Async Job, for the url with an empty
    query, and at most one queue entry, with no filter at all, whatever
    the horizon. *)
Theorem window_filters (env : Env) (cfg : Config) (rts : list string)
    (fuel : nat) (w : World) (r : Res unit) (w' : World) :
  DO_ADD_JOBS cfg = true -> store_fresh w ->
  (forall s, startDate0 cfg = Some s -> date_range cfg s) ->
  loop env cfg fuel rts (startDate0 cfg) None w = (r, w') ->
  exists ws js es,
    windows w' = windows w ++ ws /\
    asyncJobs w' = asyncJobs w ++ js /\
    queueEntries w' = queueEntries w ++ es /\
    Forall2 (job_of_window rts es) ws js /\
    (forall e, In e es -> exists j, In j js /\ job_asyncJob e = id j) /\
    (forall sd ed, In (sd, ed) ws -> window_shape cfg rts sd ed) /\
    (forall a b, In (Some a, Some b) ws -> valid_window cfg (a, b)) /\
    (startDate0 cfg = None -> (1 <= fuel)%nat ->
     r = Ok tt /\ ws = [(None, None)] /\
     (exists j, js = [j] /\ request j = join "," rts +++ "?") /\
     (List.length es <= 1)%nat /\
     (enqueue_error env (List.length (asyncJobs w)) = None -> List.length es = 1%nat) /\
     forall e, In e es -> filters (job_searchRequest e) = []).
Proof.
  intros G F D E.
  destruct (@loop_jobs_of_windows env cfg rts fuel w r w' G F D E)
    as (ws & js & es & W & A & Q & F2 & Refs & Hws & Hv).
  exists ws, js, es. do 7 (split; [assumption|]).
  intros S0 Lf. rewrite S0 in E.
  destruct fuel as [|fuel]; [lia|].
  rewrite loop_unfold in E. simpl next_endDate in E.
  assert (Fok : world_ok cfg w) by (intros _; exact F).
  destruct (@iteration_cases env cfg rts None None w Fok)
    as (w1 & E1 & _ & W1 & _ & _ & J).
  rewrite E1 in E. simpl in E. injection E as <- <-.
  assert (Ws : ws = [(None, None)])
    by (rewrite W in W1; now apply app_inv_head in W1).
  subst ws. split; [reflexivity|]. split; [reflexivity|].
  inversion F2 as [|win j ws0 js0 [Rq He] F0]; subst.
  inversion F0; subst. simpl in Rq.
  split; [exists j; split; [reflexivity|exact Rq]|].
  assert (Fl : forall e, In e es -> filters (job_searchRequest e) = []).
  { intros e Hin. destruct (Refs e Hin) as (j' & [<-|[]] & Hid).
    now rewrite (He e Hin Hid). }
  destruct J as [(G' & _)|[(_ & En & _ & Q1)|(_ & e1 & En & _ & Q1)]];
    [congruence| |].
  - rewrite Q in Q1. apply app_inv_head in Q1. subst es.
    split; [simpl; lia|]. split; [reflexivity|exact Fl].
  - rewrite Q in Q1. rewrite <- (app_nil_r (queueEntries w)) in Q1 at 2.
    apply app_inv_head in Q1. subst es.
    split; [simpl; lia|]. split; [congruence|exact Fl].
Qed.

Lemma window_filters_witness :
  DO_ADD_JOBS submit_config = true /\
  store_fresh empty_world /\
  (forall s, startDate0 submit_config = Some s -> date_range submit_config s) /\
  loop flaky_env submit_config 2 ["Patient"; "Observation"]
    (startDate0 submit_config) None empty_world
  = (Ok tt, snd (loop flaky_env submit_config 2 ["Patient"; "Observation"]
                   (startDate0 submit_config) None empty_world)) /\
  exists ws js es,
    windows (snd (loop flaky_env submit_config 2 ["Patient"; "Observation"]
                    (startDate0 submit_config) None empty_world))
      = windows empty_world ++ ws /\
    asyncJobs (snd (loop flaky_env submit_config 2 ["Patient"; "Observation"]
                      (startDate0 submit_config) None empty_world))
      = asyncJobs empty_world ++ js /\
    queueEntries (snd (loop flaky_env submit_config 2 ["Patient"; "Observation"]
                         (startDate0 submit_config) None empty_world))
      = queueEntries empty_world ++ es /\
    Forall2 (job_of_window ["Patient"; "Observation"] es) ws js /\
    (forall e, In e es -> exists j, In j js /\ job_asyncJob e = id j) /\
    (forall sd ed, In (sd, ed) ws ->
                   window_shape submit_config ["Patient"; "Observation"] sd ed) /\
    (forall a b, In (Some a, Some b) ws -> valid_window submit_config (a, b)) /\
    (startDate0 submit_config = None -> (1 <= 2)%nat ->
     Ok tt = Ok tt /\ ws = [(None, None)] /\
     (exists j, js = [j] /\ request j = join "," ["Patient"; "Observation"] +++ "?") /\
     (List.length es <= 1)%nat /\
     (enqueue_error flaky_env (List.length (asyncJobs empty_world)) = None ->
      List.length es = 1%nat) /\
     forall e, In e es -> filters (job_searchRequest e) = []).
Proof.
  assert (G : DO_ADD_JOBS submit_config = true) by reflexivity.
  assert (F : store_fresh empty_world) by (intros j []).
  assert (D : forall s, startDate0 submit_config = Some s -> date_range submit_config s)
    by (intros s [= <-]; repeat split; vm_compute; discriminate).
  assert (E : loop flaky_env submit_config 2 ["Patient"; "Observation"]
                (startDate0 submit_config) None empty_world
              = (Ok tt, snd (loop flaky_env submit_config 2 ["Patient"; "Observation"]
                               (startDate0 submit_config) None empty_world)))
    by (vm_compute; reflexivity).
  split; [exact G|]. split; [exact F|]. split; [exact D|]. split; [exact E|].
  exact (@window_filters flaky_env submit_config ["Patient"; "Observation"] 2
           empty_world _ _ G F D E).
Defined.

(** C7, as stated, fails: with no start date and the horizon set as in
    the source, the one job of the run has no filter at all, so no upper
    bound either, and its url has no query. *)
Lemma no_start_no_bounds :
  startDate0 no_start_config = None /\
  beforeDate no_start_config = 1748736000000 /\
  fst (run (plain_env "Patient") no_start_config 3 empty_world) = Ok tt /\
  map (fun e => filters (job_searchRequest e))
      (queueEntries (snd (run (plain_env "Patient") no_start_config 3 empty_world)))
    = [[]] /\
  map request (asyncJobs (snd (run (plain_env "Patient") no_start_config 3 empty_world)))
    = ["Patient?"].
Proof. repeat split. Qed.

(** *** The order of the submissions *)

Lemma submitted_snoc (env : Env) (ws : list (Z * Z)) (ab : Z * Z) :
  forall k,
    submitted env k (ws ++ [ab]) =
    submitted env k ws ++
      match enqueue_error env (k + List.length ws) with
      | None => [ab]
      | Some _ => []
      end.
Proof.
  induction ws as [|x ws IH]; intros k; simpl.
  - rewrite Nat.add_0_r. now destruct (enqueue_error env k).
  - rewrite IH. replace (S k + List.length ws)%nat with (k + S (List.length ws))%nat by lia.
    now destruct (enqueue_error env k).
Qed.

Lemma submitted_Forall (env : Env) (P : Z * Z -> Prop) (ws : list (Z * Z)) :
  Forall P ws -> forall k, Forall P (submitted env k ws).
Proof.
  induction 1 as [|x ws Hx Hws IH]; intros k; simpl; [constructor|].
  destruct (enqueue_error env k); [apply IH|constructor; [exact Hx|apply IH]].
Qed.

Lemma ascending_snoc (ws : list (Z * Z)) (ab : Z * Z) :
  ascending ws -> Forall (fun x => fst x < fst ab) ws -> ascending (ws ++ [ab]).
Proof.
  unfold ascending. induction ws as [|x ws IH]; simpl; intros A L.
  - repeat constructor.
  - inversion A; subst. inversion L; subst.
    constructor; [now apply IH|].
    rewrite map_app, Forall_app. split; [assumption|]. repeat constructor. assumption.
Qed.

Lemma submitted_ascending (env : Env) (ws : list (Z * Z)) :
  ascending ws -> forall k, ascending (submitted env k ws).
Proof.
  unfold ascending. induction ws as [|x ws IH]; simpl; intros A k; [constructor|].
  inversion A as [|? ? A' L]; subst.
  destruct (enqueue_error env k); [now apply IH|].
  simpl. constructor; [now apply IH|].
  rewrite Forall_map in *. apply submitted_Forall. exact L.
Qed.

(** C8. In a run with the gate on and a positive step, the search
    requests of the entries enqueued are, in the order of the queue,
    those of the windows of the run whose enqueue went through, in the
    order of the run; the starts of the windows of the run, and so of
    those, are strictly increasing. *)
Theorem enqueued_in_order (env : Env) (cfg : Config) (rts : list string)
    (fuel : nat) (s : Z) (ed : option Z) (w : World) (r : Res unit) (w' : World) :
  DO_ADD_JOBS cfg = true -> store_fresh w -> 0 < intervalMinutes cfg ->
  loop env cfg fuel rts (Some s) ed w = (r, w') ->
  exists ws es,
    windows w' = windows w ++ map window ws /\
    queueEntries w' = queueEntries w ++ es /\
    map job_searchRequest es
      = map (window_request rts) (submitted env (List.length (asyncJobs w)) ws) /\
    ascending ws /\
    ascending (submitted env (List.length (asyncJobs w)) ws).
Proof.
  intros G F P E. pose proof (stepMs_pos cfg P) as P'.
  pose (Post := fun w1 : World =>
    exists ws es,
      windows w1 = windows w ++ map window ws /\
      queueEntries w1 = queueEntries w ++ es /\
      map job_searchRequest es
        = map (window_request rts) (submitted env (List.length (asyncJobs w)) ws) /\
      ascending ws /\
      List.length (asyncJobs w1) = (List.length (asyncJobs w) + List.length ws)%nat).
  pose (I := fun (sd ed : option Z) (w1 : World) =>
    exists x, sd = Some x /\
    exists ws es,
      windows w1 = windows w ++ map window ws /\
      queueEntries w1 = queueEntries w ++ es /\
      map job_searchRequest es
        = map (window_request rts) (submitted env (List.length (asyncJobs w)) ws) /\
      ascending ws /\
      List.length (asyncJobs w1) = (List.length (asyncJobs w) + List.length ws)%nat /\
      Forall (fun ab => fst ab < x) ws).
  assert (R : (r = Ok tt \/ r = OutOfFuel) /\ world_ok cfg w' /\ Post w').
  { apply (@loop_inv env cfg rts I Post) with (fuel := fuel) (sd := Some s)
      (ed := ed) (w := w); trivial.
    - intros sd ed1 w1 (x & _ & ws & es & W & Q & M & A & L & _).
      exists ws, es. auto.
    - intros sd ed1 w1 w2 F1 (x & -> & ws & es & W & Q & M & A & L & B) E1.
      apply iteration_result in E1; [|exact F1].
      destruct E1 as (W1 & _ & _ & J). rewrite next_endDate_some in *.
      set (e := Z.min (x + stepMs cfg) (beforeDate cfg)) in *.
      assert (A' : ascending (ws ++ [(x, e)])) by (apply ascending_snoc; assumption).
      assert (Wn : windows w2 = windows w ++ map window (ws ++ [(x, e)])).
      { rewrite W1, W, map_app, <- app_assoc. reflexivity. }
      assert (Body : exists es',
        queueEntries w2 = queueEntries w ++ es' /\
        map job_searchRequest es'
          = map (window_request rts)
                (submitted env (List.length (asyncJobs w)) (ws ++ [(x, e)])) /\
        List.length (asyncJobs w2)
          = (List.length (asyncJobs w) + List.length (ws ++ [(x, e)]))%nat).
      { rewrite submitted_snoc, <- L, length_app. simpl.
        destruct J as [(G' & _)|[(_ & En & A1 & Q1)|(_ & e1 & En & A1 & Q1)]];
          [congruence| |]; rewrite En.
        - exists (es ++ [new_entry cfg rts (Some x) (Some e) w1]).
          rewrite Q1, Q, A1, <- app_assoc, !map_app, M, length_app. simpl.
          repeat split; trivial. lia.
        - exists es. rewrite Q1, Q, A1, app_nil_r, length_app. simpl.
          repeat split; trivial. lia. }
      destruct Body as (es' & Q' & M' & L').
      split.
      + exists (ws ++ [(x, e)]), es'. repeat split; trivial.
      + intros C. exists e. split; [reflexivity|].
        exists (ws ++ [(x, e)]), es'. repeat split; trivial.
        unfold loop_condition in C. apply Z.ltb_lt in C.
        assert (x < e) by (unfold e in *; lia).
        rewrite Forall_app. split.
        * eapply Forall_impl; [|exact B]. simpl. intros ab. lia.
        * repeat constructor. assumption.
    - intros G'. exact F.
    - exists s. split; [reflexivity|]. exists [], []. simpl.
      rewrite !app_nil_r, Nat.add_0_r. repeat split; trivial; constructor. }
  destruct R as (_ & _ & ws & es & W & Q & M & A & _).
  exists ws, es. repeat split; trivial. now apply submitted_ascending.
Qed.

Lemma enqueued_in_order_witness :
  DO_ADD_JOBS submit_config = true /\
  store_fresh empty_world /\
  0 < intervalMinutes submit_config /\
  loop flaky_env submit_config 2 ["Patient"] (Some 1744675200000) None empty_world
  = (Ok tt, snd (loop flaky_env submit_config 2 ["Patient"]
                   (Some 1744675200000) None empty_world)) /\
  exists ws es,
    windows (snd (loop flaky_env submit_config 2 ["Patient"]
                    (Some 1744675200000) None empty_world))
      = windows empty_world ++ map window ws /\
    queueEntries (snd (loop flaky_env submit_config 2 ["Patient"]
                         (Some 1744675200000) None empty_world))
      = queueEntries empty_world ++ es /\
    map job_searchRequest es
      = map (window_request ["Patient"])
            (submitted flaky_env (List.length (asyncJobs empty_world)) ws) /\
    ascending ws /\
    ascending (submitted flaky_env (List.length (asyncJobs empty_world)) ws).
Proof.
  assert (G : DO_ADD_JOBS submit_config = true) by reflexivity.
  assert (F : store_fresh empty_world) by (intros j []).
  assert (P : 0 < intervalMinutes submit_config) by reflexivity.
  assert (E : loop flaky_env submit_config 2 ["Patient"] (Some 1744675200000) None empty_world
              = (Ok tt, snd (loop flaky_env submit_config 2 ["Patient"]
                               (Some 1744675200000) None empty_world)))
    by (vm_compute; reflexivity).
  split; [exact G|]. split; [exact F|]. split; [exact P|]. split; [exact E|].
  exact (@enqueued_in_order flaky_env submit_config ["Patient"] 2 1744675200000
           None empty_world _ _ G F P E).
Defined.

(** *** The resource types of a submission *)

Lemma loop_entry_types (env : Env) (cfg : Config) (rts : list string)
    (fuel : nat) (sd ed : option Z) (w : World) (r : Res unit) (w' : World) :
  world_ok cfg w ->
  loop env cfg fuel rts sd ed w = (r, w') ->
  (r = Ok tt \/ r = OutOfFuel) /\
  exists es, queueEntries w' = queueEntries w ++ es /\
             forall e, In e es -> entry_types rts (asyncJobs w') e.
Proof.
  intros F E.
  pose (Post := fun w1 : World =>
    exists es, queueEntries w1 = queueEntries w ++ es /\
               forall e, In e es -> entry_types rts (asyncJobs w1) e).
  assert (R : (r = Ok tt \/ r = OutOfFuel) /\ world_ok cfg w' /\ Post w').
  { apply (@loop_inv env cfg rts (fun _ _ => Post) Post) with (fuel := fuel) (sd := sd)
      (ed := ed) (w := w); trivial.
    - intros sd1 ed1 w1 w2 F1 (es & Q & H) E1.
      apply iteration_result in E1; [|exact F1].
      destruct E1 as (_ & _ & _ & J).
      assert (Mono : forall jobs' e, (forall j, In j (asyncJobs w1) -> In j jobs') ->
                entry_types rts (asyncJobs w1) e -> entry_types rts jobs' e).
      { intros jobs' e Sub (T1 & T2 & j & q & Hj & Hid & Hr).
        repeat split; trivial. exists j, q. auto. }
      assert (P2 : Post w2).
      { destruct J as [(_ & A1 & Q1)|[(_ & _ & A1 & Q1)|(_ & e1 & _ & A1 & Q1)]].
        - exists es. rewrite Q1, A1. auto.
        - exists (es ++ [new_entry cfg rts sd1 (next_endDate cfg sd1 ed1) w1]).
          rewrite Q1, Q, A1, <- app_assoc. split; [reflexivity|].
          intros e He. apply in_app_or in He. destruct He as [He|[<-|[]]].
          + eapply Mono; [|now apply H]. intros j Hj. apply in_or_app. now left.
          + repeat split. eexists. eexists. split; [apply in_or_app; right; now left|].
            split; reflexivity.
        - exists es. rewrite Q1, A1. split; [exact Q|].
          intros e He. eapply Mono; [|now apply H].
          intros j Hj. apply in_or_app. now left. }
      auto.
    - exists []. rewrite app_nil_r. split; [reflexivity|]. intros e []. }
  destruct R as (R & _ & P). auto.
Qed.

(** C9. The entries a run enqueues when several resource types are
    given, separated by commas: the search request of each is for the
    first type only, while the job is for all the types and the url of
    its Async Job starts with the argument as it was given. *)
Theorem search_request_first_type (env : Env) (cfg : Config) (fuel : nat)
    (w : World) (r : Res unit) (w' : World) (a : string) :
  argv2 env = Some a -> (2 <= List.length (split "," a))%nat -> world_ok cfg w ->
  run env cfg fuel w = (r, w') ->
  exists first es,
    nth_error (split "," a) 0 = Some first /\
    split "," a <> [first] /\
    queueEntries w' = queueEntries w ++ es /\
    forall e, In e es ->
      resourceType (job_searchRequest e) = Some first /\
      job_resourceTypes e = split "," a /\
      exists j q, In j (asyncJobs w') /\ id j = job_asyncJob e /\
                  request j = a +++ "?" +++ q.
Proof.
  intros A L F E.
  destruct (JsFacts.split_first "," a) as [first Hf].
  assert (Hne : split "," a <> [first])
    by (intros Hs; rewrite Hs in L; simpl in L; lia).
  exists first.
  assert (Same : forall e w1, queueEntries (reported e w1) = queueEntries w1)
    by (intros e w1; apply (reported_spec e w1)).
  rewrite run_unfold, A in E. cbv zeta in E.
  destruct (loadConfig_error env) as [e|].
  { inversion E; subst. exists []. rewrite Same, app_nil_r. simpl.
    split; [exact Hf|]. split; [exact Hne|]. split; [reflexivity|]. intros ? []. }
  destruct (initAppServices_error env) as [e|].
  { inversion E; subst. exists []. rewrite Same, app_nil_r. simpl.
    split; [exact Hf|]. split; [exact Hne|]. split; [reflexivity|]. intros ? []. }
  destruct (registry_has_ReindexQueue env).
  2:{ inversion E; subst. exists []. rewrite Same, app_nil_r. simpl.
      split; [exact Hf|]. split; [exact Hne|]. split; [reflexivity|]. intros ? []. }
  destruct (prepared_spec cfg (set_stdout w (stdout w ++ [LogArray (split "," a)])))
    as (_ & _ & _ & _ & PA & PQ & _).
  simpl in PA, PQ.
  destruct (loop env cfg fuel (split "," a) (startDate0 cfg) None
              (prepared cfg (set_stdout w (stdout w ++ [LogArray (split "," a)]))))
    as [r3 w3] eqn:Lp.
  apply loop_entry_types in Lp.
  2:{ intros G x Hx. rewrite PA in *. exact (F G x Hx). }
  destruct Lp as (R & es & Q & H).
  exists es.
  assert (Hes : forall e, In e es ->
      resourceType (job_searchRequest e) = Some first /\
      job_resourceTypes e = split "," a /\
      exists j q, In j (asyncJobs w3) /\ id j = job_asyncJob e /\
                  request j = a +++ "?" +++ q).
  { intros e He. destruct (H e He) as (T1 & T2 & j & q & Hj & Hid & Hr).
    rewrite (JsFacts.join_split "," a) in Hr.
    split; [congruence|]. split; [exact T2|]. exists j, q. auto. }
  destruct R as [-> | ->]; inversion E; subst; simpl;
    (split; [exact Hf|]); (split; [exact Hne|]); (split; [congruence|exact Hes]).
Qed.

Lemma search_request_first_type_witness :
  argv2 flaky_env = Some "Patient,Observation" /\
  (2 <= List.length (split "," "Patient,Observation"))%nat /\
  world_ok submit_config empty_world /\
  run flaky_env submit_config 2 empty_world
  = (Ok tt, snd (run flaky_env submit_config 2 empty_world)) /\
  exists first es,
    nth_error (split "," "Patient,Observation") 0 = Some first /\
    split "," "Patient,Observation" <> [first] /\
    queueEntries (snd (run flaky_env submit_config 2 empty_world))
      = queueEntries empty_world ++ es /\
    forall e, In e es ->
      resourceType (job_searchRequest e) = Some first /\
      job_resourceTypes e = split "," "Patient,Observation" /\
      exists j q, In j (asyncJobs (snd (run flaky_env submit_config 2 empty_world))) /\
                  id j = job_asyncJob e /\
                  request j = "Patient,Observation" +++ "?" +++ q.
Proof.
  assert (A : argv2 flaky_env = Some "Patient,Observation") by reflexivity.
  assert (L : (2 <= List.length (split "," "Patient,Observation"))%nat)
    by (vm_compute; lia).
  assert (F : world_ok submit_config empty_world) by (intros _ j []).
  assert (E : run flaky_env submit_config 2 empty_world
              = (Ok tt, snd (run flaky_env submit_config 2 empty_world)))
    by (vm_compute; reflexivity).
  split; [exact A|]. split; [exact L|]. split; [exact F|]. split; [exact E|].
  exact (@search_request_first_type flaky_env submit_config 2 empty_world _ _
           "Patient,Observation" A L F E).
Defined.

(** *** Pairing of Async Jobs and queue entries *)

Lemma references_snoc (i : nat) (l : list ReindexJob) (e : ReindexJob) :
  references i (l ++ [e]) =
  (references i l + if Nat.eqb (job_asyncJob e) i then 1 else 0)%nat.
Proof.
  unfold references. rewrite filter_app, length_app. simpl.
  now destruct (Nat.eqb (job_asyncJob e) i).
Qed.

Lemma references_fresh (i : nat) (l : list ReindexJob) :
  (forall e, In e l -> (job_asyncJob e < i)%nat) -> references i l = 0%nat.
Proof.
  unfold references. induction l as [|e l IH]; simpl; intros H; [reflexivity|].
  destruct (Nat.eqb (job_asyncJob e) i) eqn:E.
  - apply Nat.eqb_eq in E. specialize (H e (or_introl eq_refl)). lia.
  - apply IH. intros x Hx. apply H. now right.
Qed.

Lemma loop_paired (env : Env) (cfg : Config) (rts : list string)
    (fuel : nat) (sd ed : option Z) (w : World) (r : Res unit) (w' : World) :
  DO_ADD_JOBS cfg = true -> store_fresh w ->
  (forall e, In e (queueEntries w) -> (job_asyncJob e < List.length (asyncJobs w))%nat) ->
  loop env cfg fuel rts sd ed w = (r, w') ->
  (r = Ok tt \/ r = OutOfFuel) /\
  stderr w' = stderr w /\
  exists js ws,
    asyncJobs w' = asyncJobs w ++ js /\
    windows w' = windows w ++ ws /\
    List.length js = List.length ws /\
    forall j, In j js -> paired env (queueEntries w') j.
Proof.
  intros G F B E.
  pose (Post := fun w1 : World =>
    stderr w1 = stderr w /\
    (forall e, In e (queueEntries w1) ->
               (job_asyncJob e < List.length (asyncJobs w1))%nat) /\
    exists js ws,
      asyncJobs w1 = asyncJobs w ++ js /\
      windows w1 = windows w ++ ws /\
      List.length js = List.length ws /\
      (forall j, In j js -> (id j < List.length (asyncJobs w1))%nat) /\
      forall j, In j js -> paired env (queueEntries w1) j).
  assert (R : (r = Ok tt \/ r = OutOfFuel) /\ world_ok cfg w' /\ Post w').
  { apply (@loop_inv env cfg rts (fun _ _ => Post) Post) with (fuel := fuel) (sd := sd)
      (ed := ed) (w := w); trivial.
    - intros sd1 ed1 w1 w2 F1 (S1 & B1 & js & ws & A & W & L & Ids & P) E1.
      apply iteration_result in E1; [|exact F1].
      destruct E1 as (W1 & S2 & _ & J).
      assert (P2 : Post w2).
      { destruct J as [(G' & _)|[(_ & En & A1 & Q1)|(_ & e1 & En & A1 & Q1)]];
          [congruence| |].
        - split; [congruence|]. split.
          { intros e He. rewrite Q1 in He. rewrite A1, length_app. simpl.
            apply in_app_or in He. destruct He as [He|[<-|[]]].
            - apply B1 in He. lia.
            - simpl. lia. }
          exists (js ++ [new_job rts sd1 (next_endDate cfg sd1 ed1) w1 ACCEPTED None]),
                 (ws ++ [(sd1, next_endDate cfg sd1 ed1)]).
          split; [rewrite A1, A, <- app_assoc; reflexivity|].
          split; [rewrite W1, W, <- app_assoc; reflexivity|].
          split; [rewrite !length_app; simpl; lia|].
          split.
          + intros j Hj. rewrite A1, length_app. simpl.
            apply in_app_or in Hj. destruct Hj as [Hj|[<-|[]]].
            * apply Ids in Hj. lia.
            * simpl. lia.
          + intros j Hj. unfold paired. rewrite Q1, references_snoc. simpl.
            apply in_app_or in Hj. destruct Hj as [Hj|[<-|[]]].
            * pose proof (Ids j Hj) as Hid. pose proof (P j Hj) as Pj.
              unfold paired in Pj.
              replace (Nat.eqb (List.length (asyncJobs w1)) (id j)) with false
                by (symmetry; apply Nat.eqb_neq; lia).
              rewrite Nat.add_0_r. exact Pj.
            * simpl. rewrite En, Nat.eqb_refl, references_fresh by exact B1.
              auto.
        - split; [congruence|]. split.
          { intros e He. rewrite Q1 in He. rewrite A1, length_app. simpl.
            apply B1 in He. lia. }
          exists (js ++ [new_job rts sd1 (next_endDate cfg sd1 ed1) w1 FAILED (Some e1)]),
                 (ws ++ [(sd1, next_endDate cfg sd1 ed1)]).
          split; [rewrite A1, A, <- app_assoc; reflexivity|].
          split; [rewrite W1, W, <- app_assoc; reflexivity|].
          split; [rewrite !length_app; simpl; lia|].
          split.
          + intros j Hj. rewrite A1, length_app. simpl.
            apply in_app_or in Hj. destruct Hj as [Hj|[<-|[]]].
            * apply Ids in Hj. lia.
            * simpl. lia.
          + intros j Hj. unfold paired. rewrite Q1.
            apply in_app_or in Hj. destruct Hj as [Hj|[<-|[]]].
            * exact (P j Hj).
            * simpl. rewrite En, references_fresh by exact B1. auto. }
      auto.
    - intros _. exact F.
    - split; [reflexivity|]. split; [exact B|].
      exists [], []. rewrite !app_nil_r. repeat split; trivial; intros ? []. }
  destruct R as (R & _ & S1 & _ & js & ws & A & W & L & _ & P).
  split; [exact R|]. split; [exact S1|]. exists js, ws. auto.
Qed.

(** C2. In a run with the gate on, every Async Job the run created whose
    enqueue failed is marked [FAILED], with the error, and every one
    still [ACCEPTED] has exactly one queue entry that refers to it.  The
    failure is not passed on: the run goes on to the other windows (one
    Async Job per window), ends normally when it ends, and reports
    nothing on the error stream. *)
Theorem enqueue_failure_compensated (env : Env) (cfg : Config) (fuel : nat)
    (w : World) (r : Res unit) (w' : World) :
  setup_ok env -> DO_ADD_JOBS cfg = true -> store_fresh w ->
  (forall e, In e (queueEntries w) -> (job_asyncJob e < List.length (asyncJobs w))%nat) ->
  run env cfg fuel w = (r, w') ->
  (r = Ok tt \/ r = OutOfFuel) /\
  stderr w' = stderr w /\
  exists js ws,
    asyncJobs w' = asyncJobs w ++ js /\
    windows w' = windows w ++ ws /\
    List.length js = List.length ws /\
    forall j, In j js ->
      (forall e, enqueue_error env (id j) = Some e ->
                 status j = FAILED /\ error j = Some e /\
                 references (id j) (queueEntries w') = 0%nat) /\
      (status j = ACCEPTED -> references (id j) (queueEntries w') = 1%nat).
Proof.
  intros (A & LC & IA & RQ) G F B E.
  rewrite run_unfold in E.
  destruct (argv2 env) as [a|]; [|now destruct A].
  cbv zeta in E. rewrite LC, IA, RQ in E.
  destruct (prepared_spec cfg (set_stdout w (stdout w ++ [LogArray (split "," a)])))
    as (_ & _ & PS & _ & PA & PQ & PW).
  simpl in PS, PA, PQ, PW.
  destruct (loop env cfg fuel (split "," a) (startDate0 cfg) None
              (prepared cfg (set_stdout w (stdout w ++ [LogArray (split "," a)]))))
    as [r3 w3] eqn:Lp.
  apply loop_paired in Lp; trivial.
  2:{ intros x Hx. rewrite PA in *. exact (F x Hx). }
  2:{ intros e He. rewrite PA, PQ in *. exact (B e He). }
  destruct Lp as (R & S3 & js & ws & A3 & W3 & L3 & P3).
  assert (H3 : forall j, In j js ->
      (forall e, enqueue_error env (id j) = Some e ->
                 status j = FAILED /\ error j = Some e /\
                 references (id j) (queueEntries w3) = 0%nat) /\
      (status j = ACCEPTED -> references (id j) (queueEntries w3) = 1%nat)).
  { intros j Hj. pose proof (P3 j Hj) as Pj. unfold paired in Pj.
    destruct (enqueue_error env (id j)) as [e|].
    - destruct Pj as (St & Er & Rf). split.
      + intros e' He'. inversion He'; subst. auto.
      + intros Acc. congruence.
    - destruct Pj as (St & Rf). split; [discriminate|auto]. }
  destruct R as [-> | ->]; inversion E; subst; simpl;
    (split; [auto|]); (split; [congruence|]); exists js, ws;
    (split; [congruence|]); (split; [congruence|]); (split; [exact L3|exact H3]).
Qed.

Lemma enqueue_failure_compensated_witness :
  setup_ok flaky_env /\
  DO_ADD_JOBS submit_config = true /\
  store_fresh empty_world /\
  (forall e, In e (queueEntries empty_world) ->
             (job_asyncJob e < List.length (asyncJobs empty_world))%nat) /\
  run flaky_env submit_config 2 empty_world
  = (Ok tt, snd (run flaky_env submit_config 2 empty_world)) /\
  (Ok tt = Ok tt \/ Ok tt = @OutOfFuel unit) /\
  stderr (snd (run flaky_env submit_config 2 empty_world)) = stderr empty_world /\
  exists js ws,
    asyncJobs (snd (run flaky_env submit_config 2 empty_world))
      = asyncJobs empty_world ++ js /\
    windows (snd (run flaky_env submit_config 2 empty_world))
      = windows empty_world ++ ws /\
    List.length js = List.length ws /\
    forall j, In j js ->
      (forall e, enqueue_error flaky_env (id j) = Some e ->
                 status j = FAILED /\ error j = Some e /\
                 references (id j)
                   (queueEntries (snd (run flaky_env submit_config 2 empty_world))) = 0%nat) /\
      (status j = ACCEPTED ->
       references (id j)
         (queueEntries (snd (run flaky_env submit_config 2 empty_world))) = 1%nat).
Proof.
  assert (S : setup_ok flaky_env)
    by (unfold setup_ok; simpl; repeat split; discriminate).
  assert (G : DO_ADD_JOBS submit_config = true) by reflexivity.
  assert (F : store_fresh empty_world) by (intros j []).
  assert (B : forall e, In e (queueEntries empty_world) ->
                        (job_asyncJob e < List.length (asyncJobs empty_world))%nat)
    by (intros e []).
  assert (E : run flaky_env submit_config 2 empty_world
              = (Ok tt, snd (run flaky_env submit_config 2 empty_world)))
    by (vm_compute; reflexivity).
  split; [exact S|]. split; [exact G|]. split; [exact F|]. split; [exact B|].
  split; [exact E|].
  exact (@enqueue_failure_compensated flaky_env submit_config 2 empty_world _ _
           S G F B E).
Defined.

(** The run of the witness: the enqueue of the second window fails, its
    Async Job is [FAILED], the first is [ACCEPTED] with its entry, and the
    run ends with [Done]. *)
Example flaky_run :
  let w' := snd (run flaky_env submit_config 2 empty_world) in
  fst (run flaky_env submit_config 2 empty_world) = Ok tt /\
  map status (asyncJobs w') = [ACCEPTED; FAILED] /\
  map job_asyncJob (queueEntries w') = [0%nat] /\
  map job_resourceTypes (queueEntries w') = [["Patient"; "Observation"]] /\
  map (fun e => resourceType (job_searchRequest e)) (queueEntries w') = [Some "Patient"] /\
  stderr w' = [] /\
  last (stdout w') (LogText "") = LogText "Done".
Proof. repeat split. Qed.

End ReindexFacts.

(* ================================================================= *)
(** ** Facts about the seeding *)

Module SeedFacts.

Import Seed.

Section Seeding.

Variable generateId : nat -> string.
Variable bcryptHashPassword : string -> string.
Variable r4ProjectId : string.
Variable rebuildR4StructureDefinitions : Database -> Database.
Variable rebuildR4ValueSets : Database -> Database.
Variable rebuildR4SearchParameters : Database -> Database.

Let seed : Database -> Database :=
  seedDatabase generateId bcryptHashPassword r4ProjectId
    rebuildR4StructureDefinitions rebuildR4ValueSets rebuildR4SearchParameters.

Lemma isSeeded_has_user (d : Database) :
  has_user d <-> isSeeded d <> None.
Proof.
  unfold has_user, isSeeded, searchOne. split.
  - intros (r & Hin & Ht) Hn.
    pose proof (find_none _ _ Hn r Hin) as Hf. simpl in Hf.
    rewrite Ht in Hf. discriminate.
  - destruct (find (fun r => String.eqb (resourceType r) "User") (resources d))
      as [r|] eqn:E; [|intros H; now destruct H].
    intros _. apply find_some in E. destruct E as [Hin Ht].
    exists r. split; [exact Hin|]. now apply String.eqb_eq.
Qed.

Lemma has_user_create (c : Content) (d d' : Database) (r : Resource) :
  createResource generateId c d = (r, d') -> has_user d -> has_user d'.
Proof.
  intros E (u & Hin & Ht). inversion E; subst. exists u. split; [|exact Ht].
  simpl. apply in_or_app. now left.
Qed.

Lemma has_user_created (f l e p : string) (d d' : Database) (r : Resource) :
  createResource generateId (User f l e p) d = (r, d') -> has_user d'.
Proof.
  intros E. inversion E; subst.
  eexists. split; [simpl; apply in_or_app; right; left; reflexivity|reflexivity].
Qed.

Lemma has_user_update (r : Resource) (d : Database) :
  resourceType r <> "User" -> has_user d -> has_user (updateResource r d).
Proof.
  intros Hr (u & Hin & Ht). exists u. split; [|exact Ht].
  unfold updateResource. simpl.
  destruct (existsb (same_resource r) (resources d)).
  - apply in_map_iff. exists u. split; [|exact Hin].
    unfold same_resource. destruct (String.eqb (resourceType r) (resourceType u)) eqn:E.
    + apply String.eqb_eq in E. congruence.
    + reflexivity.
  - apply in_or_app. now left.
Qed.

Lemma has_user_info (msg : string) (d : Database) :
  has_user d -> has_user (info msg d).
Proof. intros (r & Hin & Ht). exists r. auto. Qed.

Lemma has_user_createSuperAdmin (d : Database) :
  has_user (createSuperAdmin generateId bcryptHashPassword r4ProjectId d).
Proof.
  unfold createSuperAdmin.
  destruct (createResource generateId
              (User "Medplum" "Admin" "admin@example.com"
                 (bcryptHashPassword "medplum_admin")) d) as [superAdmin d1] eqn:E1.
  apply has_user_created in E1.
  destruct (createResource generateId
              (Project "Super Admin" (Some (createReference superAdmin))
                 (Some true) (Some true)) d1) as [superAdminProject d2] eqn:E2.
  apply has_user_create in E2; [|exact E1].
  destruct (createResource generateId
              (Practitioner (id superAdminProject) "Medplum" "Admin" "admin@example.com")
              (updateResource {| id := r4ProjectId;
                                 content := Project "FHIR R4" None None None |} d2))
    as [practitioner d3] eqn:E3.
  apply has_user_create in E3; [|apply has_user_update; [discriminate|exact E2]].
  destruct (createResource generateId
              (ProjectMembership (createReference superAdminProject)
                 (createReference superAdmin) (createReference practitioner) true) d3)
    as [membership d4] eqn:E4.
  apply has_user_create in E4; [exact E4|exact E3].
Qed.

(** After a seeding the database holds a [User], when the rebuild
    functions do not remove the last one. *)
Lemma has_user_seeded (d : Database) :
  (forall x, has_user x -> has_user (rebuildR4StructureDefinitions x)) ->
  (forall x, has_user x -> has_user (rebuildR4ValueSets x)) ->
  (forall x, has_user x -> has_user (rebuildR4SearchParameters x)) ->
  has_user (seed d).
Proof.
  intros H1 H2 H3. unfold seed, seedDatabase.
  destruct (isSeeded (connect d)) as [r|] eqn:E.
  - apply has_user_info. apply isSeeded_has_user. rewrite E. discriminate.
  - repeat (first [apply has_user_info | apply H1 | apply H2 | apply H3]).
    apply has_user_createSuperAdmin.
Qed.

Lemma seed_seeded (d : Database) :
  has_user d ->
  seed d = {| resources := resources d; writes := writes d; next_id := next_id d;
              acquired := S (acquired d); log := log d ++ ["Already seeded"] |}.
Proof.
  intros H. unfold seed, seedDatabase.
  assert (H' : has_user (connect d)) by exact H.
  apply isSeeded_has_user in H'.
  destruct (isSeeded (connect d)); [reflexivity|now destruct H'].
Qed.

End Seeding.

(** After a first run on any database, a second run writes nothing, when
    the rebuild functions of the first do not remove the last [User]. *)
Lemma seedDatabase_twice
    (generateId : nat -> string) (bcryptHashPassword : string -> string)
    (r4ProjectId : string)
    (rebuildR4StructureDefinitions rebuildR4ValueSets rebuildR4SearchParameters :
       Database -> Database)
    (d : Database) :
  let seed := seedDatabase generateId bcryptHashPassword r4ProjectId
                rebuildR4StructureDefinitions rebuildR4ValueSets
                rebuildR4SearchParameters in
  (forall x, has_user x -> has_user (rebuildR4StructureDefinitions x)) ->
  (forall x, has_user x -> has_user (rebuildR4ValueSets x)) ->
  (forall x, has_user x -> has_user (rebuildR4SearchParameters x)) ->
  resources (seed (seed d)) = resources (seed d) /\
  writes (seed (seed d)) = writes (seed d).
Proof.
  intros seed H1 H2 H3.
  assert (H : has_user (seed d)) by (apply has_user_seeded; assumption).
  pose proof (seed_seeded generateId bcryptHashPassword r4ProjectId
                rebuildR4StructureDefinitions rebuildR4ValueSets
                rebuildR4SearchParameters H) as E.
  fold seed in E. rewrite E. simpl. auto.
Qed.

(** C10. On a database that holds a [User], [seedDatabase] returns at
    its entry check: the resources are as before, no create or update
    was made, no id was taken, and [Already seeded] is logged; a second
    run leaves the database unchanged again. *)
Theorem seedDatabase_idempotent
    (generateId : nat -> string) (bcryptHashPassword : string -> string)
    (r4ProjectId : string)
    (rebuildR4StructureDefinitions rebuildR4ValueSets rebuildR4SearchParameters :
       Database -> Database)
    (d : Database) :
  let seed := seedDatabase generateId bcryptHashPassword r4ProjectId
                rebuildR4StructureDefinitions rebuildR4ValueSets
                rebuildR4SearchParameters in
  has_user d ->
  resources (seed d) = resources d /\
  writes (seed d) = writes d /\
  next_id (seed d) = next_id d /\
  log (seed d) = log d ++ ["Already seeded"] /\
  resources (seed (seed d)) = resources d /\
  writes (seed (seed d)) = writes d.
Proof.
  intros seed H.
  pose proof (seed_seeded generateId bcryptHashPassword r4ProjectId
                rebuildR4StructureDefinitions rebuildR4ValueSets
                rebuildR4SearchParameters H) as E.
  fold seed in E.
  assert (H' : has_user (seed d)) by (rewrite E; exact H).
  pose proof (seed_seeded generateId bcryptHashPassword r4ProjectId
                rebuildR4StructureDefinitions rebuildR4ValueSets
                rebuildR4SearchParameters H') as E'.
  fold seed in E'. rewrite E', E. simpl. repeat split.
Qed.

Lemma seedDatabase_idempotent_witness :
  has_user seeded_database /\
  resources (example_seed seeded_database) = resources seeded_database /\
  writes (example_seed seeded_database) = writes seeded_database /\
  next_id (example_seed seeded_database) = next_id seeded_database /\
  log (example_seed seeded_database) = log seeded_database ++ ["Already seeded"] /\
  resources (example_seed (example_seed seeded_database)) = resources seeded_database /\
  writes (example_seed (example_seed seeded_database)) = writes seeded_database.
Proof.
  assert (H : has_user seeded_database).
  { exists {| id := "id-0";
              content := User "Medplum" "Admin" "admin@example.com" "hash" |}.
    split; [vm_compute; left; reflexivity|reflexivity]. }
  split; [exact H|].
  exact (@seedDatabase_idempotent example_id (fun _ => "hash") "r4-project"
           (rebuild_one "StructureDefinition") (rebuild_one "ValueSet")
           (rebuild_one "SearchParameter") seeded_database H).
Defined.

(** The first seeding of an empty database: eight writes, the [User]
    first. *)
Example first_seeding :
  map resourceType (resources seeded_database)
    = ["User"; "Project"; "Project"; "Practitioner"; "ProjectMembership";
       "StructureDefinition"; "ValueSet"; "SearchParameter"] /\
  writes seeded_database = 8%nat /\
  writes (example_seed seeded_database) = 8%nat.
Proof. vm_compute. repeat split. Qed.

End SeedFacts.

(* ================================================================= *)
(** ** More about the reindex submission script *)

Module ReindexMore.

Import Reindex ReindexFacts.

(** *** Restarting, and the length of the windows *)

Lemma chain_suffix (cfg : Config) (pre : list (Z * Z)) :
  forall s ab post,
    chain cfg s (pre ++ ab :: post) -> chain cfg (fst ab) (ab :: post).
Proof.
  induction pre as [|x pre IH]; intros s ab post C; simpl in C.
  - destruct (chain_head C) as (e & rest & E). inversion E; subst. exact C.
  - inversion C as [s' L E|s' ws L C' E]; subst.
    + destruct pre; discriminate.
    + eapply IH; eassumption.
Qed.


(** X1. A run can be taken up again at any window boundary: within the
    range of [Date], from the start of any window of a run, the loop goes
    through that window and the ones after it, and ends, in whatever
    world and environment it is started. *)
Theorem restart_from_boundary (env : Env) (cfg : Config) (rts : list string)
    (s : Z) (ed : option Z) (w : World) :
  s < beforeDate cfg -> 0 < intervalMinutes cfg -> date_range cfg s ->
  world_ok cfg w ->
  exists ws w',
    (forall fuel, (List.length ws <= fuel)%nat ->
                  loop env cfg fuel rts (Some s) ed w = (Ok tt, w')) /\
    windows w' = windows w ++ map window ws /\
    Forall (valid_window cfg) ws /\
    forall pre b e post, ws = pre ++ (b, e) :: post ->
      forall env2 rts2 ed2 w2, world_ok cfg w2 ->
        exists w2',
          (forall fuel, (S (List.length post) <= fuel)%nat ->
                        loop env2 cfg fuel rts2 (Some b) ed2 w2 = (Ok tt, w2')) /\
          windows w2' = windows w2 ++ map window ((b, e) :: post).
Proof.
  intros B P D F.
  destruct (@loop_partition env cfg rts s ed w B P F) as (ws & w' & C & E & _ & W & _).
  exists ws, w'. split; [exact E|]. split; [exact W|].
  split; [eapply chain_valid; eassumption|].
  intros pre b e post -> env2 rts2 ed2 w2 F2.
  apply chain_suffix in C. simpl in C.
  destruct (@loop_follows_chain env2 cfg rts2 b _ C ed2 w2 F2) as (w2' & E2 & _ & W2 & _).
  exists w2'. split; [|exact W2].
  intros fuel L. eapply loop_fuel_mono; [exact E2|exact L].
Qed.

Lemma restart_from_boundary_witness :
  1744675200000 < beforeDate source_config /\
  0 < intervalMinutes source_config /\
  date_range source_config 1744675200000 /\
  world_ok source_config empty_world /\
  exists ws w',
    (forall fuel, (List.length ws <= fuel)%nat ->
                  loop (plain_env "Patient") source_config fuel ["Patient"]
                    (Some 1744675200000) None empty_world = (Ok tt, w')) /\
    windows w' = windows empty_world ++ map window ws /\
    Forall (valid_window source_config) ws /\
    forall pre b e post, ws = pre ++ (b, e) :: post ->
      forall env2 rts2 ed2 w2, world_ok source_config w2 ->
        exists w2',
          (forall fuel, (S (List.length post) <= fuel)%nat ->
                        loop env2 source_config fuel rts2 (Some b) ed2 w2 = (Ok tt, w2')) /\
          windows w2' = windows w2 ++ map window ((b, e) :: post).
Proof.
  assert (B : 1744675200000 < beforeDate source_config) by reflexivity.
  assert (P : 0 < intervalMinutes source_config) by reflexivity.
  assert (D : date_range source_config 1744675200000)
    by (repeat split; vm_compute; discriminate).
  assert (F : world_ok source_config empty_world) by (intros _ j []).
  split; [exact B|]. split; [exact P|]. split; [exact D|]. split; [exact F|].
  exact (@restart_from_boundary (plain_env "Patient") source_config ["Patient"]
           1744675200000 None empty_world B P D F).
Defined.



(** *** Edge cases of the loop *)

(** X3. The body of the [do ... while] loop runs before its test: within
    the range of [Date], from a start at or after the horizon, with a
    step that is not negative, the loop still goes through one window,
    from the start back to the horizon, and with the gate on creates an
    Async Job for it; then it ends. *)
Theorem start_past_horizon (env : Env) (cfg : Config) (rts : list string)
    (s : Z) (ed : option Z) (w : World) :
  beforeDate cfg <= s -> 0 <= intervalMinutes cfg -> date_range cfg s ->
  world_ok cfg w ->
  exists w',
    (forall fuel, (1 <= fuel)%nat ->
                  loop env cfg fuel rts (Some s) ed w = (Ok tt, w')) /\
    windows w' = windows w ++ [(Some s, Some (beforeDate cfg))] /\
    valid_window cfg (s, beforeDate cfg) /\
    (DO_ADD_JOBS cfg = false -> asyncJobs w' = asyncJobs w) /\
    (DO_ADD_JOBS cfg = true ->
     exists j, asyncJobs w' = asyncJobs w ++ [j] /\
               request j = make_url rts (Some s) (Some (beforeDate cfg))).
Proof.
  intros B P D F.
  assert (P' : 0 <= stepMs cfg) by (unfold stepMs, JsDate.msPerMinute; lia).
  destruct (@iteration_cases env cfg rts (Some s) (next_endDate cfg (Some s) ed) w F)
    as (w1 & E1 & _ & W1 & _ & _ & J).
  rewrite next_endDate_some in *. rewrite Z.min_r in * by lia.
  exists w1. split; [|split; [exact W1|split]].
  - intros [|fuel] L; [lia|].
    rewrite loop_unfold, next_endDate_some, Z.min_r by lia. rewrite E1.
    unfold loop_condition. now rewrite Z.ltb_irrefl.
  - destruct D as (Vs & Vb & _ & M & _).
    unfold valid_window, JsDate.valid, JsDate.maxTime in *. cbn [fst snd]. lia.
  - destruct J as [(G & A & _)|[(G & _ & A & _)|(G & e & _ & A & _)]].
    + split; [auto|congruence].
    + split; [congruence|]. intros _. eexists. split; [exact A|reflexivity].
    + split; [congruence|]. intros _. eexists. split; [exact A|reflexivity].
Qed.

Lemma start_past_horizon_witness :
  beforeDate zero_step_config <= 1748736000000 /\
  0 <= intervalMinutes zero_step_config /\
  date_range zero_step_config 1748736000000 /\
  world_ok zero_step_config empty_world /\
  exists w',
    (forall fuel, (1 <= fuel)%nat ->
                  loop (plain_env "Patient") zero_step_config fuel ["Patient"]
                    (Some 1748736000000) None empty_world = (Ok tt, w')) /\
    windows w' = windows empty_world
                   ++ [(Some 1748736000000, Some (beforeDate zero_step_config))] /\
    valid_window zero_step_config (1748736000000, beforeDate zero_step_config) /\
    (DO_ADD_JOBS zero_step_config = false -> asyncJobs w' = asyncJobs empty_world) /\
    (DO_ADD_JOBS zero_step_config = true ->
     exists j, asyncJobs w' = asyncJobs empty_world ++ [j] /\
               request j = make_url ["Patient"] (Some 1748736000000)
                             (Some (beforeDate zero_step_config))).
Proof.
  assert (B : beforeDate zero_step_config <= 1748736000000) by (simpl; lia).
  assert (P : 0 <= intervalMinutes zero_step_config) by (simpl; lia).
  assert (D : date_range zero_step_config 1748736000000)
    by (repeat split; vm_compute; discriminate).
  assert (F : world_ok zero_step_config empty_world) by (intros _ j []).
  split; [exact B|]. split; [exact P|]. split; [exact D|]. split; [exact F|].
  exact (@start_past_horizon (plain_env "Patient") zero_step_config ["Patient"]
           1748736000000 None empty_world B P D F).
Defined.

(** X4. With no start date the loop ends after its first iteration,
    whatever the step and the horizon: its one window has no end, the url
    logged is the resource types and an empty query, and with the gate on
    one Async Job is created, for that url. *)
Theorem no_start_single_iteration (env : Env) (cfg : Config) (rts : list string)
    (w : World) :
  world_ok cfg w ->
  exists w',
    (forall fuel, (1 <= fuel)%nat ->
                  loop env cfg fuel rts None None w = (Ok tt, w')) /\
    windows w' = windows w ++ [(None, None)] /\
    make_url rts None None = join "," rts +++ "?" /\
    (DO_ADD_JOBS cfg = false -> asyncJobs w' = asyncJobs w) /\
    (DO_ADD_JOBS cfg = true ->
     exists j, asyncJobs w' = asyncJobs w ++ [j] /\
               request j = join "," rts +++ "?").
Proof.
  intros F.
  destruct (@iteration_cases env cfg rts None None w F)
    as (w1 & E1 & _ & W1 & _ & _ & J).
  assert (U : make_url rts None None = join "," rts +++ "?") by reflexivity.
  exists w1. split; [|split; [exact W1|split; [exact U|]]].
  - intros [|fuel] L; [lia|]. rewrite loop_unfold. simpl next_endDate.
    rewrite E1. reflexivity.
  - destruct J as [(G & A & _)|[(G & _ & A & _)|(G & e & _ & A & _)]].
    + split; [auto|congruence].
    + split; [congruence|]. intros _. eexists. split; [exact A|exact U].
    + split; [congruence|]. intros _. eexists. split; [exact A|exact U].
Qed.

Lemma no_start_single_iteration_witness :
  world_ok no_start_config empty_world /\
  exists w',
    (forall fuel, (1 <= fuel)%nat ->
                  loop (plain_env "Patient,Observation") no_start_config fuel
                    ["Patient"; "Observation"] None None empty_world = (Ok tt, w')) /\
    windows w' = windows empty_world ++ [(None, None)] /\
    make_url ["Patient"; "Observation"] None None
      = join "," ["Patient"; "Observation"] +++ "?" /\
    (DO_ADD_JOBS no_start_config = false -> asyncJobs w' = asyncJobs empty_world) /\
    (DO_ADD_JOBS no_start_config = true ->
     exists j, asyncJobs w' = asyncJobs empty_world ++ [j] /\
               request j = join "," ["Patient"; "Observation"] +++ "?").
Proof.
  assert (F : world_ok no_start_config empty_world) by (intros _ j []).
  split; [exact F|].
  exact (@no_start_single_iteration (plain_env "Patient,Observation") no_start_config
           ["Patient"; "Observation"] empty_world F).
Defined.

(** *** What a run never does *)






(** *** The Async Jobs of a run and the urls it logs *)

Lemma loop_jobs (env : Env) (cfg : Config) (rts : list string)
    (fuel : nat) (sd ed : option Z) (w : World) (r : Res unit) (w' : World) :
  DO_ADD_JOBS cfg = true -> store_fresh w ->
  loop env cfg fuel rts sd ed w = (r, w') ->
  exists ws js,
    windows w' = windows w ++ ws /\
    asyncJobs w' = asyncJobs w ++ js /\
    List.length js = List.length ws /\
    map request js = map (fun ab => make_url rts (fst ab) (snd ab)) ws /\
    Forall (fun j => status j = ACCEPTED \/ status j = FAILED) js.
Proof.
  intros G F E.
  pose (Post := fun w1 : World =>
    exists ws js,
      windows w1 = windows w ++ ws /\
      asyncJobs w1 = asyncJobs w ++ js /\
      List.length js = List.length ws /\
      map request js = map (fun ab => make_url rts (fst ab) (snd ab)) ws /\
      Forall (fun j => status j = ACCEPTED \/ status j = FAILED) js).
  assert (R : (r = Ok tt \/ r = OutOfFuel) /\ world_ok cfg w' /\ Post w').
  { apply (@loop_inv env cfg rts (fun _ _ => Post) Post) with (fuel := fuel) (sd := sd)
      (ed := ed) (w := w); trivial.
    - intros sd1 ed1 w1 w2 F1 (ws & js & W & A & L & Rq & St) E1.
      apply iteration_result in E1; [|exact F1].
      destruct E1 as (W1 & _ & _ & J).
      assert (P2 : Post w2).
      { assert (Step : forall st e, st = ACCEPTED \/ st = FAILED ->
          asyncJobs w2 = asyncJobs w1 ++ [new_job rts sd1 (next_endDate cfg sd1 ed1) w1 st e] ->
          Post w2).
        { intros st e Hst A1.
          exists (ws ++ [(sd1, next_endDate cfg sd1 ed1)]), (js ++ [new_job rts sd1 (next_endDate cfg sd1 ed1) w1 st e]).
          split; [rewrite W1, W, <- app_assoc; reflexivity|].
          split; [rewrite A1, A, <- app_assoc; reflexivity|].
          split; [rewrite !length_app; simpl; lia|].
          split; [rewrite !map_app, Rq; reflexivity|].
          apply Forall_app. split; [exact St|]. constructor; [exact Hst|constructor]. }
        destruct J as [(G' & _)|[(_ & _ & A1 & _)|(_ & e1 & _ & A1 & _)]];
          [congruence| |]; (eapply Step; [|exact A1]); auto. }
      auto.
    - intros _. exact F.
    - exists [], []. rewrite !app_nil_r. repeat split. constructor. }
  destruct R as (_ & _ & P). exact P.
Qed.

(** X6. In a run with the gate on, the Async Jobs created are one per
    window, in the order of the windows, whether the enqueue of a window
    goes through or fails: the request of each is the url of its window
    and each is left [ACCEPTED] or [FAILED]; the jobs the store held
    before are as they were. *)
Theorem jobs_follow_windows (env : Env) (cfg : Config) (rts : list string)
    (fuel : nat) (sd ed : option Z) (w : World) :
  DO_ADD_JOBS cfg = true -> store_fresh w ->
  exists ws js,
    windows (snd (loop env cfg fuel rts sd ed w)) = windows w ++ ws /\
    asyncJobs (snd (loop env cfg fuel rts sd ed w)) = asyncJobs w ++ js /\
    List.length js = List.length ws /\
    map request js = map (fun ab => make_url rts (fst ab) (snd ab)) ws /\
    Forall (fun j => status j = ACCEPTED \/ status j = FAILED) js.
Proof.
  intros G F.
  destruct (loop env cfg fuel rts sd ed w) as [r w'] eqn:E.
  exact (@loop_jobs env cfg rts fuel sd ed w r w' G F E).
Qed.

Lemma jobs_follow_windows_witness :
  DO_ADD_JOBS submit_config = true /\
  store_fresh empty_world /\
  exists ws js,
    windows (snd (loop flaky_env submit_config 5 ["Patient"] (Some 1744675200000)
                    None empty_world)) = windows empty_world ++ ws /\
    asyncJobs (snd (loop flaky_env submit_config 5 ["Patient"] (Some 1744675200000)
                      None empty_world)) = asyncJobs empty_world ++ js /\
    List.length js = List.length ws /\
    map request js = map (fun ab => make_url ["Patient"] (fst ab) (snd ab)) ws /\
    Forall (fun j => status j = ACCEPTED \/ status j = FAILED) js.
Proof.
  assert (G : DO_ADD_JOBS submit_config = true) by reflexivity.
  assert (F : store_fresh empty_world) by (intros j []).
  split; [exact G|]. split; [exact F|].
  exact (@jobs_follow_windows flaky_env submit_config ["Patient"] 5
           (Some 1744675200000) None empty_world G F).
Defined.

Lemma next_endDate_agree (cfg1 cfg2 : Config) (sd ed : option Z) :
  beforeDate cfg1 = beforeDate cfg2 -> intervalMinutes cfg1 = intervalMinutes cfg2 ->
  next_endDate cfg1 sd ed = next_endDate cfg2 sd ed.
Proof. intros B I. unfold next_endDate. now rewrite B, I. Qed.

(** The windows of a run depend on the dates and the step only. *)
Lemma loop_windows_agree (env1 env2 : Env) (cfg1 cfg2 : Config)
    (rts1 rts2 : list string) (fuel : nat) :
  beforeDate cfg1 = beforeDate cfg2 -> intervalMinutes cfg1 = intervalMinutes cfg2 ->
  forall sd ed w1 w2,
    world_ok cfg1 w1 -> world_ok cfg2 w2 ->
    fst (loop env1 cfg1 fuel rts1 sd ed w1) = fst (loop env2 cfg2 fuel rts2 sd ed w2) /\
    exists ws,
      windows (snd (loop env1 cfg1 fuel rts1 sd ed w1)) = windows w1 ++ ws /\
      windows (snd (loop env2 cfg2 fuel rts2 sd ed w2)) = windows w2 ++ ws.
Proof.
  intros B I. induction fuel as [|fuel IH]; intros sd ed w1 w2 F1 F2.
  - simpl. split; [reflexivity|]. exists []. now rewrite !app_nil_r.
  - rewrite !loop_unfold.
    destruct (@iteration_cases env1 cfg1 rts1 sd (next_endDate cfg1 sd ed) w1 F1)
      as (v1 & E1 & G1 & W1 & _).
    destruct (@iteration_cases env2 cfg2 rts2 sd (next_endDate cfg2 sd ed) w2 F2)
      as (v2 & E2 & G2 & W2 & _).
    rewrite E1, E2.
    rewrite <- (next_endDate_agree cfg1 cfg2 sd ed B I) in *.
    assert (C : loop_condition cfg2 (next_endDate cfg1 sd ed)
                = loop_condition cfg1 (next_endDate cfg1 sd ed))
      by (unfold loop_condition; now rewrite B).
    rewrite C. destruct (loop_condition cfg1 (next_endDate cfg1 sd ed)).
    + destruct (IH (next_endDate cfg1 sd ed) (next_endDate cfg1 sd ed) v1 v2 G1 G2)
        as (R & ws & V1 & V2).
      split; [exact R|]. exists ((sd, next_endDate cfg1 sd ed) :: ws).
      rewrite V1, V2, W1, W2, <- !app_assoc. auto.
    + simpl. split; [reflexivity|]. exists [(sd, next_endDate cfg1 sd ed)]. auto.
Qed.

(** X7. A dry run previews the run that submits: with the same dates and
    step and the same fuel, the run with the gate off and the run with the
    gate on end the same way and go through the same windows, and the urls
    the first logs are, in order, the requests of the Async Jobs the second
    creates, whichever enqueues fail. *)
Theorem dry_run_previews (env1 env2 : Env) (dry sub : Config) (rts : list string)
    (fuel : nat) (sd ed : option Z) (w1 w2 : World) :
  DO_ADD_JOBS dry = false -> DO_ADD_JOBS sub = true ->
  beforeDate dry = beforeDate sub -> intervalMinutes dry = intervalMinutes sub ->
  store_fresh w2 ->
  fst (loop env1 dry fuel rts sd ed w1) = fst (loop env2 sub fuel rts sd ed w2) /\
  exists ws js,
    windows (snd (loop env1 dry fuel rts sd ed w1)) = windows w1 ++ ws /\
    windows (snd (loop env2 sub fuel rts sd ed w2)) = windows w2 ++ ws /\
    stdout (snd (loop env1 dry fuel rts sd ed w1)) = stdout w1 ++ map (url_line rts) ws /\
    asyncJobs (snd (loop env2 sub fuel rts sd ed w2)) = asyncJobs w2 ++ js /\
    map (fun j => LogText (request j)) js = map (url_line rts) ws.
Proof.
  intros G1 G2 B I F2.
  assert (K1 : world_ok dry w1) by (intros H; congruence).
  assert (K2 : world_ok sub w2) by (intros _; exact F2).
  destruct (@loop_windows_agree env1 env2 dry sub rts rts fuel B I sd ed w1 w2 K1 K2)
    as (R & ws & V1 & V2).
  split; [exact R|].
  destruct (loop env1 dry fuel rts sd ed w1) as [r1 v1] eqn:E1.
  destruct (loop env2 sub fuel rts sd ed w2) as [r2 v2] eqn:E2.
  simpl in *.
  destruct (@loop_dry env1 dry rts G1 _ _ _ _ _ _ E1) as (_ & _ & _ & _ & _ & ws1 & W1 & O1).
  destruct (@loop_jobs env2 sub rts fuel sd ed w2 r2 v2 G2 F2 E2) as (ws2 & js & W2 & A2 & _ & Rq & _).
  assert (ws1 = ws) by (rewrite V1 in W1; now apply app_inv_head in W1).
  assert (ws2 = ws) by (rewrite V2 in W2; now apply app_inv_head in W2).
  subst ws1 ws2. exists ws, js. repeat split; trivial.
  unfold url_line. rewrite <- (map_map request LogText), Rq, map_map. reflexivity.
Qed.

Lemma dry_run_previews_witness :
  DO_ADD_JOBS source_config = false /\ DO_ADD_JOBS submit_config = true /\
  beforeDate source_config = beforeDate submit_config /\
  intervalMinutes source_config = intervalMinutes submit_config /\
  store_fresh empty_world /\
  fst (loop (plain_env "Patient") source_config 5 ["Patient"] (Some 1744675200000)
         None empty_world)
  = fst (loop flaky_env submit_config 5 ["Patient"] (Some 1744675200000)
           None empty_world) /\
  exists ws js,
    windows (snd (loop (plain_env "Patient") source_config 5 ["Patient"]
                    (Some 1744675200000) None empty_world)) = windows empty_world ++ ws /\
    windows (snd (loop flaky_env submit_config 5 ["Patient"]
                    (Some 1744675200000) None empty_world)) = windows empty_world ++ ws /\
    stdout (snd (loop (plain_env "Patient") source_config 5 ["Patient"]
                   (Some 1744675200000) None empty_world))
      = stdout empty_world ++ map (url_line ["Patient"]) ws /\
    asyncJobs (snd (loop flaky_env submit_config 5 ["Patient"]
                      (Some 1744675200000) None empty_world)) = asyncJobs empty_world ++ js /\
    map (fun j => LogText (request j)) js = map (url_line ["Patient"]) ws.
Proof.
  assert (G1 : DO_ADD_JOBS source_config = false) by reflexivity.
  assert (G2 : DO_ADD_JOBS submit_config = true) by reflexivity.
  assert (B : beforeDate source_config = beforeDate submit_config) by reflexivity.
  assert (I : intervalMinutes source_config = intervalMinutes submit_config) by reflexivity.
  assert (F : store_fresh empty_world) by (intros j []).
  split; [exact G1|]. split; [exact G2|]. split; [exact B|]. split; [exact I|].
  split; [exact F|].
  exact (@dry_run_previews (plain_env "Patient") flaky_env source_config submit_config
           ["Patient"] 5 (Some 1744675200000) None empty_world empty_world G1 G2 B I F).
Defined.

End ReindexMore.

(* ================================================================= *)
(** ** More about the seeding *)

Module SeedMore.

Import Seed Shards SeedFacts.

Section Seeding.

Variable generateId : nat -> string.
Variable bcryptHashPassword : string -> string.
Variable r4ProjectId : string.
Variable rebuildR4StructureDefinitions : Database -> Database.
Variable rebuildR4ValueSets : Database -> Database.
Variable rebuildR4SearchParameters : Database -> Database.

Let seed : Database -> Database :=
  seedDatabase generateId bcryptHashPassword r4ProjectId
    rebuildR4StructureDefinitions rebuildR4ValueSets rebuildR4SearchParameters.

(** *** References *)

Lemma resolves_create (c : Content) (d d' : Database) (r : Resource) (ref type : string) :
  createResource generateId c d = (r, d') -> resolves ref type d -> resolves ref type d'.
Proof.
  intros E (x & Hin & Ht & Hr). inversion E; subst. exists x.
  split; [simpl; apply in_or_app; now left|auto].
Qed.

Lemma resolves_created (c : Content) (d d' : Database) (r : Resource) :
  createResource generateId c d = (r, d') ->
  In r (resources d') /\ content r = c /\
  resolves (createReference r) (resourceType r) d'.
Proof.
  intros E. inversion E; subst. simpl.
  assert (H : In {| id := generateId (next_id d); content := c |}
                 (resources d ++ [{| id := generateId (next_id d); content := c |}]))
    by (apply in_or_app; right; now left).
  split; [exact H|]. split; [reflexivity|]. eexists. split; [exact H|]. auto.
Qed.

Lemma update_keeps (r x : Resource) (d : Database) :
  In x (resources d) ->
  exists x', In x' (resources (updateResource r d)) /\
             resourceType x' = resourceType x /\ id x' = id x /\
             (same_resource r x = false -> x' = x).
Proof.
  intros Hin. unfold updateResource. simpl.
  destruct (existsb (same_resource r) (resources d)).
  - exists (if same_resource r x then r else x). split.
    + apply in_map_iff. exists x. auto.
    + destruct (same_resource r x) eqn:E; [|auto].
      unfold same_resource in E. apply andb_prop in E. destruct E as [E1 E2].
      apply String.eqb_eq in E1. apply String.eqb_eq in E2.
      repeat split; trivial. discriminate.
  - exists x. split; [apply in_or_app; now left|auto].
Qed.

Lemma resolves_update (r : Resource) (d : Database) (ref type : string) :
  resolves ref type d -> resolves ref type (updateResource r d).
Proof.
  intros (x & Hin & Ht & Hr).
  destruct (update_keeps r x d Hin) as (x' & Hin' & Ht' & Hid' & _).
  exists x'. split; [exact Hin'|]. split; [congruence|].
  unfold createReference in *. now rewrite Ht', Hid'.
Qed.

Lemma updated_present (r : Resource) (d : Database) :
  In r (resources (updateResource r d)).
Proof.
  unfold updateResource. simpl.
  destruct (existsb (same_resource r) (resources d)) eqn:E.
  - apply existsb_exists in E. destruct E as (x & Hin & Hs).
    apply in_map_iff. exists x. rewrite Hs. auto.
  - apply in_or_app. right. now left.
Qed.

Lemma created_keeps (c : Content) (d d' : Database) (r x : Resource) :
  createResource generateId c d = (r, d') -> In x (resources d) -> In x (resources d').
Proof.
  intros E Hin. inversion E; subst. simpl. apply in_or_app. now left.
Qed.

Lemma create_counts (c : Content) (d d' : Database) (r : Resource) :
  createResource generateId c d = (r, d') ->
  writes d' = S (writes d) /\ next_id d' = S (next_id d).
Proof. intros E. inversion E; subst. auto. Qed.

(** X8. [createSuperAdmin] makes five writes and takes four ids.  After
    it the database holds the R4 project under its fixed id and a project
    membership, with [admin] set, whose project, user and profile
    references each resolve to a resource of the database, of type
    [Project], [User] and [Practitioner]; the practitioner is filed under
    the project the membership refers to. *)
Theorem createSuperAdmin_links (d : Database) :
  let d' := createSuperAdmin generateId bcryptHashPassword r4ProjectId d in
  writes d' = (writes d + 5)%nat /\
  next_id d' = (next_id d + 4)%nat /\
  In {| id := r4ProjectId; content := Project "FHIR R4" None None None |} (resources d') /\
  exists m prj usr prf pid,
    In m (resources d') /\
    content m = ProjectMembership prj usr prf true /\
    resolves prj "Project" d' /\
    resolves usr "User" d' /\
    resolves prf "Practitioner" d' /\
    (exists pr, In pr (resources d') /\ createReference pr = prf /\
                content pr = Practitioner pid "Medplum" "Admin" "admin@example.com") /\
    (exists p, In p (resources d') /\ createReference p = prj /\ id p = pid).
Proof.
  unfold createSuperAdmin.
  destruct (createResource generateId
              (User "Medplum" "Admin" "admin@example.com"
                 (bcryptHashPassword "medplum_admin")) d) as [superAdmin d1] eqn:E1.
  destruct (createResource generateId
              (Project "Super Admin" (Some (createReference superAdmin))
                 (Some true) (Some true)) d1) as [superAdminProject d2] eqn:E2.
  set (r4 := {| id := r4ProjectId; content := Project "FHIR R4" None None None |}).
  destruct (createResource generateId
              (Practitioner (id superAdminProject) "Medplum" "Admin" "admin@example.com")
              (updateResource r4 d2)) as [practitioner d3] eqn:E3.
  destruct (createResource generateId
              (ProjectMembership (createReference superAdminProject)
                 (createReference superAdmin) (createReference practitioner) true) d3)
    as [membership d4] eqn:E4.
  cbv zeta.
  destruct (create_counts E1) as [C1 N1]. destruct (create_counts E2) as [C2 N2].
  destruct (create_counts E3) as [C3 N3]. destruct (create_counts E4) as [C4 N4].
  assert (CU : writes (updateResource r4 d2) = S (writes d2) /\
               next_id (updateResource r4 d2) = next_id d2) by (split; reflexivity).
  destruct CU as [CU NU].
  split; [lia|]. split; [lia|].
  split.
  { eapply created_keeps; [exact E4|]. eapply created_keeps; [exact E3|].
    apply updated_present. }
  destruct (resolves_created E1) as (_ & K1 & R1).
  destruct (resolves_created E2) as (I2 & K2 & R2).
  destruct (resolves_created E3) as (I3 & K3 & R3).
  destruct (resolves_created E4) as (I4 & K4 & _).
  assert (T1 : resourceType superAdmin = "User") by (unfold resourceType; now rewrite K1).
  assert (T2 : resourceType superAdminProject = "Project")
    by (unfold resourceType; now rewrite K2).
  assert (T3 : resourceType practitioner = "Practitioner")
    by (unfold resourceType; now rewrite K3).
  rewrite T1 in R1. rewrite T2 in R2. rewrite T3 in R3.
  exists membership, (createReference superAdminProject), (createReference superAdmin),
    (createReference practitioner), (id superAdminProject).
  split; [exact I4|]. split; [exact K4|].
  split.
  { eapply resolves_create; [exact E4|]. eapply resolves_create; [exact E3|].
    apply resolves_update. exact R2. }
  split.
  { eapply resolves_create; [exact E4|]. eapply resolves_create; [exact E3|].
    apply resolves_update. eapply resolves_create; [exact E2|]. exact R1. }
  split.
  { eapply resolves_create; [exact E4|]. exact R3. }
  split.
  { exists practitioner. split; [eapply created_keeps; [exact E4|exact I3]|]. auto. }
  destruct (update_keeps r4 superAdminProject d2 I2) as (p & Hp & Tp & Ip & _).
  exists p. split.
  { eapply created_keeps; [exact E4|]. eapply created_keeps; [exact E3|]. exact Hp. }
  split; [|exact Ip]. unfold createReference. now rewrite Tp, Ip.
Qed.

(** X9. After [seedDatabase] the database is seeded, whatever it held
    before, when the rebuild functions do not remove the last [User]: the
    check of the next run finds a [User]. *)
Theorem seedDatabase_seeds (d : Database) :
  rebuilds_keep_users rebuildR4StructureDefinitions rebuildR4ValueSets
    rebuildR4SearchParameters ->
  exists u, isSeeded (seed d) = Some u /\ resourceType u = "User" /\
            In u (resources (seed d)).
Proof.
  intros (H1 & H2 & H3).
  assert (H : has_user (seed d)) by (apply has_user_seeded; assumption).
  apply isSeeded_has_user in H.
  destruct (isSeeded (seed d)) as [u|] eqn:E; [|now destruct H].
  exists u. split; [reflexivity|].
  unfold isSeeded, searchOne in E. apply find_some in E. destruct E as [Hin Ht].
  split; [now apply String.eqb_eq|exact Hin].
Qed.

End Seeding.

Lemma rebuild_one_keeps_users (type : string) (x : Database) :
  has_user x -> has_user (rebuild_one type x).
Proof.
  intros (u & Hin & Ht). exists u. split; [|exact Ht].
  unfold rebuild_one. simpl. apply in_or_app. now left.
Qed.

Lemma example_rebuilds_keep_users :
  rebuilds_keep_users (rebuild_one "StructureDefinition") (rebuild_one "ValueSet")
    (rebuild_one "SearchParameter").
Proof. repeat split; apply rebuild_one_keeps_users. Qed.

Lemma seedDatabase_seeds_witness :
  rebuilds_keep_users (rebuild_one "StructureDefinition") (rebuild_one "ValueSet")
    (rebuild_one "SearchParameter") /\
  exists u, isSeeded (example_seed empty_database) = Some u /\
            resourceType u = "User" /\
            In u (resources (example_seed empty_database)).
Proof.
  split; [exact example_rebuilds_keep_users|].
  exact (@seedDatabase_seeds example_id (fun _ => "hash") "r4-project"
           (rebuild_one "StructureDefinition") (rebuild_one "ValueSet")
           (rebuild_one "SearchParameter") empty_database example_rebuilds_keep_users).
Defined.

(** *** All the shards *)

Lemma set_pool_same (p : Pools) (k : string) (d : Database) :
  set_pool p k d k = d.
Proof. unfold set_pool. now rewrite String.eqb_refl. Qed.

Lemma set_pool_other (p : Pools) (k k' : string) (d : Database) :
  k <> k' -> set_pool p k d k' = p k'.
Proof.
  intros N. unfold set_pool. destruct (String.eqb k k') eqn:E; [|reflexivity].
  apply String.eqb_eq in E. contradiction.
Qed.

Lemma has_user_resources (a b : Database) :
  resources a = resources b -> has_user a -> has_user b.
Proof. unfold has_user. intros E H. now rewrite <- E. Qed.

Section Shards.

Variable generateId : nat -> string.
Variable bcryptHashPassword : string -> string.
Variable r4ProjectId : string.
Variable rebuildR4StructureDefinitions : Database -> Database.
Variable rebuildR4ValueSets : Database -> Database.
Variable rebuildR4SearchParameters : Database -> Database.

Hypothesis keep :
  rebuilds_keep_users rebuildR4StructureDefinitions rebuildR4ValueSets
    rebuildR4SearchParameters.

Let seed : Database -> Database :=
  seedDatabase generateId bcryptHashPassword r4ProjectId
    rebuildR4StructureDefinitions rebuildR4ValueSets rebuildR4SearchParameters.

Let pool : Pools -> option string -> Pools :=
  seed_pool generateId bcryptHashPassword r4ProjectId
    rebuildR4StructureDefinitions rebuildR4ValueSets rebuildR4SearchParameters.

Let shards : list string -> Pools -> Pools :=
  seed_shards generateId bcryptHashPassword r4ProjectId
    rebuildR4StructureDefinitions rebuildR4ValueSets rebuildR4SearchParameters.

Lemma seed_has_user (d : Database) : has_user (seed d).
Proof. destruct keep as (H1 & H2 & H3). apply has_user_seeded; assumption. Qed.

Lemma pool_at (p : Pools) (k : option string) :
  pool p k (shard_of k) = seed (p (shard_of k)).
Proof. apply set_pool_same. Qed.

Lemma pool_off (p : Pools) (k : option string) (k' : string) :
  shard_of k <> k' -> pool p k k' = p k'.
Proof. apply set_pool_other. Qed.

Lemma pool_keeps_user (p : Pools) (k : option string) (k' : string) :
  has_user (p k') -> has_user (pool p k k').
Proof.
  intros H. destruct (String.eqb (shard_of k) k') eqn:E.
  - apply String.eqb_eq in E. subst. rewrite pool_at. apply seed_has_user.
  - apply String.eqb_neq in E. now rewrite pool_off.
Qed.

Lemma shards_untouched (names : list string) :
  forall p k, (forall n, In n names -> n <> "global" -> k <> n) ->
              shards names p k = p k.
Proof.
  induction names as [|m rest IH]; intros p k H; [reflexivity|].
  unfold shards in *. simpl. destruct (String.eqb m "global") eqn:E.
  - apply IH. intros n Hn. apply H. now right.
  - apply String.eqb_neq in E. rewrite IH by (intros n Hn; apply H; now right).
    apply pool_off. simpl. intros Hk. apply (H m); auto. now left.
Qed.

Lemma shards_keep_user (names : list string) :
  forall p k, has_user (p k) -> has_user (shards names p k).
Proof.
  induction names as [|m rest IH]; intros p k H; [exact H|].
  unfold shards in *. simpl. destruct (String.eqb m "global"); [now apply IH|].
  apply IH. now apply pool_keeps_user.
Qed.

Lemma shards_seed (names : list string) :
  forall p n, In n names -> n <> "global" -> has_user (shards names p n).
Proof.
  induction names as [|m rest IH]; intros p n Hin Hn; [now destruct Hin|].
  unfold shards in *. simpl. destruct (String.eqb m "global") eqn:E.
  - apply String.eqb_eq in E. destruct Hin as [->|Hin]; [contradiction|now apply IH].
  - destruct (String.eqb m n) eqn:En.
    + apply String.eqb_eq in En. subst m.
      apply (shards_keep_user rest). fold pool.
      change n with (shard_of (Some n)) at 2. rewrite pool_at. apply seed_has_user.
    + apply String.eqb_neq in En. destruct Hin as [->|Hin]; [contradiction|now apply IH].
Qed.

Lemma pool_seeded (p : Pools) (k : option string) :
  has_user (p (shard_of k)) ->
  forall k', resources (pool p k k') = resources (p k') /\
             writes (pool p k k') = writes (p k').
Proof.
  intros H k'. destruct (String.eqb (shard_of k) k') eqn:E.
  - apply String.eqb_eq in E. subst. rewrite pool_at. unfold seed.
    rewrite seed_seeded by exact H. auto.
  - apply String.eqb_neq in E. rewrite pool_off; auto.
Qed.

Lemma shards_seeded (names : list string) :
  forall p, (forall n, In n names -> n <> "global" -> has_user (p n)) ->
            forall k, resources (shards names p k) = resources (p k) /\
                      writes (shards names p k) = writes (p k).
Proof.
  induction names as [|m rest IH]; intros p H k; [auto|].
  unfold shards in *. simpl. destruct (String.eqb m "global") eqn:E.
  - apply IH. intros n Hn. apply H. now right.
  - apply String.eqb_neq in E.
    assert (Hm : has_user (p m)) by (apply H; [now left|exact E]).
    destruct (IH (pool p (Some m))) with (k := k) as [R W].
    { intros n Hn Ng. apply pool_keeps_user. apply H; [now right|exact Ng]. }
    destruct (pool_seeded p (Some m) Hm k) as [R' W']. unfold pool in *. split; congruence.
Qed.

End Shards.

(** After a first [seedDatabases]: the databases it went to are seeded. *)
Lemma seedDatabases_first
    (generateId : nat -> string) (bcryptHashPassword : string -> string)
    (r4ProjectId : string)
    (rebuildR4StructureDefinitions rebuildR4ValueSets rebuildR4SearchParameters :
       Database -> Database)
    (shardNames : list string) (p : Pools) :
  rebuilds_keep_users rebuildR4StructureDefinitions rebuildR4ValueSets
    rebuildR4SearchParameters ->
  let p' := seedDatabases generateId bcryptHashPassword r4ProjectId
              rebuildR4StructureDefinitions rebuildR4ValueSets
              rebuildR4SearchParameters shardNames p in
  has_user (p' "global") /\
  (forall n, In n shardNames -> has_user (p' n)).
Proof.
  intros keep p'.
  assert (U0 : has_user (p' "global")).
  { unfold p', seedDatabases. apply shards_keep_user; [exact keep|].
    unfold seed_pool. simpl shard_of. rewrite set_pool_same.
    destruct keep as (H1 & H2 & H3). apply has_user_seeded; assumption. }
  split; [exact U0|].
  intros n Hin. destruct (String.eqb n "global") eqn:E.
  - apply String.eqb_eq in E. now subst.
  - apply String.eqb_neq in E. unfold p', seedDatabases. apply shards_seed; assumption.
Qed.

(** X10. After [seedDatabases] the database of the pool taken without a
    shard name, which is that of the [global] shard, and the database of
    every shard of the configuration are seeded, when the rebuild
    functions do not remove the last [User]; the databases of the shards
    other than [global] that the configuration does not name are as they
    were. *)
Theorem seedDatabases_seeds_all
    (generateId : nat -> string) (bcryptHashPassword : string -> string)
    (r4ProjectId : string)
    (rebuildR4StructureDefinitions rebuildR4ValueSets rebuildR4SearchParameters :
       Database -> Database)
    (shardNames : list string) (p : Pools) :
  rebuilds_keep_users rebuildR4StructureDefinitions rebuildR4ValueSets
    rebuildR4SearchParameters ->
  let p' := seedDatabases generateId bcryptHashPassword r4ProjectId
              rebuildR4StructureDefinitions rebuildR4ValueSets
              rebuildR4SearchParameters shardNames p in
  has_user (getDatabasePool p' None) /\
  (forall n, In n shardNames -> has_user (getDatabasePool p' (Some n))) /\
  (forall n, n <> "global" -> ~ In n shardNames ->
             getDatabasePool p' (Some n) = getDatabasePool p (Some n)).
Proof.
  intros keep p'.
  destruct (@seedDatabases_first generateId bcryptHashPassword r4ProjectId
              rebuildR4StructureDefinitions rebuildR4ValueSets
              rebuildR4SearchParameters shardNames p keep) as (U0 & Un).
  split; [exact U0|]. split; [exact Un|].
  unfold p', seedDatabases, getDatabasePool. simpl shard_of.
  intros n Ng Hn. rewrite shards_untouched.
  - unfold seed_pool. apply set_pool_other. simpl. congruence.
  - intros m Hm _ E. subst. contradiction.
Qed.

Lemma seedDatabases_seeds_all_witness :
  rebuilds_keep_users (rebuild_one "StructureDefinition") (rebuild_one "ValueSet")
    (rebuild_one "SearchParameter") /\
  has_user (getDatabasePool (example_seedDatabases ["global"; "shard1"] empty_pools) None) /\
  (forall n, In n ["global"; "shard1"] ->
             has_user (getDatabasePool
                         (example_seedDatabases ["global"; "shard1"] empty_pools) (Some n))) /\
  (forall n, n <> "global" -> ~ In n ["global"; "shard1"] ->
             getDatabasePool (example_seedDatabases ["global"; "shard1"] empty_pools) (Some n)
             = getDatabasePool empty_pools (Some n)).
Proof.
  split; [exact example_rebuilds_keep_users|].
  exact (@seedDatabases_seeds_all example_id (fun _ => "hash") "r4-project"
           (rebuild_one "StructureDefinition") (rebuild_one "ValueSet")
           (rebuild_one "SearchParameter") ["global"; "shard1"] empty_pools
           example_rebuilds_keep_users).
Defined.

(** X11. A second [seedDatabases] writes nothing: in every database the
    resources and the number of writes are as the first left them, when
    the rebuild functions do not remove the last [User]. *)
Theorem seedDatabases_idempotent
    (generateId : nat -> string) (bcryptHashPassword : string -> string)
    (r4ProjectId : string)
    (rebuildR4StructureDefinitions rebuildR4ValueSets rebuildR4SearchParameters :
       Database -> Database)
    (shardNames : list string) (p : Pools) :
  rebuilds_keep_users rebuildR4StructureDefinitions rebuildR4ValueSets
    rebuildR4SearchParameters ->
  let run := seedDatabases generateId bcryptHashPassword r4ProjectId
               rebuildR4StructureDefinitions rebuildR4ValueSets
               rebuildR4SearchParameters shardNames in
  forall k, resources (run (run p) k) = resources (run p k) /\
            writes (run (run p) k) = writes (run p k).
Proof.
  intros keep run k.
  destruct (@seedDatabases_first generateId bcryptHashPassword r4ProjectId
              rebuildR4StructureDefinitions rebuildR4ValueSets
              rebuildR4SearchParameters shardNames p keep) as (U0 & Un).
  fold run in U0, Un.
  destruct (@shards_seeded generateId bcryptHashPassword r4ProjectId
              rebuildR4StructureDefinitions rebuildR4ValueSets
              rebuildR4SearchParameters keep shardNames
              (seed_pool generateId bcryptHashPassword r4ProjectId
                 rebuildR4StructureDefinitions rebuildR4ValueSets
                 rebuildR4SearchParameters (run p) None)) with (k := k) as [R W].
  { intros n Hin Ng. apply pool_keeps_user; [exact keep|]. now apply Un. }
  destruct (@pool_seeded generateId bcryptHashPassword r4ProjectId
              rebuildR4StructureDefinitions rebuildR4ValueSets
              rebuildR4SearchParameters (run p) None U0 k) as [R' W'].
  split; [exact (eq_trans R R')|exact (eq_trans W W')].
Qed.

Lemma seedDatabases_idempotent_witness :
  rebuilds_keep_users (rebuild_one "StructureDefinition") (rebuild_one "ValueSet")
    (rebuild_one "SearchParameter") /\
  forall k,
    resources (example_seedDatabases ["global"; "shard1"]
                 (example_seedDatabases ["global"; "shard1"] empty_pools) k)
    = resources (example_seedDatabases ["global"; "shard1"] empty_pools k) /\
    writes (example_seedDatabases ["global"; "shard1"]
              (example_seedDatabases ["global"; "shard1"] empty_pools) k)
    = writes (example_seedDatabases ["global"; "shard1"] empty_pools k).
Proof.
  split; [exact example_rebuilds_keep_users|].
  exact (@seedDatabases_idempotent example_id (fun _ => "hash") "r4-project"
           (rebuild_one "StructureDefinition") (rebuild_one "ValueSet")
           (rebuild_one "SearchParameter") ["global"; "shard1"] empty_pools
           example_rebuilds_keep_users).
Defined.

End SeedMore.

(* ================================================================= *)
(** ** Facts about the active link of the navigation bar *)

Module NavbarFacts.

Import Navbar.

Lemma has_value_spec (params : list (string * string)) (k v : string) :
  has_value params k v = true <-> get k params = Some v.
Proof.
  unfold has_value. destruct (get k params) as [x|]; split; try discriminate.
  - intros H. apply String.eqb_eq in H. now subst.
  - intros H. inversion H. apply String.eqb_refl.
Qed.

Lemma get_counted (k : string) (params : list (string * string)) :
  ignored k = false -> get k (counted params) = get k params.
Proof.
  intros N. induction params as [|[a b] rest IH]; [reflexivity|].
  unfold counted in *. simpl. destruct (ignored a) eqn:E; simpl.
  - rewrite IH. destruct (String.eqb a k) eqn:Ek; [|reflexivity].
    apply String.eqb_eq in Ek. congruence.
  - now rewrite IH.
Qed.

Lemma has_value_counted (k v : string) (params : list (string * string)) :
  ignored k = false -> has_value (counted params) k v = has_value params k v.
Proof. intros N. unfold has_value. now rewrite get_counted. Qed.

Lemma link_params_match_spec (cur lp : list (string * string)) :
  link_params_match cur lp = true <->
  forall k v, In (k, v) lp -> ignored k = false -> get k cur = Some v.
Proof.
  induction lp as [|[a b] rest IH]; simpl.
  - split; [intros _ k v []|reflexivity].
  - destruct (ignored a) eqn:E.
    + rewrite IH. split.
      * intros H k v [Hin|Hin] N; [inversion Hin; congruence|now apply H].
      * intros H k v Hin. apply H. now right.
    + destruct (has_value cur a b) eqn:V; simpl.
      * apply has_value_spec in V. rewrite IH. split.
        -- intros H k v [Hin|Hin] N; [inversion Hin; now subst|now apply H].
        -- intros H k v Hin. apply H. now right.
      * split; [discriminate|]. intros H.
        assert (get a cur = Some b) by (apply H; [now left|exact E]).
        apply has_value_spec in H0. congruence.
Qed.

Lemma link_params_match_cur (cur lp : list (string * string)) :
  link_params_match (counted cur) lp = link_params_match cur lp.
Proof.
  induction lp as [|[a b] rest IH]; simpl; [reflexivity|].
  destruct (ignored a) eqn:E; [exact IH|].
  now rewrite has_value_counted, IH.
Qed.

Lemma link_params_match_link (cur lp : list (string * string)) :
  link_params_match cur (counted lp) = link_params_match cur lp.
Proof.
  induction lp as [|[a b] rest IH]; [reflexivity|].
  unfold counted in *. simpl. destruct (ignored a) eqn:E; simpl; [exact IH|].
  now rewrite E, IH.
Qed.

Lemma count_matches_cur (lp : list (string * string)) (cur : list (string * string)) :
  forall c, count_matches lp c (counted cur) = count_matches lp c cur.
Proof.
  induction cur as [|[a b] rest IH]; intros c; [reflexivity|].
  unfold counted in *. simpl. destruct (ignored a) eqn:E; simpl; [apply IH|].
  rewrite E. destruct (has_value lp a b); apply IH.
Qed.

Lemma count_matches_link (lp : list (string * string)) (cur : list (string * string)) :
  forall c, count_matches (counted lp) c cur = count_matches lp c cur.
Proof.
  induction cur as [|[a b] rest IH]; intros c; simpl; [reflexivity|].
  destruct (ignored a) eqn:E; [apply IH|].
  rewrite has_value_counted by exact E. destruct (has_value lp a b); apply IH.
Qed.

Lemma count_matches_bounds (lp : list (string * string)) (cur : list (string * string)) :
  forall c, (c <= count_matches lp c cur <= c + List.length (counted cur))%nat.
Proof.
  induction cur as [|[a b] rest IH]; intros c; simpl; [lia|].
  unfold counted in *. simpl. destruct (ignored a); simpl.
  - apply IH.
  - destruct (has_value lp a b); [specialize (IH (S c))|specialize (IH c)]; lia.
Qed.

Section Links.

Variable parseUrl : string -> option Url.

(** X12. When the link parses, its score is 0, or at least 1 and at most
    1 plus the number of current parameters other than [_count] and
    [_offset]; it is at least 1 exactly when the pathname is the current
    one and every parameter of the link, those two apart, has its value as
    the first value under that key among the current parameters. *)
Theorem link_score_meaning (path : string) (cur : list (string * string))
    (h : string) (u : Url) :
  parseUrl h = Some u ->
  exists n,
    getLinkScore parseUrl path cur h = Returns n /\
    (n = 0 \/ 1 <= n <= 1 + List.length (counted cur))%nat /\
    ((1 <= n)%nat <->
     path = pathname u /\
     forall k v, In (k, v) (searchParams u) -> ignored k = false -> get k cur = Some v).
Proof.
  intros P. unfold getLinkScore. rewrite P.
  destruct (String.eqb path (pathname u)) eqn:Ep; simpl.
  - apply String.eqb_eq in Ep.
    destruct (link_params_match cur (searchParams u)) eqn:M; simpl.
    + pose proof (count_matches_bounds (searchParams u) cur 1) as B.
      eexists. split; [reflexivity|]. split; [right; exact B|].
      split; [intros _; split; [exact Ep|now apply link_params_match_spec]|lia].
    + exists 0%nat. split; [reflexivity|]. split; [now left|].
      split; [lia|]. intros [_ H]. apply link_params_match_spec in H. congruence.
  - apply String.eqb_neq in Ep. exists 0%nat. split; [reflexivity|].
    split; [now left|]. split; [lia|]. intros [H _]. contradiction.
Qed.

End Links.

Lemma link_score_meaning_witness :
  example_parse "/Patient" = Some {| pathname := "/Patient"; searchParams := [] |} /\
  exists n,
    getLinkScore example_parse "/Patient" [("_count", "20"); ("name", "a")] "/Patient"
      = Returns n /\
    (n = 0 \/ 1 <= n <= 1 + List.length (counted [("_count", "20"); ("name", "a")]))%nat /\
    ((1 <= n)%nat <->
     "/Patient" = pathname {| pathname := "/Patient"; searchParams := [] |} /\
     forall k v, In (k, v) (searchParams {| pathname := "/Patient"; searchParams := [] |}) ->
                 ignored k = false ->
                 get k [("_count", "20"); ("name", "a")] = Some v).
Proof.
  split; [reflexivity|].
  exact (@link_score_meaning example_parse "/Patient" [("_count", "20"); ("name", "a")]
           "/Patient" _ eq_refl).
Defined.

(** X13. The pagination parameters do not count: two lists of current
    parameters that differ in their [_count] and [_offset] entries only
    give a link the same score, and so do two links of the same pathname
    whose parameters differ in those entries only. *)
Theorem pagination_ignored (parseUrl : string -> option Url) (path : string)
    (cur cur' : list (string * string)) (h h' : string) (u u' : Url) :
  counted cur = counted cur' ->
  parseUrl h = Some u -> parseUrl h' = Some u' ->
  pathname u = pathname u' -> counted (searchParams u) = counted (searchParams u') ->
  getLinkScore parseUrl path cur h = getLinkScore parseUrl path cur' h'.
Proof.
  intros C P P' Ep Es. unfold getLinkScore. rewrite P, P', <- Ep.
  rewrite <- (link_params_match_cur cur), <- (link_params_match_cur cur').
  rewrite <- (link_params_match_link _ (searchParams u)),
          <- (link_params_match_link _ (searchParams u')).
  rewrite <- (count_matches_cur _ cur), <- (count_matches_cur _ cur').
  rewrite <- (count_matches_link (searchParams u)),
          <- (count_matches_link (searchParams u')).
  now rewrite C, Es.
Qed.

Lemma pagination_ignored_witness :
  counted [("name", "a"); ("_offset", "40")] = counted [("_count", "20"); ("name", "a")] /\
  example_parse "/Patient?name=a"
    = Some {| pathname := "/Patient"; searchParams := [("name", "a")] |} /\
  example_parse "/Patient?name=a&_count=20"
    = Some {| pathname := "/Patient"; searchParams := [("name", "a"); ("_count", "20")] |} /\
  getLinkScore example_parse "/Patient" [("name", "a"); ("_offset", "40")] "/Patient?name=a"
  = getLinkScore example_parse "/Patient" [("_count", "20"); ("name", "a")]
      "/Patient?name=a&_count=20".
Proof.
  split; [reflexivity|]. split; [reflexivity|]. split; [reflexivity|].
  exact (@pagination_ignored example_parse "/Patient"
           [("name", "a"); ("_offset", "40")] [("_count", "20"); ("name", "a")]
           "/Patient?name=a" "/Patient?name=a&_count=20" _ _
           eq_refl eq_refl eq_refl eq_refl eq_refl).
Defined.

(** *** The best link *)

Section Best.

Variable parseUrl : string -> option Url.
Variable path : string.
Variable cur : list (string * string).

Let score (l : NavbarLink) : Outcome nat := getLinkScore parseUrl path cur (href l).

Lemma scan_links_app (l1 l2 : list NavbarLink) :
  forall best,
    scan_links parseUrl path cur (l1 ++ l2) best =
    match scan_links parseUrl path cur l1 best with
    | Throws => Throws
    | Returns b => scan_links parseUrl path cur l2 b
    end.
Proof.
  induction l1 as [|x l1 IH]; intros best; simpl; [reflexivity|].
  destruct (getLinkScore parseUrl path cur (href x)); [apply IH|reflexivity].
Qed.

Lemma scan_menus_flat (menus : list NavbarMenu) :
  forall best,
    scan_menus parseUrl path cur menus best
    = scan_links parseUrl path cur (all_links menus) best.
Proof.
  induction menus as [|m menus IH]; intros best; simpl; [reflexivity|].
  destruct (links m) as [ls|]; [|apply IH].
  rewrite scan_links_app.
  destruct (scan_links parseUrl path cur ls best); [apply IH|reflexivity].
Qed.

Lemma scan_links_best (ls : list NavbarLink) :
  forall bl bs bl' bs',
    scan_links parseUrl path cur ls (bl, bs) = Returns (bl', bs') ->
    (bl' = bl /\ bs' = bs /\
     Forall (fun x => exists m, score x = Returns m /\ (m <= bs)%nat) ls) \/
    (exists pre l post,
        ls = pre ++ l :: post /\ bl' = Some l /\ score l = Returns bs' /\
        (bs < bs')%nat /\
        Forall (fun x => exists m, score x = Returns m /\ (m < bs')%nat) pre /\
        Forall (fun x => exists m, score x = Returns m /\ (m <= bs')%nat) post).
Proof.
  induction ls as [|x rest IH]; intros bl bs bl' bs' E; simpl in E.
  - inversion E; subst. left. auto.
  - destruct (getLinkScore parseUrl path cur (href x)) as [sc|] eqn:Sx; [|discriminate].
    destruct (Nat.ltb bs sc) eqn:Lt; simpl in E.
    + apply Nat.ltb_lt in Lt. apply IH in E.
      destruct E as [(-> & -> & F)|(pre & l & post & -> & -> & Sl & L & Fp & Fq)].
      * right. exists [], x, rest. repeat split; auto.
      * right. exists (x :: pre), l, post. repeat split; auto; [lia|].
        constructor; [|exact Fp]. exists sc. split; [exact Sx|lia].
    + apply Nat.ltb_ge in Lt. apply IH in E.
      destruct E as [(-> & -> & F)|(pre & l & post & -> & -> & Sl & L & Fp & Fq)].
      * left. repeat split; auto. constructor; [|exact F]. exists sc. auto.
      * right. exists (x :: pre), l, post. repeat split; auto.
        constructor; [|exact Fp]. exists sc. split; [exact Sx|lia].
Qed.

Lemma scan_links_throws (ls : list NavbarLink) :
  forall best,
    scan_links parseUrl path cur ls best = Throws <->
    exists l, In l ls /\ parseUrl (href l) = None.
Proof.
  induction ls as [|x rest IH]; intros best; simpl.
  - split; [discriminate|intros (l & [] & _)].
  - unfold getLinkScore at 1. destruct (parseUrl (href x)) as [u|] eqn:P.
    + assert (E : exists sc, (if negb (String.eqb path (pathname u)) then Returns 0%nat
                 else if negb (link_params_match cur (searchParams u)) then Returns 0%nat
                 else Returns (count_matches (searchParams u) 1 cur)) = Returns sc).
      { destruct (negb (String.eqb path (pathname u))); [eauto|].
        destruct (negb (link_params_match cur (searchParams u))); eauto. }
      destruct E as [sc ->]. rewrite IH. split.
      * intros (l & Hin & Hl). exists l. split; [now right|exact Hl].
      * intros (l & [->|Hin] & Hl); [congruence|eauto].
    + split; [intros _; exists x; auto|reflexivity].
Qed.

End Best.

(** X14. The link [getActiveLink] returns is the first of the links with
    the highest score, and that score is not 0: the links before it in the
    menus score less and those after it do not score more.  It returns no
    link when every link scores 0. *)
Theorem active_link_is_best (parseUrl : string -> option Url) (path : string)
    (cur : list (string * string)) (menus : list NavbarMenu) (r : option NavbarLink) :
  path <> "" ->
  getActiveLink parseUrl (Some path) (Some cur) (Some menus) = Returns r ->
  match r with
  | Some l =>
      exists pre post n,
        all_links menus = pre ++ l :: post /\
        getLinkScore parseUrl path cur (href l) = Returns n /\ (0 < n)%nat /\
        Forall (fun x => exists m, getLinkScore parseUrl path cur (href x) = Returns m /\
                                   (m < n)%nat) pre /\
        Forall (fun x => exists m, getLinkScore parseUrl path cur (href x) = Returns m /\
                                   (m <= n)%nat) post
  | None =>
      Forall (fun x => getLinkScore parseUrl path cur (href x) = Returns 0%nat)
             (all_links menus)
  end.
Proof.
  intros N E. unfold getActiveLink in E.
  replace (String.eqb path "") with false in E by (symmetry; now apply String.eqb_neq).
  rewrite scan_menus_flat in E.
  destruct (scan_links parseUrl path cur (all_links menus) (None, 0%nat))
    as [[bl bs]|] eqn:S; [|discriminate].
  inversion E; subst r. simpl.
  apply scan_links_best in S.
  destruct S as [(-> & -> & F)|(pre & l & post & A & -> & Sl & L & Fp & Fq)].
  - eapply Forall_impl; [|exact F]. simpl. intros x (m & Hm & Le).
    assert (m = 0%nat) by lia. now subst.
  - exists pre, post, bs. auto.
Qed.

Lemma active_link_is_best_witness :
  "/Patient" <> "" /\
  getActiveLink example_parse (Some "/Patient") (Some [("name", "a"); ("_count", "20")])
    (Some example_menus)
  = Returns (Some {| label := Some "Named a"; href := "/Patient?name=a" |}) /\
  exists pre post n,
    all_links example_menus
      = pre ++ {| label := Some "Named a"; href := "/Patient?name=a" |} :: post /\
    getLinkScore example_parse "/Patient" [("name", "a"); ("_count", "20")]
      "/Patient?name=a" = Returns n /\ (0 < n)%nat /\
    Forall (fun x => exists m,
              getLinkScore example_parse "/Patient" [("name", "a"); ("_count", "20")]
                (href x) = Returns m /\ (m < n)%nat) pre /\
    Forall (fun x => exists m,
              getLinkScore example_parse "/Patient" [("name", "a"); ("_count", "20")]
                (href x) = Returns m /\ (m <= n)%nat) post.
Proof.
  assert (N : "/Patient" <> "") by discriminate.
  assert (E : getActiveLink example_parse (Some "/Patient")
                (Some [("name", "a"); ("_count", "20")]) (Some example_menus)
              = Returns (Some {| label := Some "Named a"; href := "/Patient?name=a" |}))
    by (vm_compute; reflexivity).
  split; [exact N|]. split; [exact E|].
  exact (@active_link_is_best example_parse "/Patient" [("name", "a"); ("_count", "20")]
           example_menus _ N E).
Defined.

(** [getActiveLink] throws exactly when it is given a pathname that is
    not empty, the current parameters and the menus, and one of the
    links of the menus does not parse as a URL. *)
Lemma getActiveLink_throws (parseUrl : string -> option Url)
    (currentPathname : option string)
    (currentSearchParams : option (list (string * string)))
    (menus : option (list NavbarMenu)) :
  getActiveLink parseUrl currentPathname currentSearchParams menus = Throws <->
  exists path cur ms,
    currentPathname = Some path /\ path <> "" /\
    currentSearchParams = Some cur /\ menus = Some ms /\
    exists l, In l (all_links ms) /\ parseUrl (href l) = None.
Proof.
  unfold getActiveLink.
  destruct currentPathname as [path|], currentSearchParams as [cur|], menus as [ms|];
    try (split; [discriminate|intros (? & ? & ? & A & _ & B & C & _); discriminate]).
  destruct (String.eqb path "") eqn:Ep.
  - apply String.eqb_eq in Ep. split; [discriminate|].
    intros (p & c & m & A & N & _). inversion A; subst. contradiction.
  - apply String.eqb_neq in Ep. rewrite scan_menus_flat.
    destruct (scan_links parseUrl path cur (all_links ms) (None, 0%nat)) as [b|] eqn:S.
    + split; [discriminate|].
      intros (p & c & m & A & _ & B & C & H). inversion A; inversion B; inversion C; subst.
      apply (scan_links_throws parseUrl p c (all_links m) (None, 0%nat)) in H. congruence.
    + split; [|reflexivity]. intros _.
      apply scan_links_throws in S. exists path, cur, ms. auto.
Qed.

(** X15. [getActiveLink] throws exactly when it is given a pathname that
    is not empty, the current parameters and the menus, and one of the
    links of the menus does not parse as a URL.  With no pathname, an
    empty one, no parameters or no menus it returns no link, whatever
    the links of the menus and whether they parse or not; and when every
    link parses it returns, and returns a link only if the menus have
    one. *)
Theorem active_link_throws (parseUrl : string -> option Url)
    (currentPathname : option string)
    (currentSearchParams : option (list (string * string)))
    (menus : option (list NavbarMenu)) :
  (getActiveLink parseUrl currentPathname currentSearchParams menus = Throws <->
   exists path cur ms,
     currentPathname = Some path /\ path <> "" /\
     currentSearchParams = Some cur /\ menus = Some ms /\
     exists l, In l (all_links ms) /\ parseUrl (href l) = None) /\
  (currentPathname = None \/ currentPathname = Some "" \/
   currentSearchParams = None \/ menus = None ->
   forall parse,
     getActiveLink parse currentPathname currentSearchParams menus = Returns None) /\
  ((forall ms l, menus = Some ms -> In l (all_links ms) -> parseUrl (href l) <> None) ->
   exists r,
     getActiveLink parseUrl currentPathname currentSearchParams menus = Returns r /\
     forall l, r = Some l -> exists ms, menus = Some ms /\ In l (all_links ms)).
Proof.
  split; [apply getActiveLink_throws|]. split.
  - intros H parse. unfold getActiveLink.
    destruct currentPathname as [path|]; [|reflexivity].
    destruct currentSearchParams as [cur|]; [|reflexivity].
    destruct menus as [ms|]; [|reflexivity].
    destruct H as [H|[H|[H|H]]]; try discriminate.
    injection H as ->. reflexivity.
  - intros P.
    destruct (getActiveLink parseUrl currentPathname currentSearchParams menus)
      as [r|] eqn:E.
    + exists r. split; [reflexivity|]. intros l ->.
      unfold getActiveLink in E.
      destruct currentPathname as [path|]; [|discriminate].
      destruct currentSearchParams as [cur|]; [|discriminate].
      destruct menus as [ms|]; [|discriminate].
      destruct (String.eqb path "") eqn:Ep; [discriminate|].
      apply String.eqb_neq in Ep.
      assert (E' : getActiveLink parseUrl (Some path) (Some cur) (Some ms)
                   = Returns (Some l)).
      { unfold getActiveLink.
        replace (String.eqb path "") with false
          by (symmetry; now apply String.eqb_neq).
        exact E. }
      exists ms. split; [reflexivity|].
      rewrite scan_menus_flat in E.
      destruct (scan_links parseUrl path cur (all_links ms) (None, 0%nat))
        as [[bl bs]|] eqn:S; [|discriminate].
      injection E as ->.
      apply scan_links_best in S.
      destruct S as [(H & _)|(pre & l' & post & A & H & _)]; [discriminate|].
      injection H as <-. rewrite A. apply in_or_app. right. now left.
    + apply getActiveLink_throws in E.
      destruct E as (path & cur & ms & _ & _ & _ & Hm & l & Hin & Hp).
      now destruct (P ms l Hm Hin).
Qed.

Lemma active_link_throws_witness :
  (getActiveLink example_parse (Some "/Patient") (Some []) (Some example_menus) = Throws <->
   exists path cur ms,
     Some "/Patient" = Some path /\ path <> "" /\
     @Some (list (string * string)) [] = Some cur /\ Some example_menus = Some ms /\
     exists l, In l (all_links ms) /\ example_parse (href l) = None) /\
  (@None string = None \/ @None string = Some "" \/
   Some (@nil (string * string)) = None \/ Some example_menus = None ->
   forall parse,
     getActiveLink parse None (Some []) (Some example_menus) = Returns None) /\
  (forall ms l, Some example_menus = Some ms -> In l (all_links ms) ->
                example_parse (href l) <> None) /\
  exists r,
    getActiveLink example_parse (Some "/Patient") (Some []) (Some example_menus)
      = Returns r /\
    forall l, r = Some l -> exists ms, Some example_menus = Some ms /\ In l (all_links ms).
Proof.
  assert (P : forall ms l, Some example_menus = Some ms -> In l (all_links ms) ->
                           example_parse (href l) <> None).
  { intros ms l [= <-] Hin. vm_compute in Hin.
    repeat (destruct Hin as [<-|Hin]; [vm_compute; discriminate|]). destruct Hin. }
  split; [exact (proj1 (active_link_throws example_parse (Some "/Patient") (Some [])
                          (Some example_menus)))|].
  split; [exact (proj1 (proj2 (active_link_throws example_parse None (Some [])
                                 (Some example_menus))))|].
  split; [exact P|].
  exact (proj2 (proj2 (active_link_throws example_parse (Some "/Patient") (Some [])
                         (Some example_menus))) P).
Defined.

End NavbarFacts.

(* ================================================================= *)
(** ** Facts about the appointment agent *)

Module AgentFacts.

Import Agent.

Lemma prefix_spec (n s : string) :
  String.prefix n s = true <-> exists t, s = n +++ t.
Proof.
  revert s. induction n as [|c n IH]; intros s.
  - destruct s; simpl; (split; [intros _; eexists; reflexivity|reflexivity]).
  - destruct s as [|d s]; simpl;
      [split; [discriminate|intros (t & H); discriminate]|].
    destruct (ascii_dec c d) as [->|N].
    + rewrite IH. split; intros (t & H); exists t; [now subst|now inversion H].
    + split; [discriminate|]. intros (t & H). inversion H. congruence.
Qed.

Lemma includes_spec (n s : string) :
  includes n s = true <-> exists pre post, s = pre +++ n +++ post.
Proof.
  induction s as [|d s IH].
  - cbn [includes]. destruct (String.prefix n "") eqn:P.
    + apply prefix_spec in P. destruct P as (t & H).
      split; [intros _; now exists "", t|reflexivity].
    + split; [discriminate|]. intros (pre & post & H).
      destruct pre; [|discriminate]. simpl in H.
      assert (String.prefix n "" = true) by (apply prefix_spec; now exists post).
      congruence.
  - cbn [includes]. destruct (String.prefix n (String d s)) eqn:P.
    + apply prefix_spec in P. destruct P as (t & H).
      split; [intros _; now exists "", t|reflexivity].
    + rewrite IH. split.
      * intros (pre & post & H). exists (String d pre), post. simpl. now rewrite H.
      * intros (pre & post & H). destruct pre as [|c pre].
        -- simpl in H.
           assert (String.prefix n (String d s) = true)
             by (apply prefix_spec; now exists post).
           congruence.
        -- inversion H. now exists pre, post.
Qed.

Lemma append_assoc' (a b c : string) : (a +++ b) +++ c = a +++ b +++ c.
Proof. induction a as [|x a IH]; simpl; [reflexivity|now rewrite IH]. Qed.

(** A string that includes [a +++ b] includes [b]. *)
Lemma includes_suffix (a b s : string) :
  includes (a +++ b) s = true -> includes b s = true.
Proof.
  rewrite !includes_spec. intros (pre & post & H).
  exists (pre +++ a), post. now rewrite H, !append_assoc'.
Qed.

Section Agent.

Variable toLowerCase : string -> string.
Variable getHours : string -> option Z.

(** X16. The mock extraction tests [schedule] and [appointment] before
    [reschedule] and [cancel]: a message whose lower case includes
    [reschedule] or [appointment] is a [book] intent; an intent is
    [reschedule] only when the message includes [change], and [cancel]
    only when it includes [cancel] and not [appointment]. *)
Theorem mock_intent_precedence (message : string) :
  let intent := mockIntentExtraction toLowerCase message in
  (includes "reschedule" (toLowerCase message) = true \/
   includes "appointment" (toLowerCase message) = true -> action intent = book) /\
  (action intent = reschedule -> includes "change" (toLowerCase message) = true) /\
  (action intent = cancel ->
   includes "cancel" (toLowerCase message) = true /\
   includes "appointment" (toLowerCase message) = false) /\
  originalMessage intent = message.
Proof.
  cbv zeta. unfold mockIntentExtraction.
  pose proof (includes_suffix "re" "schedule" (toLowerCase message)) as RS.
  change ("re" +++ "schedule") with "reschedule" in RS.
  destruct (includes "book" (toLowerCase message)) eqn:B;
  destruct (includes "schedule" (toLowerCase message)) eqn:S;
  destruct (includes "appointment" (toLowerCase message)) eqn:A;
  destruct (includes "reschedule" (toLowerCase message)) eqn:R;
  destruct (includes "change" (toLowerCase message)) eqn:C;
  destruct (includes "cancel" (toLowerCase message)) eqn:K;
  simpl; repeat split; try discriminate; try reflexivity;
    try (intros [H|H]; discriminate);
    try (specialize (RS eq_refl); discriminate).
Qed.

(** X17. The three named preferences share out the hours from 8 to 20:
    a slot whose hour is in that range is kept under exactly one of
    [morning], [afternoon] and [evening], and a slot at another hour, or
    whose start is not a date, under none.  No preference, the empty one
    and any other word keep every slot. *)
Theorem preferences_share_hours (slots : list Slot) (m a e : string) :
  toLowerCase m = "morning" -> toLowerCase a = "afternoon" ->
  toLowerCase e = "evening" -> m <> "" -> a <> "" -> e <> "" ->
  (forall slot, In slot slots ->
     let kept p := In slot (filterSlotsByTime toLowerCase getHours slots (Some p)) in
     match getHours (start slot) with
     | Some h =>
         (kept m <-> 8 <= h < 12) /\ (kept a <-> 12 <= h < 17) /\
         (kept e <-> 17 <= h < 20)
     | None => ~ kept m /\ ~ kept a /\ ~ kept e
     end) /\
  filterSlotsByTime toLowerCase getHours slots None = slots /\
  filterSlotsByTime toLowerCase getHours slots (Some "") = slots /\
  (forall p, p <> "" -> toLowerCase p <> "morning" -> toLowerCase p <> "afternoon" ->
             toLowerCase p <> "evening" ->
             filterSlotsByTime toLowerCase getHours slots (Some p) = slots).
Proof.
  intros Lm La Le Nm Na Ne.
  assert (K : forall p slot, p <> "" ->
            (In slot (filterSlotsByTime toLowerCase getHours slots (Some p)) <->
             In slot slots /\ slot_fits toLowerCase getHours p slot = true)).
  { intros p slot Np. unfold filterSlotsByTime.
    replace (String.eqb p "") with false by (symmetry; now apply String.eqb_neq).
    apply filter_In. }
  split; [|split; [reflexivity|split; [reflexivity|]]].
  - intros slot Hin. cbv beta zeta.
    pose proof (K m slot Nm) as Km. pose proof (K a slot Na) as Ka.
    pose proof (K e slot Ne) as Ke.
    unfold slot_fits in Km, Ka, Ke. rewrite Lm in Km. rewrite La in Ka. rewrite Le in Ke.
    simpl in Km, Ka, Ke.
    destruct (getHours (start slot)) as [h|]; simpl in Km, Ka, Ke;
      rewrite Km, Ka, Ke.
    + rewrite ?andb_true_iff, ?Z.leb_le, ?Z.ltb_lt. tauto.
    + repeat split; intros [_ H]; discriminate.
  - intros p Np N1 N2 N3. unfold filterSlotsByTime.
    replace (String.eqb p "") with false by (symmetry; now apply String.eqb_neq).
    assert (F : forall slot, slot_fits toLowerCase getHours p slot = true).
    { intros slot. unfold slot_fits.
      apply String.eqb_neq in N1, N2, N3. now rewrite N1, N2, N3. }
    clear K. induction slots as [|x rest IH]; simpl; [reflexivity|].
    rewrite F. f_equal. exact IH.
Qed.

End Agent.

Lemma preferences_share_hours_witness :
  lower "Morning" = "morning" /\ lower "AFTERNOON" = "afternoon" /\
  lower "evening" = "evening" /\ "Morning" <> "" /\ "AFTERNOON" <> "" /\ "evening" <> "" /\
  (forall slot, In slot example_slots ->
     let kept p := In slot (filterSlotsByTime lower example_hours example_slots (Some p)) in
     match example_hours (start slot) with
     | Some h =>
         (kept "Morning" <-> 8 <= h < 12) /\ (kept "AFTERNOON" <-> 12 <= h < 17) /\
         (kept "evening" <-> 17 <= h < 20)
     | None => ~ kept "Morning" /\ ~ kept "AFTERNOON" /\ ~ kept "evening"
     end) /\
  filterSlotsByTime lower example_hours example_slots None = example_slots /\
  filterSlotsByTime lower example_hours example_slots (Some "") = example_slots /\
  (forall p, p <> "" -> lower p <> "morning" -> lower p <> "afternoon" ->
             lower p <> "evening" ->
             filterSlotsByTime lower example_hours example_slots (Some p) = example_slots).
Proof.
  assert (Lm : lower "Morning" = "morning") by reflexivity.
  assert (La : lower "AFTERNOON" = "afternoon") by reflexivity.
  assert (Le : lower "evening" = "evening") by reflexivity.
  assert (Nm : "Morning" <> "") by discriminate.
  assert (Na : "AFTERNOON" <> "") by discriminate.
  assert (Ne : "evening" <> "") by discriminate.
  split; [exact Lm|]. split; [exact La|]. split; [exact Le|].
  split; [exact Nm|]. split; [exact Na|]. split; [exact Ne|].
  exact (@preferences_share_hours lower example_hours example_slots
           "Morning" "AFTERNOON" "evening" Lm La Le Nm Na Ne).
Defined.

(** The phrases the agent itself suggests for rescheduling and for
    cancelling are read as bookings by the mock extraction. *)
Example suggested_phrases_book :
  action (mockIntentExtraction lower "Can I reschedule my Tuesday appointment?") = book /\
  action (mockIntentExtraction lower "I want to cancel my appointment") = book /\
  action (mockIntentExtraction lower "Please cancel it") = cancel /\
  action (mockIntentExtraction lower "I need to change the time") = reschedule.
Proof. vm_compute. repeat split. Qed.

End AgentFacts.
